(** * TidyFlow multi-terminal smoke test: frame demultiplexing and
      deadline-bounded waiting

    A shallow embedding of [scripts/term-multi-smoke.py] (class
    [TerminalTester] and the steps of [main] that touch the session
    registry), together with the two standard-library codecs the script
    calls on every output frame: [base64.b64encode] / [base64.b64decode]
    and [bytes.decode("utf-8", errors="replace")] / [str.encode()].

    Conventions.
    - A Python [bytes] value is a [list byte]; a Python [str] holding
      decoded terminal text is a list of Unicode code points ([list N]);
      protocol tokens (message types, session ids, base64 text) are Rocq
      [string]s.
    - [self.outputs] is a [gmap string (list N)], [self.term_ids] a list.
    - The event-loop clock is an integer number of milliseconds
      ([TIMEOUT = 10] seconds is [10000]); time only passes while the
      script is suspended in [asyncio.wait_for].
    - The connection is a FIFO of frames still to arrive, each with its
      arrival time.
    - Python exceptions are values of [exn]; an operation returns an
      [outcome]. *)

From Stdlib Require Import ZArith NArith Lia List String Ascii Bool.
From Stdlib.Strings Require Import Byte.
From stdpp Require Import base option gmap strings list fin_maps.

Local Open Scope string_scope.
Local Open Scope N_scope.
Local Open Scope list_scope.

(** ** Exceptions and outcomes *)

Inductive exn : Type :=
| IndexError
| KeyError (key : string)
| ValueError
| BinasciiError
| UnicodeEncodeError.

Inductive outcome (A : Type) : Type :=
| Return (a : A)
| Raise (e : exn)
| OutOfFuel.

Arguments Return {A} a.
Arguments Raise {A} e.
Arguments OutOfFuel {A}.

#[global] Instance outcome_bind : MBind outcome := fun A B k m =>
  match m with
  | Return a => k a
  | Raise e => Raise e
  | OutOfFuel => OutOfFuel
  end.

(** ** Bytes *)

(** The byte whose value is [n mod 256]. *)
Definition byte_of_N (n : N) : byte :=
  match Byte.of_N (n mod 256) with
  | Some b => b
  | None => x00
  end.

Module Base64.

(** *** [base64.b64encode]: RFC 4648 alphabet, three bytes to four
    characters, [=] padding, no newline. *)

Definition table_b2a_base64 : string :=
  "ABCDEFGHIJKLMNOPQRSTUVWXYZabcdefghijklmnopqrstuvwxyz0123456789+/".

Definition BASE64_PAD : ascii := "="%char.

Definition b2a (n : N) : ascii :=
  match String.get (N.to_nat n) table_b2a_base64 with
  | Some c => c
  | None => BASE64_PAD
  end.

Fixpoint b64encode (s : list byte) : string :=
  match s with
  | [] => EmptyString
  | [a] =>
      let a := Byte.to_N a in
      String (b2a (N.shiftr a 2))
        (String (b2a (N.shiftl (N.land a 3) 4))
           (String BASE64_PAD (String BASE64_PAD EmptyString)))
  | [a; b] =>
      let a := Byte.to_N a in
      let b := Byte.to_N b in
      String (b2a (N.shiftr a 2))
        (String (b2a (N.lor (N.shiftl (N.land a 3) 4) (N.shiftr b 4)))
           (String (b2a (N.shiftl (N.land b 15) 2))
              (String BASE64_PAD EmptyString)))
  | a :: b :: c :: rest =>
      let a := Byte.to_N a in
      let b := Byte.to_N b in
      let c := Byte.to_N c in
      String (b2a (N.shiftr a 2))
        (String (b2a (N.lor (N.shiftl (N.land a 3) 4) (N.shiftr b 4)))
           (String (b2a (N.lor (N.shiftl (N.land b 15) 2) (N.shiftr c 6)))
              (String (b2a (N.land c 63)) (b64encode rest))))
  end.

(** *** [base64.b64decode] with [validate=False]: characters outside the
    alphabet are skipped, a completed pad sequence ends the input, and a
    dangling quad is an error ([binascii.Error]). *)

Definition table_a2b_base64 (c : ascii) : option N :=
  let n := N_of_ascii c in
  if (65 <=? n) && (n <=? 90) then Some (n - 65)
  else if (97 <=? n) && (n <=? 122) then Some (n - 71)
  else if (48 <=? n) && (n <=? 57) then Some (n + 4)
  else if n =? 43 then Some 62
  else if n =? 47 then Some 63
  else None.

Fixpoint a2b_base64 (s : string) (quad_pos leftchar pads : N) (bin_data : list byte)
  : outcome (list byte) :=
  match s with
  | EmptyString =>
      if quad_pos =? 0 then Return bin_data else Raise BinasciiError
  | String this_ch s' =>
      if Ascii.eqb this_ch BASE64_PAD then
        if (2 <=? quad_pos) && (4 <=? quad_pos + (pads + 1)) then Return bin_data
        else a2b_base64 s' quad_pos leftchar
               (if 2 <=? quad_pos then pads + 1 else pads) bin_data
      else
        match table_a2b_base64 this_ch with
        | None => a2b_base64 s' quad_pos leftchar pads bin_data
        | Some v =>
            if quad_pos =? 0 then a2b_base64 s' 1 v 0 bin_data
            else if quad_pos =? 1 then
              a2b_base64 s' 2 (N.land v 15) 0
                (bin_data ++ [byte_of_N (N.lor (N.shiftl leftchar 2) (N.shiftr v 4))])
            else if quad_pos =? 2 then
              a2b_base64 s' 3 (N.land v 3) 0
                (bin_data ++ [byte_of_N (N.lor (N.shiftl leftchar 4) (N.shiftr v 2))])
            else
              a2b_base64 s' 0 0 0
                (bin_data ++ [byte_of_N (N.lor (N.shiftl leftchar 6) v)])
        end
  end.

(** A [str] argument must be pure ASCII, otherwise [ValueError]. *)
Definition is_ascii (c : ascii) : bool := N_of_ascii c <? 128.

Definition b64decode (s : string) : outcome (list byte) :=
  if forallb is_ascii (list_ascii_of_string s) then a2b_base64 s 0 0 0 []
  else Raise ValueError.

End Base64.

Module Utf8.

(** *** [str.encode()] (UTF-8, strict): surrogates cannot be encoded. *)

Definition encode_char (c : N) : outcome (list byte) :=
  if c <? 0x80 then Return [byte_of_N c]
  else if c <? 0x800 then
    Return [byte_of_N (N.lor 0xC0 (N.shiftr c 6));
            byte_of_N (N.lor 0x80 (N.land c 0x3F))]
  else if c <? 0x10000 then
    if (0xD800 <=? c) && (c <=? 0xDFFF) then Raise UnicodeEncodeError
    else
      Return [byte_of_N (N.lor 0xE0 (N.shiftr c 12));
              byte_of_N (N.lor 0x80 (N.land (N.shiftr c 6) 0x3F));
              byte_of_N (N.lor 0x80 (N.land c 0x3F))]
  else if c <? 0x110000 then
    Return [byte_of_N (N.lor 0xF0 (N.shiftr c 18));
            byte_of_N (N.lor 0x80 (N.land (N.shiftr c 12) 0x3F));
            byte_of_N (N.lor 0x80 (N.land (N.shiftr c 6) 0x3F));
            byte_of_N (N.lor 0x80 (N.land c 0x3F))]
  else Raise UnicodeEncodeError.

Fixpoint encode (text : list N) : outcome (list byte) :=
  match text with
  | [] => Return []
  | c :: text' =>
      bs ← encode_char c;
      rest ← encode text';
      Return (bs ++ rest)
  end.

(** *** [bytes.decode("utf-8", errors="replace")]: every maximal
    ill-formed subsequence becomes one U+FFFD, decoding resumes right
    after it. *)

Definition REPLACEMENT : N := 0xFFFD.

Definition is_continuation (ch : N) : bool := (0x80 <=? ch) && (ch <? 0xC0).

(** The second byte of a three-byte form is restricted after [E0]
    (no overlong forms) and after [ED] (no surrogates). *)
Definition bad_second3 (ch ch2 : N) : bool :=
  negb (is_continuation ch2)
  || (if ch2 <? 0xA0 then ch =? 0xE0 else ch =? 0xED).

(** The second byte of a four-byte form is restricted after [F0]
    (no overlong forms) and after [F4] (nothing above U+10FFFF). *)
Definition bad_second4 (ch ch2 : N) : bool :=
  negb (is_continuation ch2)
  || (if ch2 <? 0x90 then ch =? 0xF0 else ch =? 0xF4).

Fixpoint decode_replace (s : list byte) : list N :=
  match s with
  | [] => []
  | b :: r =>
      let ch := Byte.to_N b in
      if ch <? 0x80 then ch :: decode_replace r
      else if ch <? 0xC2 then REPLACEMENT :: decode_replace r
      else if ch <? 0xE0 then
        match r with
        | [] => [REPLACEMENT]
        | b2 :: r2 =>
            let ch2 := Byte.to_N b2 in
            if is_continuation ch2
            then (N.shiftl ch 6 + ch2 - (N.shiftl 0xC0 6 + 0x80)) :: decode_replace r2
            else REPLACEMENT :: decode_replace r
        end
      else if ch <? 0xF0 then
        match r with
        | [] => [REPLACEMENT]
        | b2 :: r2 =>
            let ch2 := Byte.to_N b2 in
            if bad_second3 ch ch2 then REPLACEMENT :: decode_replace r
            else
              match r2 with
              | [] => [REPLACEMENT]
              | b3 :: r3 =>
                  let ch3 := Byte.to_N b3 in
                  if is_continuation ch3
                  then (N.shiftl ch 12 + N.shiftl ch2 6 + ch3
                        - (N.shiftl 0xE0 12 + N.shiftl 0x80 6 + 0x80))
                       :: decode_replace r3
                  else REPLACEMENT :: decode_replace r2
              end
        end
      else if ch <? 0xF5 then
        match r with
        | [] => [REPLACEMENT]
        | b2 :: r2 =>
            let ch2 := Byte.to_N b2 in
            if bad_second4 ch ch2 then REPLACEMENT :: decode_replace r
            else
              match r2 with
              | [] => [REPLACEMENT]
              | b3 :: r3 =>
                  let ch3 := Byte.to_N b3 in
                  if negb (is_continuation ch3) then REPLACEMENT :: decode_replace r2
                  else
                    match r3 with
                    | [] => [REPLACEMENT]
                    | b4 :: r4 =>
                        let ch4 := Byte.to_N b4 in
                        if is_continuation ch4
                        then (N.shiftl ch 18 + N.shiftl ch2 12 + N.shiftl ch3 6 + ch4
                              - (N.shiftl 0xF0 18 + N.shiftl 0x80 12
                                 + N.shiftl 0x80 6 + 0x80))
                             :: decode_replace r4
                        else REPLACEMENT :: decode_replace r3
                    end
              end
        end
      else REPLACEMENT :: decode_replace r
  end.

End Utf8.

(** ** Python [str] values holding terminal text *)

Definition text_of_string (s : string) : list N :=
  map N_of_ascii (list_ascii_of_string s).

Fixpoint startswith (s prefix : list N) : bool :=
  match prefix, s with
  | [], _ => true
  | _ :: _, [] => false
  | p :: prefix', c :: s' => (p =? c) && startswith s' prefix'
  end.

(** [expected in s]: substring search. *)
Fixpoint contains (expected s : list N) : bool :=
  startswith s expected ||
  match s with
  | [] => false
  | _ :: s' => contains expected s'
  end.

(** [list.remove(x)]: drops the first occurrence, [ValueError] when there
    is none. *)
Fixpoint list_remove (x : string) (l : list string) : outcome (list string) :=
  match l with
  | [] => Raise ValueError
  | y :: l' =>
      if String.eqb y x then Return l'
      else l'' ← list_remove x l'; Return (y :: l'')
  end.

(** ** Frames, requests, the connection *)

Module Frame.

(** A parsed incoming message: [parsed["type"]] and the optional keys
    the script reads with [.get] or by index. Every message of the
    protocol is a JSON object with a [type]; what [json.loads] would
    reject is not a frame. *)
Record frame : Type := {
  type : string;
  term_id : option string;
  session_id : option string;
  data_b64 : option string
}.

End Frame.

Abbreviation frame := Frame.frame.

(** The messages the script sends. *)
Inductive request : Type :=
| list_projects
| list_workspaces (project : option string)
| select_workspace (project workspace : option string)
| term_create (project workspace : option string)
| input (term_id : string) (data_b64 : string)
| term_close (term_id : string).

(** [clock] is [asyncio.get_event_loop().time()]; [inbox] the frames the
    peer will deliver, in order, with their arrival times; [sent] what
    has been written to the socket; [pulls] records, for every
    [asyncio.wait_for(self.ws.recv(), timeout=...)], the clock at the
    call and the timeout it was given. *)
Record world : Type := {
  clock : Z;
  inbox : list (Z * frame);
  sent : list request;
  pulls : list (Z * Z)
}.

Record tester : Type := {
  term_ids : list string;
  outputs : gmap string (list N);
  project : option string;
  workspace : option string
}.

Definition TIMEOUT : Z := 10000.

Definition set_clock (c : Z) (w : world) : world :=
  {| clock := c; inbox := inbox w; sent := sent w; pulls := pulls w |}.

Definition set_outputs (o : gmap string (list N)) (t : tester) : tester :=
  {| term_ids := term_ids t; outputs := o;
     project := project t; workspace := workspace t |}.

Definition set_term_ids (l : list string) (t : tester) : tester :=
  {| term_ids := l; outputs := outputs t;
     project := project t; workspace := workspace t |}.

(** [await self.ws.send(json.dumps(msg))] *)
Definition send (msg : request) (w : world) : world :=
  {| clock := clock w; inbox := inbox w; sent := sent w ++ [msg]; pulls := pulls w |}.

(** [await asyncio.wait_for(self.ws.recv(), timeout=timeout)]; [None] is
    [asyncio.TimeoutError]. With a timeout that is not positive the read
    is cancelled before it starts. Otherwise the next frame is delivered
    if it arrives strictly before the timeout expires, and the clock
    moves to its arrival (or stays, if it was already waiting). *)
Definition wait_for_recv (timeout : Z) (w : world) : option frame * world :=
  let log := pulls w ++ [(clock w, timeout)] in
  if (timeout <=? 0)%Z then
    (None, {| clock := clock w; inbox := inbox w; sent := sent w; pulls := log |})
  else
    match inbox w with
    | (arrival, msg) :: rest =>
        if (arrival <? clock w + timeout)%Z then
          (Some msg, {| clock := Z.max (clock w) arrival; inbox := rest;
                        sent := sent w; pulls := log |})
        else
          (None, {| clock := clock w + timeout; inbox := inbox w;
                    sent := sent w; pulls := log |})
    | [] =>
        (None, {| clock := clock w + timeout; inbox := inbox w;
                  sent := sent w; pulls := log |})
    end.

(** ** [TerminalTester] *)

(** [parsed.get("term_id") or self.term_ids[0]] *)
Definition target (t : tester) (parsed : frame) : outcome string :=
  let default :=
    match term_ids t with
    | tid :: _ => Return tid
    | [] => Raise IndexError
    end in
  match Frame.term_id parsed with
  | Some tid => if String.eqb tid "" then default else Return tid
  | None => default
  end.

(** The "Accumulate output" block of [recv_until]. *)
Definition accumulate_output (t : tester) (parsed : frame) : outcome tester :=
  if String.eqb (Frame.type parsed) "output" then
    tid ← target t parsed;
    match outputs t !! tid with
    | Some old =>
        data_b64 ← match Frame.data_b64 parsed with
                   | Some s => Return s
                   | None => Raise (KeyError "data_b64")
                   end;
        raw ← Base64.b64decode data_b64;
        Return (set_outputs (<[tid := old ++ Utf8.decode_replace raw]> (outputs t)) t)
    | None => Return t
    end
  else Return t.

(** The test that ends [recv_until]: the type matches, and so does the
    session when a [term_id] filter was given. *)
Definition expected_frame (msg_type : string) (term_id : option string)
    (parsed : frame) : bool :=
  String.eqb (Frame.type parsed) msg_type &&
  match term_id with
  | None => true
  | Some tid => bool_decide (Frame.term_id parsed = Some tid)
  end.

Fixpoint recv_until_loop (fuel : nat) (msg_type : string) (term_id : option string)
    (deadline : Z) (t : tester) (w : world)
  : outcome (option frame) * tester * world :=
  match fuel with
  | O => (OutOfFuel, t, w)
  | S fuel' =>
      if (clock w <? deadline)%Z then
        match wait_for_recv (deadline - clock w) w with
        | (Some parsed, w') =>
            match accumulate_output t parsed with
            | Return t' =>
                if expected_frame msg_type term_id parsed
                then (Return (Some parsed), t', w')
                else recv_until_loop fuel' msg_type term_id deadline t' w'
            | Raise e => (Raise e, t, w')
            | OutOfFuel => (OutOfFuel, t, w')
            end
        | (None, w') => (Return None, t, w')
        end
      else (Return None, t, w)
  end.

(** Every turn of the loop that does not leave it consumes one frame of
    the inbox, so one more turn than there are frames is enough. *)
Definition recv_until (msg_type : string) (term_id : option string) (timeout : Z)
    (t : tester) (w : world) : outcome (option frame) * tester * world :=
  let deadline := (clock w + timeout)%Z in
  recv_until_loop (S (length (inbox w))) msg_type term_id deadline t w.

Definition send_input (term_id : string) (text : list N) (t : tester) (w : world)
  : outcome unit * tester * world :=
  match Utf8.encode text with
  | Return raw => (Return (), t, send (input term_id (Base64.b64encode raw)) w)
  | Raise e => (Raise e, t, w)
  | OutOfFuel => (OutOfFuel, t, w)
  end.

Fixpoint wait_for_output_loop (fuel : nat) (term_id : string) (expected : list N)
    (deadline : Z) (t : tester) (w : world) : outcome bool * tester * world :=
  match fuel with
  | O => (OutOfFuel, t, w)
  | S fuel' =>
      if (clock w <? deadline)%Z then
        if contains expected (default [] (outputs t !! term_id))
        then (Return true, t, w)
        else
          match recv_until "output" (Some term_id) 500 t w with
          | (Return _, t', w') =>
              wait_for_output_loop fuel' term_id expected deadline t' w'
          | (Raise e, t', w') => (Raise e, t', w')
          | (OutOfFuel, t', w') => (OutOfFuel, t', w')
          end
      else (Return false, t, w)
  end.

(** A turn that does not return either consumes a frame or lets half a
    second pass. *)
Definition wait_for_output (term_id : string) (expected : list N) (timeout : Z)
    (t : tester) (w : world) : outcome bool * tester * world :=
  let deadline := (clock w + timeout)%Z in
  wait_for_output_loop (S (length (inbox w) + Z.to_nat (timeout / 500 + 1)))
    term_id expected deadline t w.

Definition close_terminal (term_id : string) (t : tester) (w : world)
  : outcome bool * tester * world :=
  let w := send (term_close term_id) w in
  match recv_until "term_closed" None TIMEOUT t w with
  | (Return (Some msg), t', w') =>
      if bool_decide (Frame.term_id msg = Some term_id) then
        match list_remove term_id (term_ids t') with
        | Return l => (Return true, set_term_ids l t', w')
        | Raise e => (Raise e, t', w')
        | OutOfFuel => (OutOfFuel, t', w')
        end
      else (Return false, t', w')
  | (Return None, t', w') => (Return false, t', w')
  | (Raise e, t', w') => (Raise e, t', w')
  | (OutOfFuel, t', w') => (OutOfFuel, t', w')
  end.

(** ** Steps of [main] *)

(** Step 3, "Select workspace (this replaces default terminal)". *)
Definition main_select_workspace (t : tester) (w : world)
  : outcome unit * tester * world :=
  let w := send (select_workspace (project t) (workspace t)) w in
  match recv_until "selected_workspace" None TIMEOUT t w with
  | (Return (Some msg), t', w') =>
      match Frame.session_id msg with
      | Some sid =>
          (Return (),
           {| term_ids := [sid]; outputs := {[ sid := [] ]};
              project := project t'; workspace := workspace t' |}, w')
      | None => (Raise (KeyError "session_id"), t', w')
      end
  | (Return None, t', w') => (Return (), t', w')
  | (Raise e, t', w') => (Raise e, t', w')
  | (OutOfFuel, t', w') => (OutOfFuel, t', w')
  end.

(** Step 8, "Collect output": [for _ in range(20): await
    tester.recv_until("output", timeout=0.2)]. *)
Fixpoint collect_output (n : nat) (t : tester) (w : world)
  : outcome unit * tester * world :=
  match n with
  | O => (Return (), t, w)
  | S n' =>
      match recv_until "output" None 200 t w with
      | (Return _, t', w') => collect_output n' t' w'
      | (Raise e, t', w') => (Raise e, t', w')
      | (OutOfFuel, t', w') => (OutOfFuel, t', w')
      end
  end.

(** Step 9, "Verify isolation". *)
Definition MARKER_A : list N := text_of_string "MARKER_A".
Definition MARKER_B : list N := text_of_string "MARKER_B".

Record containment : Type := {
  term1_has_A : bool;
  term1_has_B : bool;
  term2_has_A : bool;
  term2_has_B : bool
}.

Definition isolation_ok (c : containment) : bool :=
  term1_has_A c && negb (term1_has_B c) && term2_has_B c && negb (term2_has_A c).

(** [tester.outputs[term]]: [KeyError] when the session is not registered. *)
Definition outputs_at (t : tester) (term : string) : outcome (list N) :=
  match outputs t !! term with
  | Some s => Return s
  | None => Raise (KeyError term)
  end.

Definition verify_isolation (term1 term2 : string) (t : tester) (w : world)
  : outcome (containment * bool) * tester * world :=
  let facts :=
    out1 ← outputs_at t term1;
    let has1A := contains MARKER_A out1 in
    let has1B := contains MARKER_B out1 in
    out2 ← outputs_at t term2;
    let has2A := contains MARKER_A out2 in
    let has2B := contains MARKER_B out2 in
    Return {| term1_has_A := has1A; term1_has_B := has1B;
              term2_has_A := has2A; term2_has_B := has2B |} in
  (c ← facts; Return (c, isolation_ok c), t, w).

(** ** Notions used to state the properties *)

(** An output frame for session [tid] carrying the bytes [raw]. *)
Definition output_frame (tid : option string) (raw : list byte) : frame :=
  {| Frame.type := "output"; Frame.term_id := tid; Frame.session_id := None;
     Frame.data_b64 := Some (Base64.b64encode raw) |}.

(** [self.outputs[tid] += data] *)
Definition append_output (tid : string) (data : list N) (t : tester) : tester :=
  match outputs t !! tid with
  | Some old => set_outputs (<[tid := old ++ data]> (outputs t)) t
  | None => t
  end.

(** The accumulation block run over a sequence of frames. *)
Fixpoint accumulate_all (t : tester) (frames : list frame) : outcome tester :=
  match frames with
  | [] => Return t
  | parsed :: frames' => t' ← accumulate_output t parsed; accumulate_all t' frames'
  end.

(** The connection after the next frame, arriving at [arrival], has been
    pulled by a wait that ends at [deadline]. *)
Definition pulled (deadline arrival : Z) (w : world) : world :=
  {| clock := Z.max (clock w) arrival; inbox := tail (inbox w); sent := sent w;
     pulls := pulls w ++ [(clock w, (deadline - clock w)%Z)] |}.

Fixpoint pulled_all (deadline : Z) (arrivals : list Z) (w : world) : world :=
  match arrivals with
  | [] => w
  | arrival :: arrivals' => pulled_all deadline arrivals' (pulled deadline arrival w)
  end.

(** The turns [wait_for_output] can still take: one for every frame of
    the inbox and one for every half second before the deadline. *)
Definition turns_left (deadline : Z) (w : world) : nat :=
  length (inbox w) + Z.to_nat ((deadline - clock w + 499) / 500).

(** An output frame is well formed when it carries base64 text with
    correct padding. *)
Definition well_formed (parsed : frame) : Prop :=
  Frame.type parsed = "output" ->
  exists data raw,
    Frame.data_b64 parsed = Some data /\ Base64.b64decode data = Return raw.

(** ** Runs used in the examples *)

(** Sessions [A] and [B] are open; three output frames arrive, then a
    [pong]. *)
Definition smoke_tester : tester :=
  {| term_ids := ["A"; "B"]; outputs := {[ "A" := []; "B" := [] ]};
     project := Some "demo"; workspace := Some "main" |}.

Definition hi : list byte := ["h"%byte; "i"%byte].

Definition pong_frame : frame :=
  {| Frame.type := "pong"; Frame.term_id := None; Frame.session_id := None;
     Frame.data_b64 := None |}.

Definition pong_world : world :=
  {| clock := 0;
     inbox := [(600%Z, output_frame (Some "A") hi);
               (1200%Z, output_frame (Some "B") hi);
               (1900%Z, output_frame None hi);
               (1950%Z, pong_frame)];
     sent := []; pulls := [] |}.

(** The tester once the three output frames have been accumulated. *)
Definition smoke_tester_hi : tester :=
  append_output "A" (text_of_string "hi")
    (append_output "B" (text_of_string "hi")
       (append_output "A" (text_of_string "hi") smoke_tester)).

(** Buffers as they stand after the two markers have been echoed. *)
Definition settled_tester : tester :=
  {| term_ids := ["A"; "B"];
     outputs := {[ "A" := text_of_string "$ echo MARKER_A MARKER_A";
                   "B" := text_of_string "$ echo MARKER_B MARKER_B" ]};
     project := Some "demo"; workspace := Some "main" |}.

(** After [connect]: the default session [S0] is the only one. *)
Definition connected_tester : tester :=
  {| term_ids := ["S0"]; outputs := {[ "S0" := [] ]};
     project := Some "demo"; workspace := Some "main" |}.

Definition selected_workspace_frame : frame :=
  {| Frame.type := "selected_workspace"; Frame.term_id := None;
     Frame.session_id := Some "S1"; Frame.data_b64 := None |}.

Definition select_world : world :=
  {| clock := 0;
     inbox := [(10%Z, output_frame None hi); (30%Z, selected_workspace_frame)];
     sent := []; pulls := [] |}.

Definition term_closed_frame (tid : string) : frame :=
  {| Frame.type := "term_closed"; Frame.term_id := Some tid;
     Frame.session_id := None; Frame.data_b64 := None |}.

(** Two sessions are open; the peer acknowledges both closes of [S1]. *)
Definition closing_tester : tester :=
  {| term_ids := ["S1"; "S2"]; outputs := {[ "S1" := []; "S2" := [] ]};
     project := Some "demo"; workspace := Some "main" |}.

Definition closing_world : world :=
  {| clock := 0;
     inbox := [(20%Z, term_closed_frame "S1"); (50%Z, term_closed_frame "S1")];
     sent := []; pulls := [] |}.

(** "h€llo": a text with a character outside ASCII, and its encoding. *)
Definition hello_text : list N := [0x68; 0x20AC; 0x6C; 0x6C; 0x6F].

Definition hello_bytes : list byte :=
  [x68; xe2; x82; xac; x6c; x6c; x6f].

(** A registry in which the peer has handed out the empty string as a
    session id. *)
Definition empty_id_tester : tester :=
  {| term_ids := ["A"; ""]; outputs := {[ "A" := []; "" := [] ]};
     project := Some "demo"; workspace := Some "main" |}.

Definition echo_A : list byte := list_byte_of_string "echo MARKER_A MARKER_A".
Definition echo_B : list byte := list_byte_of_string "echo MARKER_B MARKER_B".

(** The echoes of the two commands arrive interleaved, each on its own
    session. *)
Definition isolation_world : world :=
  {| clock := 0;
     inbox := [(40%Z, output_frame (Some "B") echo_B);
               (90%Z, output_frame (Some "A") echo_A)];
     sent := []; pulls := [] |}.

(** ** The rest of [TerminalTester] and of [main] *)

(** What the remaining operations can raise besides the exceptions of
    the accumulation block: [asyncio.TimeoutError] out of [recv] and the
    [AssertionError] of [connect]. *)
Inductive error : Type :=
| Exn (e : exn)
| TimeoutError
| AssertionError.

Inductive result (A : Type) : Type :=
| Ok (a : A)
| Err (e : error)
| NoFuel.

Arguments Ok {A} a.
Arguments Err {A} e.
Arguments NoFuel {A}.

Definition lift {A : Type} (o : outcome A) : result A :=
  match o with
  | Return a => Ok a
  | Raise e => Err (Exn e)
  | OutOfFuel => NoFuel
  end.

(** The keys of a message that [Frame.frame] does not carry:
    [msg['cwd']] of a [term_created] message, and the ["name"] of every
    entry of [msg["items"]] (no entry when the key is missing or the list
    is empty, [None] for an entry without a name). *)
Record keys : Type := {
  cwd : frame -> option string;
  items : frame -> list (option string)
}.

(** [TerminalTester()] *)
Definition new_tester : tester :=
  {| term_ids := []; outputs := ∅; project := None; workspace := None |}.

(** [self.term_ids.append(tid); self.outputs[tid] = ""] *)
Definition register (tid : string) (t : tester) : tester :=
  {| term_ids := term_ids t ++ [tid]; outputs := <[tid := []]> (outputs t);
     project := project t; workspace := workspace t |}.

(** [await asyncio.sleep(seconds)] *)
Definition sleep (ms : Z) (w : world) : world := set_clock (clock w + ms) w.

(** [recv]: one frame within [TIMEOUT], or [asyncio.TimeoutError]. *)
Definition recv (w : world) : result frame * world :=
  match wait_for_recv TIMEOUT w with
  | (Some msg, w') => (Ok msg, w')
  | (None, w') => (Err TimeoutError, w')
  end.

(** [connect], once the socket is open: the first frame must be the
    [hello]. *)
Definition connect (t : tester) (w : world) : result string * tester * world :=
  match recv w with
  | (Ok msg, w') =>
      if String.eqb (Frame.type msg) "hello" then
        match Frame.session_id msg with
        | Some sid => (Ok sid, register sid t, w')
        | None => (Err (Exn (KeyError "session_id")), t, w')
        end
      else (Err AssertionError, t, w')
  | (Err e, w') => (Err e, t, w')
  | (NoFuel, w') => (NoFuel, t, w')
  end.

(** [msg["items"][0]["name"]], after [msg.get("items")] was found to be
    non-empty. *)
Definition first_name (names : list (option string)) : result string :=
  match names with
  | Some name :: _ => Ok name
  | None :: _ => Err (Exn (KeyError "name"))
  | [] => Err (Exn IndexError)
  end.

Definition set_project (p : string) (t : tester) : tester :=
  {| term_ids := term_ids t; outputs := outputs t;
     project := Some p; workspace := workspace t |}.

Definition set_workspace (ws : string) (t : tester) : tester :=
  {| term_ids := term_ids t; outputs := outputs t;
     project := project t; workspace := Some ws |}.

Definition setup_workspace (k : keys) (t : tester) (w : world)
  : result bool * tester * world :=
  let w := send list_projects w in
  match recv_until "projects" None TIMEOUT t w with
  | (Return msg, t, w) =>
      match msg with
      | None => (Ok false, t, w)
      | Some msg =>
          match items k msg with
          | [] => (Ok false, t, w)
          | names =>
              match first_name names with
              | Ok p =>
                  let t := set_project p t in
                  let w := send (list_workspaces (project t)) w in
                  match recv_until "workspaces" None TIMEOUT t w with
                  | (Return msg, t, w) =>
                      match msg with
                      | None => (Ok false, t, w)
                      | Some msg =>
                          match items k msg with
                          | [] => (Ok false, t, w)
                          | names =>
                              match first_name names with
                              | Ok ws => (Ok true, set_workspace ws t, w)
                              | Err e => (Err e, t, w)
                              | NoFuel => (NoFuel, t, w)
                              end
                          end
                      end
                  | (Raise e, t, w) => (Err (Exn e), t, w)
                  | (OutOfFuel, t, w) => (NoFuel, t, w)
                  end
              | Err e => (Err e, t, w)
              | NoFuel => (NoFuel, t, w)
              end
          end
      end
  | (Raise e, t, w) => (Err (Exn e), t, w)
  | (OutOfFuel, t, w) => (NoFuel, t, w)
  end.

(** [create_terminal]: the new session is registered before the line
    that prints [msg['cwd']]. *)
Definition create_terminal (k : keys) (t : tester) (w : world)
  : result (option string) * tester * world :=
  let w := send (term_create (project t) (workspace t)) w in
  match recv_until "term_created" None TIMEOUT t w with
  | (Return (Some msg), t, w) =>
      match Frame.term_id msg with
      | Some tid =>
          let t := register tid t in
          match cwd k msg with
          | Some _ => (Ok (Some tid), t, w)
          | None => (Err (Exn (KeyError "cwd")), t, w)
          end
      | None => (Err (Exn (KeyError "term_id")), t, w)
      end
  | (Return None, t, w) => (Ok None, t, w)
  | (Raise e, t, w) => (Err (Exn e), t, w)
  | (OutOfFuel, t, w) => (NoFuel, t, w)
  end.

(** [tester.outputs[term] = ""] *)
Definition clear_output (term : string) (t : tester) : tester :=
  set_outputs (<[term := []]> (outputs t)) t.

(** The command lines [main] types. *)
Definition echo_MARKER_A : list N := text_of_string "echo MARKER_A" ++ [10].
Definition echo_MARKER_B : list N := text_of_string "echo MARKER_B" ++ [10].
Definition pwd : list N := text_of_string "pwd" ++ [10].

(** Steps 5 to 9 of [main]: let the shells start, clear the two buffers,
    type one marker into each terminal, collect, check. *)
Definition isolation_test (term1 term2 : string) (t : tester) (w : world)
  : outcome (containment * bool) * tester * world :=
  let w := sleep 1000 w in
  let t := clear_output term2 (clear_output term1 t) in
  match send_input term1 echo_MARKER_A t w with
  | (Return _, t, w) =>
      let w := sleep 500 w in
      match send_input term2 echo_MARKER_B t w with
      | (Return _, t, w) =>
          let w := sleep 500 w in
          match collect_output 20 t w with
          | (Return _, t, w) => verify_isolation term1 term2 t w
          | (Raise e, t, w) => (Raise e, t, w)
          | (OutOfFuel, t, w) => (OutOfFuel, t, w)
          end
      | (Raise e, t, w) => (Raise e, t, w)
      | (OutOfFuel, t, w) => (OutOfFuel, t, w)
      end
  | (Raise e, t, w) => (Raise e, t, w)
  | (OutOfFuel, t, w) => (OutOfFuel, t, w)
  end.

(** Step 10 of [main]: [pwd] in both terminals; the two buffers are read
    for the report. *)
Definition pwd_test (term1 term2 : string) (t : tester) (w : world)
  : outcome unit * tester * world :=
  let t := clear_output term2 (clear_output term1 t) in
  match send_input term1 pwd t w with
  | (Return _, t, w) =>
      match send_input term2 pwd t w with
      | (Return _, t, w) =>
          let w := sleep 500 w in
          match collect_output 20 t w with
          | (Return _, t, w) =>
              (_ ← outputs_at t term1; _ ← outputs_at t term2; Return (), t, w)
          | (Raise e, t, w) => (Raise e, t, w)
          | (OutOfFuel, t, w) => (OutOfFuel, t, w)
          end
      | (Raise e, t, w) => (Raise e, t, w)
      | (OutOfFuel, t, w) => (OutOfFuel, t, w)
      end
  | (Raise e, t, w) => (Raise e, t, w)
  | (OutOfFuel, t, w) => (OutOfFuel, t, w)
  end.

(** Step 11 of [main]: both closes, their answers unused. *)
Definition close_both (term1 term2 : string) (t : tester) (w : world)
  : outcome unit * tester * world :=
  match close_terminal term2 t w with
  | (Return _, t, w) =>
      match close_terminal term1 t w with
      | (Return _, t, w) => (Return (), t, w)
      | (Raise e, t, w) => (Raise e, t, w)
      | (OutOfFuel, t, w) => (OutOfFuel, t, w)
      end
  | (Raise e, t, w) => (Raise e, t, w)
  | (OutOfFuel, t, w) => (OutOfFuel, t, w)
  end.

(** How a run of [main] ends. [Passed] is [return 0]; every other end is
    [return 1]: no workspace ([Skipped]), no second terminal or a failed
    isolation check ([Failed]), or an exception caught by [except
    Exception] ([Crashed]). *)
Inductive ending : Type :=
| Passed
| Skipped
| Failed (facts : option containment)
| Crashed (e : error).

Definition exit_code (e : ending) : Z :=
  match e with
  | Passed => 0
  | _ => 1
  end.

(** Steps 1 to 4 of [main]: the two terminals the test will use, or the
    way the run ends before it has them. *)
Definition open_terminals (k : keys) (w : world)
  : result (string * string + ending) * tester * world :=
  match connect new_tester w with
  | (Ok _, t, w) =>
      match setup_workspace k t w with
      | (Ok true, t, w) =>
          match main_select_workspace t w with
          | (Return _, t, w) =>
              match term_ids t with
              | term1 :: _ =>
                  match create_terminal k t w with
                  | (Ok (Some term2), t, w) =>
                      if String.eqb term2 ""
                      then (Ok (inr (Failed None)), t, w)
                      else (Ok (inl (term1, term2)), t, w)
                  | (Ok None, t, w) => (Ok (inr (Failed None)), t, w)
                  | (Err e, t, w) => (Ok (inr (Crashed e)), t, w)
                  | (NoFuel, t, w) => (NoFuel, t, w)
                  end
              | [] => (Ok (inr (Crashed (Exn IndexError))), t, w)
              end
          | (Raise e, t, w) => (Ok (inr (Crashed (Exn e))), t, w)
          | (OutOfFuel, t, w) => (NoFuel, t, w)
          end
      | (Ok false, t, w) => (Ok (inr Skipped), t, w)
      | (Err e, t, w) => (Ok (inr (Crashed e)), t, w)
      | (NoFuel, t, w) => (NoFuel, t, w)
      end
  | (Err e, t, w) => (Ok (inr (Crashed e)), t, w)
  | (NoFuel, t, w) => (NoFuel, t, w)
  end.

(** Steps 5 to 11 of [main]. *)
Definition run_tests (term1 term2 : string) (t : tester) (w : world)
  : result ending * tester * world :=
  match isolation_test term1 term2 t w with
  | (Return (facts, true), t, w) =>
      match pwd_test term1 term2 t w with
      | (Return _, t, w) =>
          match close_both term1 term2 t w with
          | (Return _, t, w) => (Ok Passed, t, w)
          | (Raise e, t, w) => (Ok (Crashed (Exn e)), t, w)
          | (OutOfFuel, t, w) => (NoFuel, t, w)
          end
      | (Raise e, t, w) => (Ok (Crashed (Exn e)), t, w)
      | (OutOfFuel, t, w) => (NoFuel, t, w)
      end
  | (Return (facts, false), t, w) => (Ok (Failed (Some facts)), t, w)
  | (Raise e, t, w) => (Ok (Crashed (Exn e)), t, w)
  | (OutOfFuel, t, w) => (NoFuel, t, w)
  end.

Definition main (k : keys) (w : world) : result ending * tester * world :=
  match open_terminals k w with
  | (Ok (inl (term1, term2)), t, w) => run_tests term1 term2 t w
  | (Ok (inr e), t, w) => (Ok e, t, w)
  | (Err e, t, w) => (Err e, t, w)
  | (NoFuel, t, w) => (NoFuel, t, w)
  end.

(** ** Notions used to state the properties of the whole tester *)

(** Same keys, and every buffer of [o'] starts with the buffer [o] has
    under that key. *)
Definition grown (o o' : gmap string (list N)) : Prop :=
  forall k,
    match o !! k with
    | Some s => exists more, o' !! k = Some (s ++ more)
    | None => o' !! k = None
    end.

(** Every open session has a buffer. *)
Definition registered (t : tester) : Prop :=
  Forall (fun tid => is_Some (outputs t !! tid)) (term_ids t).

Definition is_output (x : Z * frame) : bool :=
  String.eqb (Frame.type x.2) "output".

(** Unicode scalar values: the code points [str.encode()] accepts. *)
Definition scalar (c : N) : Prop :=
  c < 0xD800 \/ (0xDFFF < c /\ c < 0x110000).

(** Every buffer holds Unicode scalar values only. *)
Definition clean (t : tester) : Prop :=
  forall k s, outputs t !! k = Some s -> Forall scalar s.

(** The tester with the buffer of [term] replaced by [text]. *)
Definition with_output (term : string) (text : list N) (t : tester) : tester :=
  set_outputs (<[term := text]> (outputs t)) t.

(** A frame of the given type and nothing else. *)
Definition plain_frame (type : string) : frame :=
  {| Frame.type := type; Frame.term_id := None; Frame.session_id := None;
     Frame.data_b64 := None |}.

Definition hello_frame (sid : string) : frame :=
  {| Frame.type := "hello"; Frame.term_id := None; Frame.session_id := Some sid;
     Frame.data_b64 := None |}.

Definition term_created_frame (tid : string) : frame :=
  {| Frame.type := "term_created"; Frame.term_id := Some tid;
     Frame.session_id := None; Frame.data_b64 := None |}.

(** A run of [main]: the handshake, one project with one workspace, the
    selection, a second terminal, the two echoes; no close is ever
    acknowledged. The listing frames are told apart by their type. *)
Definition demo_keys : keys :=
  {| cwd := fun _ => Some "/demo/main";
     items := fun msg =>
       if String.eqb (Frame.type msg) "projects" then [Some "demo"]
       else if String.eqb (Frame.type msg) "workspaces" then [Some "main"]
       else [] |}.

Definition demo_session : world :=
  {| clock := 0;
     inbox := [(5%Z, hello_frame "S0");
               (10%Z, plain_frame "projects");
               (15%Z, plain_frame "workspaces");
               (20%Z, {| Frame.type := "selected_workspace"; Frame.term_id := None;
                         Frame.session_id := Some "T1"; Frame.data_b64 := None |});
               (25%Z, term_created_frame "T2");
               (1100%Z, output_frame (Some "T1") echo_A);
               (1600%Z, output_frame (Some "T2") echo_B)];
     sent := []; pulls := [] |}.

(** * Properties *)

(** ** Bit-level arithmetic shared by the two codecs *)

Ltac divlia := zify; Z.to_euclidean_division_equations; lia.

Lemma to_N_lt (b : byte) : Byte.to_N b < 256.
Proof. pose proof (Byte.to_N_bounded b). lia. Qed.

Lemma byte_of_N_to_N (b : byte) : byte_of_N (Byte.to_N b) = b.
Proof.
  unfold byte_of_N. rewrite N.mod_small by apply to_N_lt.
  now rewrite Byte.of_to_N.
Qed.

Lemma to_N_byte_of_N (n : N) : n < 256 -> Byte.to_N (byte_of_N n) = n.
Proof.
  intros Hn. unfold byte_of_N. rewrite N.mod_small by assumption.
  destruct (Byte.of_N n) as [b|] eqn:E.
  - now apply Byte.to_of_N.
  - apply Byte.of_N_None_iff in E. lia.
Qed.

Lemma land_shiftl_low (x y k : N) : y < 2 ^ k -> N.land (N.shiftl x k) y = 0.
Proof.
  intros Hy. apply N.bits_inj. intros n.
  rewrite N.land_spec, N.bits_0.
  destruct (N.lt_ge_cases n k) as [Hlt|Hge].
  - now rewrite N.shiftl_spec_low.
  - rewrite <- (N.mod_small y (2 ^ k)) by assumption.
    rewrite N.mod_pow2_bits_high by assumption. apply andb_false_r.
Qed.

Lemma lor_shiftl_add (x y k : N) :
  y < 2 ^ k -> N.lor (N.shiftl x k) y = x * 2 ^ k + y.
Proof.
  intros Hy. rewrite <- N.lxor_lor by now apply land_shiftl_low.
  rewrite <- N.add_nocarry_lxor by now apply land_shiftl_low.
  now rewrite N.shiftl_mul_pow2.
Qed.

Lemma land_mod (a k : N) : N.land a (N.ones k) = a mod 2 ^ k.
Proof. apply N.land_ones. Qed.

Lemma land_3 (a : N) : N.land a 3 = a mod 4.
Proof. apply (land_mod a 2). Qed.

Lemma land_15 (a : N) : N.land a 15 = a mod 16.
Proof. apply (land_mod a 4). Qed.

Lemma land_63 (a : N) : N.land a 63 = a mod 64.
Proof. apply (land_mod a 6). Qed.

Lemma shiftr_div (a k : N) : N.shiftr a k = a / 2 ^ k.
Proof. apply N.shiftr_div_pow2. Qed.

(** Replace masks and right shifts by [mod] and [/]. *)
Ltac unmask :=
  rewrite ?land_3, ?land_15, ?land_63, ?shiftr_div;
  change (2 ^ 2) with 4; change (2 ^ 4) with 16; change (2 ^ 6) with 64;
  change (2 ^ 12) with 4096; change (2 ^ 18) with 262144.

(** ** Base64 *)

Lemma b2a_table :
  forallb (fun n =>
             negb (Ascii.eqb (Base64.b2a n) Base64.BASE64_PAD)
             && bool_decide (Base64.table_a2b_base64 (Base64.b2a n) = Some n)
             && Base64.is_ascii (Base64.b2a n))
          (map N.of_nat (seq 0 64)) = true.
Proof. vm_compute. reflexivity. Qed.

Lemma b2a_spec (n : N) :
  n < 64 ->
  Ascii.eqb (Base64.b2a n) Base64.BASE64_PAD = false
  /\ Base64.table_a2b_base64 (Base64.b2a n) = Some n
  /\ Base64.is_ascii (Base64.b2a n) = true.
Proof.
  intros Hn. pose proof b2a_table as H.
  rewrite forallb_forall in H. specialize (H n).
  assert (Hin : In n (map N.of_nat (seq 0 64))).
  { apply in_map_iff. exists (N.to_nat n). split; [lia|].
    apply in_seq. lia. }
  apply H in Hin.
  apply andb_prop in Hin as [Hin H3]. apply andb_prop in Hin as [H1 H2].
  apply negb_true_iff in H1. apply bool_decide_eq_true in H2. auto.
Qed.

Lemma a2b_digit (n : N) (s : string) (quad_pos leftchar pads : N) (acc : list byte) :
  n < 64 ->
  Base64.a2b_base64 (String (Base64.b2a n) s) quad_pos leftchar pads acc =
  if quad_pos =? 0 then Base64.a2b_base64 s 1 n 0 acc
  else if quad_pos =? 1 then
    Base64.a2b_base64 s 2 (N.land n 15) 0
      (acc ++ [byte_of_N (N.lor (N.shiftl leftchar 2) (N.shiftr n 4))])
  else if quad_pos =? 2 then
    Base64.a2b_base64 s 3 (N.land n 3) 0
      (acc ++ [byte_of_N (N.lor (N.shiftl leftchar 4) (N.shiftr n 2))])
  else
    Base64.a2b_base64 s 0 0 0 (acc ++ [byte_of_N (N.lor (N.shiftl leftchar 6) n)]).
Proof.
  intros Hn. destruct (b2a_spec n Hn) as (Hpad & Htab & _).
  cbn [Base64.a2b_base64]. now rewrite Hpad, Htab.
Qed.

(** The four sextets of a three-byte group. *)
Lemma sextet_bounds (a b c : N) :
  a < 256 -> b < 256 -> c < 256 ->
  N.shiftr a 2 < 64
  /\ N.lor (N.shiftl (N.land a 3) 4) (N.shiftr b 4) < 64
  /\ N.lor (N.shiftl (N.land b 15) 2) (N.shiftr c 6) < 64
  /\ N.land c 63 < 64
  /\ N.shiftl (N.land a 3) 4 < 64
  /\ N.shiftl (N.land b 15) 2 < 64.
Proof.
  intros Ha Hb Hc.
  rewrite !lor_shiftl_add by (unmask; divlia).
  rewrite !N.shiftl_mul_pow2. unmask. repeat split; divlia.
Qed.

Lemma first_byte (a b : N) :
  a < 256 -> b < 256 ->
  N.lor (N.shiftl (N.shiftr a 2) 2)
        (N.shiftr (N.lor (N.shiftl (N.land a 3) 4) (N.shiftr b 4)) 4) = a.
Proof.
  intros Ha Hb.
  rewrite (lor_shiftl_add (N.land a 3)) by (unmask; divlia).
  rewrite lor_shiftl_add by (unmask; divlia).
  unmask. divlia.
Qed.

Lemma second_byte (a b c : N) :
  a < 256 -> b < 256 -> c < 256 ->
  N.lor (N.shiftl (N.land (N.lor (N.shiftl (N.land a 3) 4) (N.shiftr b 4)) 15) 4)
        (N.shiftr (N.lor (N.shiftl (N.land b 15) 2) (N.shiftr c 6)) 2) = b.
Proof.
  intros Ha Hb Hc.
  rewrite (lor_shiftl_add (N.land a 3)) by (unmask; divlia).
  rewrite (lor_shiftl_add (N.land b 15)) by (unmask; divlia).
  rewrite lor_shiftl_add by (unmask; divlia).
  unmask. divlia.
Qed.

Lemma third_byte (b c : N) :
  b < 256 -> c < 256 ->
  N.lor (N.shiftl (N.land (N.lor (N.shiftl (N.land b 15) 2) (N.shiftr c 6)) 3) 6)
        (N.land c 63) = c.
Proof.
  intros Hb Hc.
  rewrite (lor_shiftl_add (N.land b 15)) by (unmask; divlia).
  rewrite lor_shiftl_add by (unmask; divlia).
  unmask. divlia.
Qed.

Lemma first_byte_pad (a : N) :
  a < 256 ->
  N.lor (N.shiftl (N.shiftr a 2) 2) (N.shiftr (N.shiftl (N.land a 3) 4) 4) = a.
Proof.
  intros Ha. pose proof (first_byte a 0 Ha eq_refl) as H.
  now rewrite N.shiftr_0_l, N.lor_0_r in H.
Qed.

Lemma second_byte_pad (a b : N) :
  a < 256 -> b < 256 ->
  N.lor (N.shiftl (N.land (N.lor (N.shiftl (N.land a 3) 4) (N.shiftr b 4)) 15) 4)
        (N.shiftr (N.shiftl (N.land b 15) 2) 2) = b.
Proof.
  intros Ha Hb. pose proof (second_byte a b 0 Ha Hb eq_refl) as H.
  now rewrite N.shiftr_0_l, N.lor_0_r in H.
Qed.

Lemma a2b_pad2 (leftchar : N) (acc : list byte) :
  Base64.a2b_base64
    (String Base64.BASE64_PAD (String Base64.BASE64_PAD EmptyString)) 2 leftchar 0 acc
  = Return acc.
Proof. reflexivity. Qed.

Lemma a2b_pad1 (leftchar : N) (acc : list byte) :
  Base64.a2b_base64 (String Base64.BASE64_PAD EmptyString) 3 leftchar 0 acc
  = Return acc.
Proof. reflexivity. Qed.

(** Induction three bytes at a time, as the encoder consumes them. *)
Lemma list_ind3 {A : Type} (P : list A -> Prop) :
  P [] -> (forall a, P [a]) -> (forall a b, P [a; b]) ->
  (forall a b c l, P l -> P (a :: b :: c :: l)) ->
  forall l, P l.
Proof.
  intros H0 H1 H2 H3.
  assert (H : forall l, P l /\ (forall a, P (a :: l)) /\ (forall a b, P (a :: b :: l))).
  { induction l as [|x l (IH0 & IH1 & IH2)]; repeat split; auto. }
  intros l. apply H.
Qed.

Ltac digit B := rewrite (a2b_digit _ _ _ _ _ _ B); cbn [N.eqb Pos.eqb].

Lemma a2b_b64encode (s acc : list byte) :
  Base64.a2b_base64 (Base64.b64encode s) 0 0 0 acc = Return (acc ++ s).
Proof.
  revert acc. induction s as [|a|a b|a b c s IH] using list_ind3; intros acc.
  - now rewrite app_nil_r.
  - pose proof (to_N_lt a) as Ha.
    destruct (sextet_bounds _ _ _ Ha Ha Ha) as (B0 & _ & _ & _ & B1 & _).
    cbn [Base64.b64encode].
    rewrite (a2b_digit _ _ _ _ _ _ B0), (a2b_digit _ _ _ _ _ _ B1).
    cbn. rewrite first_byte_pad by assumption.
    now rewrite byte_of_N_to_N.
  - pose proof (to_N_lt a) as Ha. pose proof (to_N_lt b) as Hb.
    destruct (sextet_bounds _ _ _ Ha Hb Hb) as (B0 & B1 & _ & _ & _ & B2).
    cbn [Base64.b64encode].
    digit B0. digit B1. digit B2. rewrite a2b_pad1, first_byte, second_byte_pad by assumption.
    rewrite !byte_of_N_to_N. now rewrite <- app_assoc.
  - pose proof (to_N_lt a) as Ha. pose proof (to_N_lt b) as Hb.
    pose proof (to_N_lt c) as Hc.
    destruct (sextet_bounds _ _ _ Ha Hb Hc) as (B0 & B1 & B2 & B3 & _ & _).
    cbn [Base64.b64encode].
    digit B0. digit B1. digit B2. digit B3.
    rewrite first_byte, second_byte, third_byte by assumption.
    rewrite !byte_of_N_to_N, IH. f_equal.
    now rewrite <- !app_assoc.
Qed.

Lemma b64encode_is_ascii (s : list byte) :
  forallb Base64.is_ascii (list_ascii_of_string (Base64.b64encode s)) = true.
Proof.
  induction s as [|a|a b|a b c s IH] using list_ind3.
  - reflexivity.
  - pose proof (to_N_lt a) as Ha.
    destruct (sextet_bounds _ _ _ Ha Ha Ha) as (B0 & _ & _ & _ & B1 & _).
    apply b2a_spec in B0 as (_ & _ & A0). apply b2a_spec in B1 as (_ & _ & A1).
    cbn [Base64.b64encode list_ascii_of_string forallb]. now rewrite A0, A1.
  - pose proof (to_N_lt a) as Ha. pose proof (to_N_lt b) as Hb.
    destruct (sextet_bounds _ _ _ Ha Hb Hb) as (B0 & B1 & _ & _ & _ & B2).
    apply b2a_spec in B0 as (_ & _ & A0). apply b2a_spec in B1 as (_ & _ & A1).
    apply b2a_spec in B2 as (_ & _ & A2).
    cbn [Base64.b64encode list_ascii_of_string forallb]. now rewrite A0, A1, A2.
  - pose proof (to_N_lt a) as Ha. pose proof (to_N_lt b) as Hb.
    pose proof (to_N_lt c) as Hc.
    destruct (sextet_bounds _ _ _ Ha Hb Hc) as (B0 & B1 & B2 & B3 & _ & _).
    apply b2a_spec in B0 as (_ & _ & A0). apply b2a_spec in B1 as (_ & _ & A1).
    apply b2a_spec in B2 as (_ & _ & A2). apply b2a_spec in B3 as (_ & _ & A3).
    cbn [Base64.b64encode list_ascii_of_string forallb].
    now rewrite A0, A1, A2, A3, IH.
Qed.

(** [base64.b64decode(base64.b64encode(s)) == s] for every [bytes] value. *)
Lemma b64decode_b64encode (s : list byte) :
  Base64.b64decode (Base64.b64encode s) = Return s.
Proof.
  unfold Base64.b64decode. rewrite b64encode_is_ascii.
  apply (a2b_b64encode s []).
Qed.

(** ** UTF-8 *)

Lemma lor_high (h y k : N) : y < 2 ^ k -> N.lor (h * 2 ^ k) y = h * 2 ^ k + y.
Proof.
  intros Hy. rewrite <- (lor_shiftl_add h y k Hy).
  now rewrite N.shiftl_mul_pow2.
Qed.

Lemma lor_80 (y : N) : y < 64 -> N.lor 0x80 y = 0x80 + y.
Proof. apply (lor_high 2 y 6). Qed.

Lemma lor_C0 (y : N) : y < 64 -> N.lor 0xC0 y = 0xC0 + y.
Proof. apply (lor_high 3 y 6). Qed.

Lemma lor_E0 (y : N) : y < 32 -> N.lor 0xE0 y = 0xE0 + y.
Proof. apply (lor_high 7 y 5). Qed.

Lemma lor_F0 (y : N) : y < 16 -> N.lor 0xF0 y = 0xF0 + y.
Proof. apply (lor_high 15 y 4). Qed.

(** Decide every comparison left in the goal. *)
Ltac tests :=
  repeat (match goal with
          | |- context [?a <? ?b] => destruct (N.ltb_spec a b); try divlia
          | |- context [?a <=? ?b] => destruct (N.leb_spec a b); try divlia
          | |- context [?a =? ?b] => destruct (N.eqb_spec a b); try divlia
          end; cbn [andb negb orb]; cbv beta iota).

(** One decoding step on each well-formed form. The tail is kept
    abstract while the step is unfolded. *)
Lemma decode_1 (b : byte) (r : list byte) :
  Byte.to_N b < 0x80 ->
  Utf8.decode_replace (b :: r) = Byte.to_N b :: Utf8.decode_replace r.
Proof. intros H. cbn [Utf8.decode_replace]. tests. reflexivity. Qed.

Lemma decode_2 (b b2 : byte) (r r2 : list byte) :
  r = b2 :: r2 ->
  0xC2 <= Byte.to_N b < 0xE0 ->
  0x80 <= Byte.to_N b2 < 0xC0 ->
  Utf8.decode_replace (b :: r) =
  (N.shiftl (Byte.to_N b) 6 + Byte.to_N b2 - (N.shiftl 0xC0 6 + 0x80))
    :: Utf8.decode_replace r2.
Proof.
  intros Hr H1 H2. cbn [Utf8.decode_replace]. tests.
  subst r. cbv beta iota. unfold Utf8.is_continuation. tests. reflexivity.
Qed.

Lemma decode_3 (b b2 b3 : byte) (r r2 r3 : list byte) :
  r = b2 :: r2 -> r2 = b3 :: r3 ->
  0xE0 <= Byte.to_N b < 0xF0 ->
  0x80 <= Byte.to_N b2 < 0xC0 ->
  (Byte.to_N b = 0xE0 -> 0xA0 <= Byte.to_N b2) ->
  (Byte.to_N b = 0xED -> Byte.to_N b2 < 0xA0) ->
  0x80 <= Byte.to_N b3 < 0xC0 ->
  Utf8.decode_replace (b :: r) =
  (N.shiftl (Byte.to_N b) 12 + N.shiftl (Byte.to_N b2) 6 + Byte.to_N b3
   - (N.shiftl 0xE0 12 + N.shiftl 0x80 6 + 0x80))
    :: Utf8.decode_replace r3.
Proof.
  intros Hr Hr2 H1 H2 Hlo Hhi H3. cbn [Utf8.decode_replace]. tests.
  subst r. cbv beta iota.
  unfold Utf8.bad_second3, Utf8.is_continuation.
  tests; subst r2; cbv beta iota; tests; reflexivity.
Qed.

Lemma decode_4 (b b2 b3 b4 : byte) (r r2 r3 r4 : list byte) :
  r = b2 :: r2 -> r2 = b3 :: r3 -> r3 = b4 :: r4 ->
  0xF0 <= Byte.to_N b < 0xF5 ->
  0x80 <= Byte.to_N b2 < 0xC0 ->
  (Byte.to_N b = 0xF0 -> 0x90 <= Byte.to_N b2) ->
  (Byte.to_N b = 0xF4 -> Byte.to_N b2 < 0x90) ->
  0x80 <= Byte.to_N b3 < 0xC0 ->
  0x80 <= Byte.to_N b4 < 0xC0 ->
  Utf8.decode_replace (b :: r) =
  (N.shiftl (Byte.to_N b) 18 + N.shiftl (Byte.to_N b2) 12
   + N.shiftl (Byte.to_N b3) 6 + Byte.to_N b4
   - (N.shiftl 0xF0 18 + N.shiftl 0x80 12 + N.shiftl 0x80 6 + 0x80))
    :: Utf8.decode_replace r4.
Proof.
  intros Hr Hr2 Hr3 H1 H2 Hlo Hhi H3 H4. cbn [Utf8.decode_replace]. tests.
  subst r. cbv beta iota.
  unfold Utf8.bad_second4, Utf8.is_continuation.
  tests; subst r2; cbv beta iota; tests;
    subst r3; cbv beta iota; tests; reflexivity.
Qed.

Lemma decode_encode_char (c : N) (bs rest : list byte) :
  Utf8.encode_char c = Return bs ->
  Utf8.decode_replace (bs ++ rest) = c :: Utf8.decode_replace rest.
Proof.
  unfold Utf8.encode_char.
  destruct (N.ltb_spec c 0x80) as [H1|H1];
    [|destruct (N.ltb_spec c 0x800) as [H2|H2];
      [|destruct (N.ltb_spec c 0x10000) as [H3|H3];
        [destruct (N.leb_spec 0xD800 c) as [S1|S1];
         [destruct (N.leb_spec c 0xDFFF) as [S2|S2]|]
        |destruct (N.ltb_spec c 0x110000) as [H4|H4]]]];
    cbn [andb]; intros E; try discriminate E;
    injection E as <-; cbn [app];
    rewrite ?land_63, ?shiftr_div;
    rewrite ?lor_80, ?lor_C0, ?lor_E0, ?lor_F0 by (unmask; divlia);
    unmask.
  - rewrite decode_1; rewrite to_N_byte_of_N by lia; [reflexivity | lia].
  - erewrite decode_2 by
      (try reflexivity; rewrite to_N_byte_of_N by divlia; divlia).
    f_equal. rewrite !to_N_byte_of_N, !N.shiftl_mul_pow2 by divlia.
    unmask. divlia.
  - erewrite decode_3 by
      (try reflexivity; rewrite ?to_N_byte_of_N by divlia; divlia).
    f_equal. rewrite !to_N_byte_of_N, !N.shiftl_mul_pow2 by divlia.
    unmask. divlia.
  - erewrite decode_3 by
      (try reflexivity; rewrite ?to_N_byte_of_N by divlia; divlia).
    f_equal. rewrite !to_N_byte_of_N, !N.shiftl_mul_pow2 by divlia.
    unmask. divlia.
  - erewrite decode_4 by
      (try reflexivity; rewrite ?to_N_byte_of_N by divlia; divlia).
    f_equal. rewrite !to_N_byte_of_N, !N.shiftl_mul_pow2 by divlia.
    unmask. divlia.
Qed.

(** [bytes.decode] undoes [str.encode] on every text that can be encoded. *)
Lemma decode_encode (text : list N) (bs : list byte) :
  Utf8.encode text = Return bs -> Utf8.decode_replace bs = text.
Proof.
  revert bs. induction text as [|c text IH]; intros bs.
  - cbn. now intros [= <-].
  - cbn [Utf8.encode]. destruct (Utf8.encode_char c) as [hd| |] eqn:Ec;
      cbn; try discriminate.
    destruct (Utf8.encode text) as [tl| |]; cbn; try discriminate.
    intros [= <-]. rewrite (decode_encode_char _ _ _ Ec). f_equal. now apply IH.
Qed.

(** ** The accumulation block *)

Lemma accumulate_output_other (t : tester) (parsed : frame) :
  Frame.type parsed <> "output" -> accumulate_output t parsed = Return t.
Proof.
  intros H. unfold accumulate_output.
  destruct (String.eqb_spec (Frame.type parsed) "output"); [contradiction|reflexivity].
Qed.

Lemma accumulate_output_unknown (t : tester) (parsed : frame) (tid : string) :
  Frame.type parsed = "output" ->
  target t parsed = Return tid ->
  outputs t !! tid = None ->
  accumulate_output t parsed = Return t.
Proof.
  intros Hty Htid Hnone. unfold accumulate_output.
  rewrite Hty, Htid. cbn. now rewrite Hnone.
Qed.

Lemma accumulate_output_known (t : tester) (parsed : frame) (tid data : string)
    (old : list N) (raw : list byte) :
  Frame.type parsed = "output" ->
  target t parsed = Return tid ->
  outputs t !! tid = Some old ->
  Frame.data_b64 parsed = Some data ->
  Base64.b64decode data = Return raw ->
  accumulate_output t parsed =
  Return (set_outputs (<[tid := old ++ Utf8.decode_replace raw]> (outputs t)) t).
Proof.
  intros Hty Htid Hold Hdata Hraw. unfold accumulate_output.
  rewrite Hty, Htid. cbn. rewrite Hold, Hdata. cbn. now rewrite Hraw.
Qed.

(** Whatever the frame, the block only ever extends one existing buffer:
    the open sessions and the registered keys stay as they are. *)
Lemma accumulate_output_inv (t t' : tester) (parsed : frame) :
  accumulate_output t parsed = Return t' ->
  term_ids t' = term_ids t
  /\ project t' = project t /\ workspace t' = workspace t
  /\ forall k s, outputs t !! k = Some s ->
                 exists more, outputs t' !! k = Some (s ++ more).
Proof.
  unfold accumulate_output.
  destruct (String.eqb (Frame.type parsed) "output").
  2:{ intros [= <-]. repeat split; auto. intros k s Hk. exists []. now rewrite app_nil_r. }
  destruct (target t parsed) as [tid| |]; cbn; try discriminate.
  destruct (outputs t !! tid) as [old|] eqn:Hold.
  2:{ intros [= <-]. repeat split; auto. intros k s Hk. exists []. now rewrite app_nil_r. }
  destruct (Frame.data_b64 parsed) as [data|]; cbn; try discriminate.
  destruct (Base64.b64decode data) as [raw| |]; cbn; try discriminate.
  intros [= <-]. repeat split; auto. cbn. intros k s Hk.
  destruct (decide (tid = k)) as [->|Hne].
  - rewrite lookup_insert_eq. exists (Utf8.decode_replace raw). congruence.
  - rewrite lookup_insert_ne by assumption. exists []. now rewrite app_nil_r.
Qed.

Lemma accumulate_output_dom (t t' : tester) (parsed : frame) :
  accumulate_output t parsed = Return t' ->
  forall k, outputs t' !! k = None <-> outputs t !! k = None.
Proof.
  unfold accumulate_output.
  destruct (String.eqb (Frame.type parsed) "output").
  2:{ now intros [= <-]. }
  destruct (target t parsed) as [tid| |]; cbn; try discriminate.
  destruct (outputs t !! tid) as [old|] eqn:Hold.
  2:{ now intros [= <-]. }
  destruct (Frame.data_b64 parsed) as [data|]; cbn; try discriminate.
  destruct (Base64.b64decode data) as [raw| |]; cbn; try discriminate.
  intros [= <-] k. cbn.
  destruct (decide (tid = k)) as [->|Hne].
  - rewrite lookup_insert_eq, Hold. split; discriminate.
  - now rewrite lookup_insert_ne.
Qed.

(** ** One pull *)

Lemma wait_for_recv_expired (timeout : Z) (w : world) :
  (timeout <= 0)%Z ->
  wait_for_recv timeout w =
  (None, {| clock := clock w; inbox := inbox w; sent := sent w;
            pulls := pulls w ++ [(clock w, timeout)] |}).
Proof.
  intros H. unfold wait_for_recv.
  destruct (Z.leb_spec timeout 0); [reflexivity|lia].
Qed.

Lemma wait_for_recv_deliver (timeout arrival : Z) (msg : frame)
    (rest : list (Z * frame)) (w : world) :
  inbox w = (arrival, msg) :: rest ->
  (0 < timeout)%Z -> (arrival < clock w + timeout)%Z ->
  wait_for_recv timeout w =
  (Some msg, {| clock := Z.max (clock w) arrival; inbox := rest; sent := sent w;
                pulls := pulls w ++ [(clock w, timeout)] |}).
Proof.
  intros Hin Hpos Harr. unfold wait_for_recv. rewrite Hin.
  destruct (Z.leb_spec timeout 0); [lia|].
  destruct (Z.ltb_spec arrival (clock w + timeout)); [reflexivity|lia].
Qed.

Lemma wait_for_recv_inv (timeout : Z) (w w' : world) (r : option frame) :
  wait_for_recv timeout w = (r, w') ->
  sent w' = sent w
  /\ pulls w' = pulls w ++ [(clock w, timeout)]
  /\ (clock w <= clock w' <= Z.max (clock w) (clock w + timeout))%Z
  /\ match r with
     | Some msg =>
         (0 < timeout)%Z /\ (clock w' < clock w + timeout)%Z
         /\ exists arrival, inbox w = (arrival, msg) :: inbox w'
     | None =>
         inbox w' = inbox w
         /\ clock w' = (if (timeout <=? 0)%Z then clock w else clock w + timeout)%Z
     end.
Proof.
  unfold wait_for_recv.
  destruct (Z.leb_spec timeout 0) as [Hle|Hpos].
  - intros [= <- <-]. cbn. repeat split; auto; lia.
  - destruct (inbox w) as [|[arrival msg] rest] eqn:Hin.
    + intros [= <- <-]. cbn. repeat split; auto; lia.
    + destruct (Z.ltb_spec arrival (clock w + timeout)) as [Hlt|Hge].
      * intros [= <- <-]. cbn. repeat split; eauto; lia.
      * intros [= <- <-]. cbn. repeat split; auto; lia.
Qed.

(** ** The receive loop *)

(** The codecs and the accumulation block are total. *)
Lemma a2b_base64_total (s : string) (quad_pos leftchar pads : N) (acc : list byte) :
  Base64.a2b_base64 s quad_pos leftchar pads acc <> OutOfFuel.
Proof.
  revert quad_pos leftchar pads acc.
  induction s as [|c s IH]; intros q l p acc; cbn [Base64.a2b_base64].
  - destruct (q =? 0); discriminate.
  - repeat match goal with
           | |- context [if ?b then _ else _] => destruct b
           | |- context [match ?o with Some _ => _ | None => _ end] => destruct o
           end; try discriminate; apply IH.
Qed.

Lemma accumulate_output_total (t : tester) (parsed : frame) :
  accumulate_output t parsed <> OutOfFuel.
Proof.
  unfold accumulate_output.
  destruct (String.eqb (Frame.type parsed) "output"); [|discriminate].
  assert (Ht : target t parsed <> OutOfFuel).
  { unfold target.
    destruct (Frame.term_id parsed) as [tid|]; [destruct (String.eqb tid "")|];
      destruct (term_ids t); discriminate. }
  destruct (target t parsed) as [tid|e|]; cbn; try discriminate; [|congruence].
  destruct (outputs t !! tid); [|discriminate].
  destruct (Frame.data_b64 parsed) as [s|]; cbn; [|discriminate].
  pose proof (a2b_base64_total s 0 0 0 []) as Hs.
  unfold Base64.b64decode.
  destruct (forallb Base64.is_ascii (list_ascii_of_string s)); cbn; [|discriminate].
  destruct (Base64.a2b_base64 s 0 0 0 []); cbn; try discriminate. congruence.
Qed.

(** The loop never runs out of fuel when it is given one more turn than
    there are frames in the inbox. *)
Lemma recv_until_loop_fuel (fuel : nat) (msg_type : string) (term_id : option string)
    (deadline : Z) (t : tester) (w : world) :
  (length (inbox w) < fuel)%nat ->
  (recv_until_loop fuel msg_type term_id deadline t w).1.1 <> OutOfFuel.
Proof.
  revert t w. induction fuel as [|fuel IH]; intros t w Hlen; [lia|].
  cbn [recv_until_loop].
  destruct (clock w <? deadline)%Z; [|discriminate].
  destruct (wait_for_recv (deadline - clock w) w) as [[parsed|] w'] eqn:Hpull;
    [|discriminate].
  apply wait_for_recv_inv in Hpull as (_ & _ & _ & _ & _ & arrival & Hin).
  pose proof (accumulate_output_total t parsed) as Hacc.
  destruct (accumulate_output t parsed) as [t1|e|]; [|discriminate|congruence].
  destruct (expected_frame msg_type term_id parsed); [discriminate|].
  apply IH. rewrite Hin in Hlen. cbn in Hlen. lia.
Qed.

Lemma recv_until_terminates (msg_type : string) (term_id : option string)
    (timeout : Z) (t : tester) (w : world) :
  (recv_until msg_type term_id timeout t w).1.1 <> OutOfFuel.
Proof. apply recv_until_loop_fuel. lia. Qed.

(** What the loop does to the tester: sessions and keys are fixed, and
    every buffer only grows at its end. *)
Lemma recv_until_loop_tester (fuel : nat) (msg_type : string) (term_id : option string)
    (deadline : Z) (t t' : tester) (w w' : world) (r : outcome (option frame)) :
  recv_until_loop fuel msg_type term_id deadline t w = (r, t', w') ->
  term_ids t' = term_ids t
  /\ project t' = project t /\ workspace t' = workspace t
  /\ (forall k s, outputs t !! k = Some s ->
                  exists more, outputs t' !! k = Some (s ++ more))
  /\ (forall k, outputs t' !! k = None <-> outputs t !! k = None).
Proof.
  revert t w. induction fuel as [|fuel IH]; intros t w; cbn [recv_until_loop].
  { intros [= <- <- <-]. repeat split; auto.
    intros k s Hk. exists []. now rewrite app_nil_r. }
  assert (Hsame : forall x y, (x, t, y) = (r, t', w') ->
    term_ids t' = term_ids t
    /\ project t' = project t /\ workspace t' = workspace t
    /\ (forall k s, outputs t !! k = Some s ->
                    exists more, outputs t' !! k = Some (s ++ more))
    /\ (forall k, outputs t' !! k = None <-> outputs t !! k = None)).
  { intros x y [= <- <- <-]. repeat split; auto.
    intros k s Hk. exists []. now rewrite app_nil_r. }
  destruct (clock w <? deadline)%Z; [|apply Hsame].
  destruct (wait_for_recv (deadline - clock w) w) as [[parsed|] w1]; [|apply Hsame].
  destruct (accumulate_output t parsed) as [t1|e|] eqn:Hacc; try apply Hsame.
  pose proof (accumulate_output_inv _ _ _ Hacc) as (Hids & Hpr & Hws & Hgrow).
  pose proof (accumulate_output_dom _ _ _ Hacc) as Hdom.
  destruct (expected_frame msg_type term_id parsed).
  - intros [= <- <- <-]. repeat split; auto; apply Hdom.
  - intros Hrec. apply IH in Hrec as (Hids' & Hpr' & Hws' & Hgrow' & Hdom').
    repeat split; try congruence.
    + intros k s Hk. apply Hgrow in Hk as [m1 Hk].
      apply Hgrow' in Hk as [m2 Hk]. exists (m1 ++ m2). now rewrite app_assoc.
    + intros Hk. apply Hdom, Hdom', Hk.
    + intros Hk. apply Hdom', Hdom, Hk.
Qed.

(** What the loop does to the connection: the clock never passes the
    deadline (nor goes back), nothing is sent, frames are taken from the
    front of the inbox, and every pull is made with a positive timeout
    that expires exactly at the deadline. *)
Lemma recv_until_loop_world (fuel : nat) (msg_type : string) (term_id : option string)
    (deadline : Z) (t t' : tester) (w w' : world) (r : outcome (option frame)) :
  recv_until_loop fuel msg_type term_id deadline t w = (r, t', w') ->
  (clock w <= clock w' <= Z.max (clock w) deadline)%Z
  /\ sent w' = sent w
  /\ (exists consumed, inbox w = consumed ++ inbox w')
  /\ exists new, pulls w' = pulls w ++ new
                 /\ Forall (fun p => (p.1 + p.2 = deadline /\ 0 < p.2
                                      /\ clock w <= p.1)%Z) new.
Proof.
  revert t w. induction fuel as [|fuel IH]; intros t w; cbn [recv_until_loop].
  { intros [= <- <- <-]. repeat split; try lia.
    - now exists [].
    - exists []. now rewrite app_nil_r. }
  destruct (Z.ltb_spec (clock w) deadline) as [Hlt|Hge].
  2:{ intros [= <- <- <-]. repeat split; try lia.
      - now exists [].
      - exists []. now rewrite app_nil_r. }
  destruct (wait_for_recv (deadline - clock w) w) as [o w1] eqn:Hpull.
  apply wait_for_recv_inv in Hpull as (Hsent & Hlog & Hclock & Hin).
  assert (Hone : Forall (fun p => (p.1 + p.2 = deadline /\ 0 < p.2
                                   /\ clock w <= p.1)%Z)
                   [(clock w, (deadline - clock w)%Z)]).
  { constructor; [cbn; lia | constructor]. }
  assert (Hstop : forall x y, (x, y, w1) = (r, t', w') ->
    (clock w <= clock w' <= Z.max (clock w) deadline)%Z
    /\ sent w' = sent w
    /\ (exists consumed, inbox w = consumed ++ inbox w')
    /\ exists new, pulls w' = pulls w ++ new
                   /\ Forall (fun p => (p.1 + p.2 = deadline /\ 0 < p.2
                                        /\ clock w <= p.1)%Z) new).
  { intros x y [= <- <- <-]. repeat split; try lia; auto.
    - destruct o as [msg|].
      + destruct Hin as (_ & _ & arrival & Hin). now exists [(arrival, msg)].
      + exists []. now rewrite (proj1 Hin).
    - eauto. }
  destruct o as [parsed|]; [|apply Hstop].
  destruct (accumulate_output t parsed) as [t1|e|]; try apply Hstop.
  destruct (expected_frame msg_type term_id parsed); [apply Hstop|].
  intros Hrec. apply IH in Hrec as (Hclock' & Hsent' & [c' Hin'] & new & Hlog' & Hnew).
  destruct Hin as (_ & _ & arrival & Hin).
  repeat split; try lia; try congruence.
  - exists ((arrival, parsed) :: c'). rewrite Hin, Hin'. reflexivity.
  - exists ((clock w, (deadline - clock w)%Z) :: new). split.
    + rewrite Hlog', Hlog, <- app_assoc. reflexivity.
    + constructor; [cbn; lia|].
      eapply Forall_impl; [exact Hnew|]. cbn. intros p Hp. lia.
Qed.

(** ** Frames that the wait passes over *)

(** One turn of the loop on a frame that arrives in time. *)
Lemma recv_until_loop_deliver (fuel : nat) (msg_type : string)
    (term_id : option string) (deadline arrival : Z) (parsed : frame)
    (rest : list (Z * frame)) (t t' : tester) (w : world) :
  inbox w = (arrival, parsed) :: rest ->
  (clock w < deadline)%Z -> (arrival < deadline)%Z ->
  accumulate_output t parsed = Return t' ->
  recv_until_loop (S fuel) msg_type term_id deadline t w =
  if expected_frame msg_type term_id parsed
  then (Return (Some parsed), t', pulled deadline arrival w)
  else recv_until_loop fuel msg_type term_id deadline t' (pulled deadline arrival w).
Proof.
  intros Hin Hclock Harr Hacc. cbn [recv_until_loop].
  destruct (Z.ltb_spec (clock w) deadline); [|lia].
  rewrite (wait_for_recv_deliver _ arrival parsed rest) by (auto; lia).
  rewrite Hacc. unfold pulled. now rewrite Hin.
Qed.

Lemma pulled_all_spec (deadline : Z) (pre rest : list (Z * frame)) (w : world) :
  inbox w = pre ++ rest ->
  Forall (fun x => (x.1 < deadline)%Z) pre ->
  (clock w < deadline)%Z ->
  let w' := pulled_all deadline pre.*1 w in
  inbox w' = rest /\ sent w' = sent w
  /\ (clock w <= clock w' < deadline)%Z
  /\ Forall (fun x => (x.1 <= clock w')%Z) pre
  /\ exists new, pulls w' = pulls w ++ new /\ length new = length pre
                 /\ Forall (fun p => (p.1 + p.2 = deadline /\ clock w <= p.1)%Z) new.
Proof.
  revert w. induction pre as [|[a f] pre IH]; intros w Hin Harr Hclock; cbn.
  - repeat split; auto; try lia. exists []. now rewrite app_nil_r.
  - inversion Harr as [|? ? Ha Harr']; subst. cbn in Ha.
    destruct (IH (pulled deadline a w)) as (Hin' & Hsent & Hc & Hle & new & Hlog & Hlen & Hnew);
      [cbn; now rewrite Hin | assumption | cbn; lia |].
    cbn in Hc. repeat split; auto; try lia.
    + constructor; [cbn; lia | assumption].
    + exists ((clock w, (deadline - clock w)%Z) :: new). repeat split.
      * rewrite Hlog. cbn. now rewrite <- app_assoc.
      * cbn. now rewrite Hlen.
      * constructor; [cbn; lia |].
        eapply Forall_impl; [exact Hnew|]. cbn. intros p Hp. lia.
Qed.

(** Frames that arrive in time, are accepted by the accumulation block
    and are not the expected one are consumed one turn each; the wait
    goes on from the accumulated tester. *)
Lemma recv_until_loop_prefix (msg_type : string) (term_id : option string)
    (deadline : Z) (pre rest : list (Z * frame)) (fuel : nat)
    (t t1 : tester) (w : world) :
  inbox w = pre ++ rest ->
  Forall (fun x => (x.1 < deadline)%Z) pre ->
  (clock w < deadline)%Z ->
  Forall (fun x => expected_frame msg_type term_id x.2 = false) pre ->
  accumulate_all t pre.*2 = Return t1 ->
  recv_until_loop (length pre + fuel) msg_type term_id deadline t w =
  recv_until_loop fuel msg_type term_id deadline t1 (pulled_all deadline pre.*1 w).
Proof.
  revert t w. induction pre as [|[a f] pre IH]; intros t w Hin Harr Hclock Hexp Hacc.
  - cbn in Hacc. now injection Hacc as <-.
  - inversion Harr as [|? ? Ha Harr']; subst.
    inversion Hexp as [|? ? Hf Hexp']; subst. cbn in Ha, Hf.
    cbn [accumulate_all fmap list_fmap snd] in Hacc.
    destruct (accumulate_output t f) as [t0| |] eqn:Hf0; cbn in Hacc; try discriminate.
    cbn [length Nat.add recv_until_loop].
    destruct (Z.ltb_spec (clock w) deadline); [|lia].
    rewrite (wait_for_recv_deliver _ a f (pre ++ rest)) by (auto; lia).
    rewrite Hf0, Hf.
    rewrite IH with (t := t0); auto.
    + cbn [fmap list_fmap fst pulled_all]. f_equal.
      unfold pulled. now rewrite Hin.
    + cbn. lia.
Qed.

(** C3. [recv_until] fixes the deadline [clock + timeout] once, when it
    is called, and every pull it makes, in any call, is given the time
    that remains until that deadline: the clock at the pull plus the
    timeout handed to it is always the deadline, so the timeout handed
    over is positive and never more than the original one. Hence, when
    the expected frame arrives before the deadline it is returned,
    however many other frames (arriving in time and accepted by the
    accumulation block) come first. *)
Theorem C3_recv_until_remaining_time
    (msg_type : string) (term_id : option string) (timeout : Z)
    (t : tester) (w : world) :
  (exists new,
      pulls (recv_until msg_type term_id timeout t w).2 = pulls w ++ new
      /\ Forall (fun p => (p.1 + p.2 = clock w + timeout
                           /\ clock w <= p.1 /\ 0 < p.2 <= timeout)%Z) new)
  /\ forall (t1 t2 : tester) (pre post : list (Z * frame))
            (arrival : Z) (msg : frame),
      inbox w = pre ++ (arrival, msg) :: post ->
      (0 < timeout)%Z ->
      Forall (fun x => (x.1 < clock w + timeout)%Z) pre ->
      (arrival < clock w + timeout)%Z ->
      Forall (fun x => expected_frame msg_type term_id x.2 = false) pre ->
      accumulate_all t pre.*2 = Return t1 ->
      accumulate_output t1 msg = Return t2 ->
      expected_frame msg_type term_id msg = true ->
      exists w',
        recv_until msg_type term_id timeout t w = (Return (Some msg), t2, w')
        /\ inbox w' = post
        /\ (clock w' < clock w + timeout)%Z
        /\ length (pulls w') = (length (pulls w) + S (length pre))%nat.
Proof.
  split.
  { destruct (recv_until msg_type term_id timeout t w) as [[r t'] w'] eqn:Hrec.
    apply recv_until_loop_world in Hrec as (_ & _ & _ & new & Hlog & Hnew).
    exists new. split; [exact Hlog|].
    eapply Forall_impl; [exact Hnew|]. cbn. intros p Hp. lia. }
  intros t1 t2 pre post arrival msg Hin Hpos Harr Ha Hexp Hacc Hmsg Hok.
  unfold recv_until. set (deadline := (clock w + timeout)%Z) in *.
  assert (Hclock : (clock w < deadline)%Z) by (unfold deadline; lia).
  replace (S (length (inbox w))) with (length pre + S (S (length post)))%nat
    by (rewrite Hin, length_app; cbn; lia).
  rewrite (recv_until_loop_prefix _ _ _ pre ((arrival, msg) :: post) _ t t1)
    by assumption.
  destruct (pulled_all_spec deadline pre ((arrival, msg) :: post) w Hin Harr Hclock)
    as (Hin1 & Hsent1 & Hc1 & _ & new & Hlog & Hlen & Hnew).
  set (w1 := pulled_all deadline pre.*1 w) in *.
  rewrite (recv_until_loop_deliver _ _ _ _ arrival msg post t1 t2 w1 Hin1)
    by (auto; lia).
  rewrite Hok. eexists. split; [reflexivity|]. cbn.
  repeat split; [now rewrite Hin1 | lia |].
  rewrite Hlog, !length_app, Hlen. cbn. lia.
Qed.

Lemma C3_witness :
  exists w',
    recv_until "pong" None 2000 smoke_tester pong_world
    = (Return (Some pong_frame), smoke_tester_hi, w')
    /\ inbox w' = []
    /\ (clock w' < clock pong_world + 2000)%Z
    /\ length (pulls w') = (length (pulls pong_world) + 4)%nat.
Proof.
  destruct (C3_recv_until_remaining_time "pong" None 2000 smoke_tester pong_world)
    as [_ Hfound].
  apply (Hfound smoke_tester_hi smoke_tester_hi
           [(600%Z, output_frame (Some "A") hi);
            (1200%Z, output_frame (Some "B") hi);
            (1900%Z, output_frame None hi)] [] 1950%Z pong_frame).
  - reflexivity.
  - lia.
  - repeat constructor; cbn; lia.
  - cbn; lia.
  - repeat constructor.
  - vm_compute. reflexivity.
  - vm_compute. reflexivity.
  - reflexivity.
Defined.

(** Whatever is waited for, the tester a wait leaves behind is the
    accumulation block run over every frame the wait took from the
    inbox, in order; if the block raised, it did so on the last of
    them. *)
Lemma recv_until_loop_accumulates (fuel : nat) (msg_type : string)
    (term_id : option string) (deadline : Z) (t t' : tester) (w w' : world)
    (r : outcome (option frame)) :
  recv_until_loop fuel msg_type term_id deadline t w = (r, t', w') ->
  exists consumed,
    inbox w = consumed ++ inbox w'
    /\ match r with
       | Return _ => accumulate_all t consumed.*2 = Return t'
       | Raise e =>
           exists pre last,
             consumed = pre ++ [last]
             /\ accumulate_all t pre.*2 = Return t'
             /\ accumulate_output t' last.2 = Raise e
       | OutOfFuel => True
       end.
Proof.
  revert t w. induction fuel as [|fuel IH]; intros t w; cbn [recv_until_loop].
  { intros [= <- <- <-]. now exists []. }
  destruct (clock w <? deadline)%Z.
  2:{ intros [= <- <- <-]. now exists []. }
  destruct (wait_for_recv (deadline - clock w) w) as [[parsed|] w1] eqn:Hpull;
    apply wait_for_recv_inv in Hpull as (_ & _ & _ & Hin).
  2:{ intros [= <- <- <-]. exists []. now rewrite (proj1 Hin). }
  destruct Hin as (_ & _ & arrival & Hin).
  destruct (accumulate_output t parsed) as [t1|e|] eqn:Hacc.
  - destruct (expected_frame msg_type term_id parsed).
    + intros [= <- <- <-]. exists [(arrival, parsed)]. split; [exact Hin|].
      cbn. now rewrite Hacc.
    + intros Hrec. apply IH in Hrec as (consumed & Hin' & Hres).
      exists ((arrival, parsed) :: consumed). split.
      * rewrite Hin, Hin'. reflexivity.
      * destruct r as [o|e|]; [| |exact I].
        -- cbn. now rewrite Hacc.
        -- destruct Hres as (pre & last & -> & Hpre & Hlast).
           exists ((arrival, parsed) :: pre), last. split; [reflexivity|].
           split; [|exact Hlast]. cbn. now rewrite Hacc.
  - intros [= <- <- <-]. exists [(arrival, parsed)]. split; [exact Hin|].
    exists [], (arrival, parsed). now repeat split.
  - intros [= <- <- <-]. exists [(arrival, parsed)]. now split.
Qed.

(** C6 (as amended). During a wait every pulled frame goes through the
    accumulation block before the test for the expected frame is made,
    and whatever that test says: the tester the wait leaves behind is
    the block run over all the frames it took, in order (up to the
    frame on which the block raises, when the wait ends so). So the
    text of a pulled output frame is in its session's buffer once the
    wait is over, also when the frame was of another kind or session
    than the one waited for and the wait went on to later frames,
    provided that its session is registered and its payload decodes.
    The output frame of a session that is not registered is taken from
    the connection all the same, and is in no buffer afterwards. *)
Theorem C6_unrelated_output_kept_when_registered
    (msg_type : string) (term_id : option string) (timeout : Z)
    (t : tester) (w : world) :
  (forall (r : outcome (option frame)) (t' : tester) (w' : world),
      recv_until msg_type term_id timeout t w = (r, t', w') ->
      exists consumed,
        inbox w = consumed ++ inbox w'
        /\ match r with
           | Return _ => accumulate_all t consumed.*2 = Return t'
           | Raise e =>
               exists pre last,
                 consumed = pre ++ [last]
                 /\ accumulate_all t pre.*2 = Return t'
                 /\ accumulate_output t' last.2 = Raise e
           | OutOfFuel => False
           end)
  /\ (forall (t1 : tester) (pre post : list (Z * frame)) (arrival : Z)
             (parsed : frame) (tid data : string) (old : list N) (raw : list byte),
      inbox w = pre ++ (arrival, parsed) :: post ->
      (0 < timeout)%Z ->
      Forall (fun x => (x.1 < clock w + timeout)%Z) pre ->
      (arrival < clock w + timeout)%Z ->
      Forall (fun x => expected_frame msg_type term_id x.2 = false) pre ->
      accumulate_all t pre.*2 = Return t1 ->
      Frame.type parsed = "output" ->
      target t1 parsed = Return tid ->
      outputs t1 !! tid = Some old ->
      Frame.data_b64 parsed = Some data ->
      Base64.b64decode data = Return raw ->
      exists r t' w' more,
        recv_until msg_type term_id timeout t w = (r, t', w')
        /\ r <> OutOfFuel
        /\ outputs t' !! tid = Some (old ++ Utf8.decode_replace raw ++ more)
        /\ (expected_frame msg_type term_id parsed = true -> r = Return (Some parsed)))
  /\ forall (t1 : tester) (pre post : list (Z * frame)) (arrival : Z)
            (parsed : frame) (tid : string),
      inbox w = pre ++ (arrival, parsed) :: post ->
      (0 < timeout)%Z ->
      Forall (fun x => (x.1 < clock w + timeout)%Z) pre ->
      (arrival < clock w + timeout)%Z ->
      Forall (fun x => expected_frame msg_type term_id x.2 = false) pre ->
      accumulate_all t pre.*2 = Return t1 ->
      Frame.type parsed = "output" ->
      target t1 parsed = Return tid ->
      outputs t1 !! tid = None ->
      exists r t' w' taken,
        recv_until msg_type term_id timeout t w = (r, t', w')
        /\ r <> OutOfFuel
        /\ accumulate_output t1 parsed = Return t1
        /\ post = taken ++ inbox w'
        /\ outputs t' !! tid = None
        /\ (expected_frame msg_type term_id parsed = true -> r = Return (Some parsed)).
Proof.
  split; [|split].
  { intros r t' w' Hrec.
    pose proof (recv_until_terminates msg_type term_id timeout t w) as Hterm.
    rewrite Hrec in Hterm. cbn in Hterm.
    apply recv_until_loop_accumulates in Hrec as (consumed & Hin & Hres).
    exists consumed. split; [exact Hin|].
    destruct r as [o|e|]; [exact Hres|exact Hres|congruence]. }
  { intros t1 pre post arrival parsed tid data old raw.
    intros Hin Hpos Harr Ha Hexp Hacc Hty Htid Hold Hdata Hraw.
    pose proof (recv_until_terminates msg_type term_id timeout t w) as Hterm.
    unfold recv_until in *. set (deadline := (clock w + timeout)%Z) in *.
    assert (Hclock : (clock w < deadline)%Z) by (unfold deadline; lia).
    replace (S (length (inbox w))) with (length pre + S (S (length post)))%nat in *
      by (rewrite Hin, length_app; cbn; lia).
    rewrite (recv_until_loop_prefix _ _ _ pre ((arrival, parsed) :: post) _ t t1) in *
      by assumption.
    destruct (pulled_all_spec deadline pre ((arrival, parsed) :: post) w Hin Harr Hclock)
      as (Hin1 & _ & Hc1 & _).
    set (w1 := pulled_all deadline pre.*1 w) in *.
    pose proof (accumulate_output_known t1 parsed tid data old raw
                  Hty Htid Hold Hdata Hraw) as Hstep.
    assert (Hturn := recv_until_loop_deliver (S (length post)) msg_type term_id
                        deadline arrival parsed post t1 _ w1 Hin1
                        (proj2 Hc1) Ha Hstep).
    rewrite Hturn in Hterm |- *. clear Hturn.
    destruct (expected_frame msg_type term_id parsed).
    - eexists _, _, _, []. split; [reflexivity|]. split; [discriminate|].
      split; [|reflexivity].
      cbn. rewrite lookup_insert_eq. now rewrite app_nil_r.
    - destruct (recv_until_loop (S (length post)) msg_type term_id deadline _ _)
        as [[r t'] w'] eqn:Hrec.
      apply recv_until_loop_tester in Hrec as (_ & _ & _ & Hgrow & _).
      destruct (Hgrow tid (old ++ Utf8.decode_replace raw)) as [more Hmore].
      { cbn. apply lookup_insert_eq. }
      exists r, t', w', more. split; [reflexivity|]. split; [exact Hterm|].
      split; [|discriminate]. now rewrite <- app_assoc in Hmore. }
  intros t1 pre post arrival parsed tid.
  intros Hin Hpos Harr Ha Hexp Hacc Hty Htid Hnone.
  pose proof (recv_until_terminates msg_type term_id timeout t w) as Hterm.
  unfold recv_until in *. set (deadline := (clock w + timeout)%Z) in *.
  assert (Hclock : (clock w < deadline)%Z) by (unfold deadline; lia).
  replace (S (length (inbox w))) with (length pre + S (S (length post)))%nat in *
    by (rewrite Hin, length_app; cbn; lia).
  rewrite (recv_until_loop_prefix _ _ _ pre ((arrival, parsed) :: post) _ t t1) in *
    by assumption.
  destruct (pulled_all_spec deadline pre ((arrival, parsed) :: post) w Hin Harr Hclock)
    as (Hin1 & _ & Hc1 & _).
  set (w1 := pulled_all deadline pre.*1 w) in *.
  pose proof (accumulate_output_unknown t1 parsed tid Hty Htid Hnone) as Hstep.
  assert (Hturn := recv_until_loop_deliver (S (length post)) msg_type term_id
                      deadline arrival parsed post t1 _ w1 Hin1
                      (proj2 Hc1) Ha Hstep).
  rewrite Hturn in Hterm |- *. clear Hturn.
  destruct (expected_frame msg_type term_id parsed).
  - eexists _, _, _, []. split; [reflexivity|]. split; [discriminate|].
    split; [exact Hstep|]. split; [cbn; now rewrite Hin1|].
    split; [exact Hnone|reflexivity].
  - destruct (recv_until_loop (S (length post)) msg_type term_id deadline _ _)
      as [[r t'] w'] eqn:Hrec.
    pose proof Hrec as Hworld.
    apply recv_until_loop_tester in Hrec as (_ & _ & _ & _ & Hdom).
    apply recv_until_loop_world in Hworld as (_ & _ & (taken & Htaken) & _).
    exists r, t', w', taken. split; [reflexivity|]. split; [exact Hterm|].
    split; [exact Hstep|]. split.
    + cbn in Htaken. now rewrite Hin1 in Htaken.
    + split; [now apply Hdom | discriminate].
Qed.

Lemma C6_witness :
  (exists r t' w' more,
      recv_until "pong" None 2000 smoke_tester pong_world = (r, t', w')
      /\ r <> OutOfFuel
      /\ outputs t' !! "B" = Some ([] ++ Utf8.decode_replace hi ++ more)
      /\ (expected_frame "pong" None (output_frame (Some "B") hi) = true ->
          r = Return (Some (output_frame (Some "B") hi))))
  /\ exists r t' w' taken,
      recv_until "pong" None 2000 smoke_tester
        {| clock := 0;
           inbox := [(600%Z, output_frame (Some "A") hi);
                     (1200%Z, output_frame (Some "C") hi);
                     (1950%Z, pong_frame)];
           sent := []; pulls := [] |} = (r, t', w')
      /\ r <> OutOfFuel
      /\ accumulate_output (append_output "A" (text_of_string "hi") smoke_tester)
           (output_frame (Some "C") hi)
         = Return (append_output "A" (text_of_string "hi") smoke_tester)
      /\ [(1950%Z, pong_frame)] = taken ++ inbox w'
      /\ outputs t' !! "C" = None
      /\ (expected_frame "pong" None (output_frame (Some "C") hi) = true ->
          r = Return (Some (output_frame (Some "C") hi))).
Proof.
  split.
  - destruct (C6_unrelated_output_kept_when_registered "pong" None 2000
                smoke_tester pong_world) as (_ & Hkept & _).
    apply (Hkept (append_output "A" (text_of_string "hi") smoke_tester)
             [(600%Z, output_frame (Some "A") hi)]
             [(1900%Z, output_frame None hi); (1950%Z, pong_frame)]
             1200%Z (output_frame (Some "B") hi) "B" (Base64.b64encode hi) [] hi).
    + reflexivity.
    + lia.
    + repeat constructor; cbn; lia.
    + cbn; lia.
    + repeat constructor.
    + vm_compute. reflexivity.
    + reflexivity.
    + reflexivity.
    + reflexivity.
    + reflexivity.
    + apply b64decode_b64encode.
  - destruct (C6_unrelated_output_kept_when_registered "pong" None 2000
                smoke_tester
                {| clock := 0;
                   inbox := [(600%Z, output_frame (Some "A") hi);
                             (1200%Z, output_frame (Some "C") hi);
                             (1950%Z, pong_frame)];
                   sent := []; pulls := [] |}) as (_ & _ & Hlost).
    apply (Hlost (append_output "A" (text_of_string "hi") smoke_tester)
             [(600%Z, output_frame (Some "A") hi)]
             [(1950%Z, pong_frame)]
             1200%Z (output_frame (Some "C") hi) "C").
    + reflexivity.
    + lia.
    + repeat constructor; cbn; lia.
    + cbn; lia.
    + repeat constructor.
    + vm_compute. reflexivity.
    + reflexivity.
    + reflexivity.
    + vm_compute. reflexivity.
Defined.

(** C6 fails as stated: while [pong] is waited for, an output frame of
    the session [C], which is not registered, is pulled and discarded by
    the test for the expected frame. The wait returns the [pong] with
    the tester as it was: no buffer for [C] exists and the two buffers
    there are hold nothing, so the frame's text is lost. *)
Lemma C6_counterexample :
  let w := {| clock := 0;
              inbox := [(10%Z, output_frame (Some "C") hi); (20%Z, pong_frame)];
              sent := []; pulls := [] |} in
  let run := recv_until "pong" None 2000 smoke_tester w in
  run.1.1 = Return (Some pong_frame)
  /\ run.1.2 = smoke_tester
  /\ inbox run.2 = []
  /\ outputs run.1.2 !! "C" = None
  /\ outputs run.1.2 !! "A" = Some []
  /\ outputs run.1.2 !! "B" = Some []
  /\ Utf8.decode_replace hi <> [].
Proof. vm_compute. repeat split; discriminate. Qed.

(** C8. When no time remains at the point where a pull would be made
    (the entry of the loop, on every turn), [recv_until] returns [None]
    at once and leaves the connection exactly as it was: no frame is
    read and no pull is made. Should [asyncio.wait_for] nevertheless be
    given such a budget, it times out without taking a frame. And no wait
    lets the clock pass its deadline. *)
Theorem C8_no_time_left_no_read
    (msg_type : string) (term_id : option string) (fuel : nat)
    (deadline : Z) (t : tester) (w : world) :
  (deadline - clock w <= 0)%Z ->
  recv_until_loop (S fuel) msg_type term_id deadline t w = (Return None, t, w)
  /\ recv_until msg_type term_id (deadline - clock w) t w = (Return None, t, w)
  /\ (wait_for_recv (deadline - clock w) w).1 = None
  /\ inbox (wait_for_recv (deadline - clock w) w).2 = inbox w
  /\ clock (wait_for_recv (deadline - clock w) w).2 = clock w
  /\ forall timeout,
      (recv_until msg_type term_id timeout t w).1.1 <> OutOfFuel
      /\ (clock (recv_until msg_type term_id timeout t w).2
          <= Z.max (clock w) (clock w + timeout))%Z.
Proof.
  intros Hrem. repeat split.
  - cbn [recv_until_loop]. destruct (Z.ltb_spec (clock w) deadline); [lia|reflexivity].
  - unfold recv_until. cbn [recv_until_loop].
    destruct (Z.ltb_spec (clock w) (clock w + (deadline - clock w))); [lia|reflexivity].
  - now rewrite wait_for_recv_expired.
  - now rewrite wait_for_recv_expired.
  - now rewrite wait_for_recv_expired.
  - apply recv_until_terminates.
  - destruct (recv_until msg_type term_id timeout t w) as [[r t'] w'] eqn:Hrec.
    apply recv_until_loop_world in Hrec. cbn. lia.
Qed.

Lemma C8_witness :
  let w := set_clock 2000 pong_world in
  recv_until_loop 5 "pong" None 2000 smoke_tester w = (Return None, smoke_tester, w)
  /\ recv_until "pong" None (2000 - clock w) smoke_tester w = (Return None, smoke_tester, w)
  /\ (wait_for_recv (2000 - clock w) w).1 = None
  /\ inbox (wait_for_recv (2000 - clock w) w).2 = inbox w
  /\ clock (wait_for_recv (2000 - clock w) w).2 = clock w
  /\ forall timeout,
      (recv_until "pong" None timeout smoke_tester w).1.1 <> OutOfFuel
      /\ (clock (recv_until "pong" None timeout smoke_tester w).2
          <= Z.max (clock w) (clock w + timeout))%Z.
Proof.
  apply (C8_no_time_left_no_read "pong" None 4 2000 smoke_tester
           (set_clock 2000 pong_world)).
  cbn. lia.
Defined.

(** C9. The isolation check reads the two accumulated buffers and
    nothing else: two states that agree on the buffers of [term1] and
    [term2] get the same four containment facts and the same verdict (or
    the same [KeyError]), the check leaves the tester and the connection
    untouched, and running it again on what it left gives the same
    answer. The verdict is [term1_has_A and not term1_has_B and
    term2_has_B and not term2_has_A]. *)
Theorem C9_isolation_check_is_pure
    (term1 term2 : string) (t t2 : tester) (w w2 : world) :
  outputs t !! term1 = outputs t2 !! term1 ->
  outputs t !! term2 = outputs t2 !! term2 ->
  let run := verify_isolation term1 term2 t w in
  run.1.1 = (verify_isolation term1 term2 t2 w2).1.1
  /\ run.1.2 = t /\ run.2 = w
  /\ verify_isolation term1 term2 run.1.2 run.2 = run
  /\ forall c verdict,
      run.1.1 = Return (c, verdict) ->
      verdict = (term1_has_A c && negb (term1_has_B c)
                 && term2_has_B c && negb (term2_has_A c))%bool
      /\ exists out1 out2,
          outputs t !! term1 = Some out1 /\ outputs t !! term2 = Some out2
          /\ term1_has_A c = contains MARKER_A out1
          /\ term1_has_B c = contains MARKER_B out1
          /\ term2_has_A c = contains MARKER_A out2
          /\ term2_has_B c = contains MARKER_B out2.
Proof.
  intros H1 H2. cbn zeta. unfold verify_isolation, outputs_at. cbn [fst snd].
  rewrite <- H1, <- H2. repeat split.
  - destruct (outputs t !! term1) as [out1|]; cbn in H; [|discriminate].
    destruct (outputs t !! term2) as [out2|]; cbn in H; [|discriminate].
    now injection H as <- <-.
  - destruct (outputs t !! term1) as [out1|]; cbn in H; [|discriminate].
    destruct (outputs t !! term2) as [out2|]; cbn in H; [|discriminate].
    injection H as <- <-. exists out1, out2. now repeat split.
Qed.

Lemma C9_witness :
  let run := verify_isolation "A" "B" settled_tester pong_world in
  run.1.1 = (verify_isolation "A" "B" (set_term_ids [] settled_tester)
               (set_clock 9000 pong_world)).1.1
  /\ run.1.2 = settled_tester /\ run.2 = pong_world
  /\ verify_isolation "A" "B" run.1.2 run.2 = run
  /\ forall c verdict,
      run.1.1 = Return (c, verdict) ->
      verdict = (term1_has_A c && negb (term1_has_B c)
                 && term2_has_B c && negb (term2_has_A c))%bool
      /\ exists out1 out2,
          outputs settled_tester !! "A" = Some out1
          /\ outputs settled_tester !! "B" = Some out2
          /\ term1_has_A c = contains MARKER_A out1
          /\ term1_has_B c = contains MARKER_B out1
          /\ term2_has_A c = contains MARKER_A out2
          /\ term2_has_B c = contains MARKER_B out2.
Proof.
  apply (C9_isolation_check_is_pure "A" "B" settled_tester
           (set_term_ids [] settled_tester) pong_world (set_clock 9000 pong_world));
    reflexivity.
Defined.

(** C10. When the expected text is already in the session's buffer
    ([self.outputs.get(term_id, "")]) and the timeout is positive,
    [wait_for_output] returns [True] on its first turn: the connection is
    left as it was, no frame is taken and no pull is made. *)
Theorem C10_wait_for_output_already_buffered
    (term_id : string) (expected : list N) (timeout : Z) (t : tester) (w : world) :
  (0 < timeout)%Z ->
  contains expected (default [] (outputs t !! term_id)) = true ->
  wait_for_output term_id expected timeout t w = (Return true, t, w).
Proof.
  intros Hpos Hin. unfold wait_for_output. cbn [wait_for_output_loop].
  destruct (Z.ltb_spec (clock w) (clock w + timeout)); [|lia].
  now rewrite Hin.
Qed.

Lemma C10_witness :
  wait_for_output "A" MARKER_A 5000 settled_tester pong_world
  = (Return true, settled_tester, pong_world).
Proof.
  apply C10_wait_for_output_already_buffered; [lia | vm_compute; reflexivity].
Defined.

(** C5. When the acknowledgment of the workspace selection is received
    and carries the session id [S1], the registry is replaced by the one
    session [S1] with an empty buffer: [S1] is registered, and every
    other id, the former default [S0] included, is registered no more. *)
Theorem C5_select_workspace_replaces_default
    (t t' : tester) (w w' : world) (msg : frame) (S0 S1 : string) :
  recv_until "selected_workspace" None TIMEOUT t
    (send (select_workspace (project t) (workspace t)) w)
  = (Return (Some msg), t', w') ->
  Frame.session_id msg = Some S1 ->
  S1 <> S0 ->
  exists t2,
    main_select_workspace t w = (Return (), t2, w')
    /\ term_ids t2 = [S1]
    /\ outputs t2 !! S1 = Some []
    /\ outputs t2 !! S0 = None
    /\ S0 ∉ term_ids t2.
Proof.
  intros Hack Hsid Hne. unfold main_select_workspace. rewrite Hack, Hsid.
  eexists. split; [reflexivity|]. cbn. repeat split.
  - apply lookup_singleton_eq.
  - now apply lookup_singleton_ne.
  - intros Hin. apply list_elem_of_singleton in Hin. congruence.
Qed.

Lemma C5_witness :
  exists t2,
    main_select_workspace connected_tester select_world
    = (Return (), t2,
       {| clock := 30; inbox := [];
          sent := [select_workspace (Some "demo") (Some "main")];
          pulls := [(0%Z, 10000%Z); (10%Z, 9990%Z)] |})
    /\ term_ids t2 = ["S1"]
    /\ outputs t2 !! "S1" = Some []
    /\ outputs t2 !! "S0" = None
    /\ "S0" ∉ term_ids t2.
Proof.
  apply (C5_select_workspace_replaces_default connected_tester
           (append_output "S0" (text_of_string "hi") connected_tester)
           select_world _ selected_workspace_frame "S0" "S1").
  - vm_compute. reflexivity.
  - reflexivity.
  - discriminate.
Defined.

(** ** Closing a session *)

Lemma list_remove_absent (x : string) (l : list string) :
  x ∉ l -> list_remove x l = Raise ValueError.
Proof.
  induction l as [|y l IH]; intros Hx; cbn; [reflexivity|].
  destruct (String.eqb_spec y x) as [->|Hne].
  - exfalso. apply Hx. left.
  - rewrite IH; [reflexivity|]. intros Hin. apply Hx. now right.
Qed.

(** Without an acknowledgment for this id, [close_terminal] answers
    [False] and the open sessions stay as they are. *)
Lemma close_terminal_unacknowledged (term_id : string) (t t' : tester)
    (w w' : world) (r : option frame) :
  recv_until "term_closed" None TIMEOUT t (send (term_close term_id) w)
  = (Return r, t', w') ->
  (forall msg, r = Some msg -> Frame.term_id msg <> Some term_id) ->
  close_terminal term_id t w = (Return false, t', w')
  /\ term_ids t' = term_ids t.
Proof.
  intros Hrecv Hother. unfold close_terminal. rewrite Hrecv.
  apply recv_until_loop_tester in Hrecv as (Hids & _).
  split; [|exact Hids].
  destruct r as [msg|]; [|reflexivity].
  destruct (bool_decide_reflect (Frame.term_id msg = Some term_id)) as [Heq|_];
    [|reflexivity].
  now destruct (Hother msg eq_refl).
Qed.

(** C7. Closing an id that is no longer open does not always give a
    failure result: when the peer acknowledges the close of an id that is
    not among the open sessions, [self.term_ids.remove(term_id)] raises
    [ValueError] out of [close_terminal] instead of the call returning
    [False]. *)
Theorem C7_close_of_closed_session_raises
    (term_id : string) (t t' : tester) (w w' : world) (msg : frame) :
  recv_until "term_closed" None TIMEOUT t (send (term_close term_id) w)
  = (Return (Some msg), t', w') ->
  Frame.term_id msg = Some term_id ->
  term_id ∉ term_ids t ->
  close_terminal term_id t w = (Raise ValueError, t', w').
Proof.
  intros Hrecv Hid Hclosed. unfold close_terminal. rewrite Hrecv.
  apply recv_until_loop_tester in Hrecv as (Hids & _).
  rewrite bool_decide_eq_true_2 by assumption.
  rewrite list_remove_absent; [reflexivity|]. now rewrite Hids.
Qed.

Lemma C7_witness :
  let first := close_terminal "S1" closing_tester closing_world in
  first.1.1 = Return true
  /\ term_ids first.1.2 = ["S2"]
  /\ (close_terminal "S1" first.1.2 first.2).1.1 = Raise ValueError.
Proof.
  cbn zeta. split; [vm_compute; reflexivity|]. split; [vm_compute; reflexivity|].
  erewrite (C7_close_of_closed_session_raises "S1" _ _ _ _ (term_closed_frame "S1")).
  - reflexivity.
  - vm_compute. reflexivity.
  - reflexivity.
  - vm_compute. intros Hin. apply list_elem_of_singleton in Hin. discriminate.
Defined.

(** ** Attribution of output frames *)

Lemma target_carried (t : tester) (parsed : frame) (tid : string) :
  Frame.term_id parsed = Some tid -> tid <> "" -> target t parsed = Return tid.
Proof.
  intros Hid Hne. unfold target. rewrite Hid.
  destruct (String.eqb_spec tid ""); [contradiction|reflexivity].
Qed.

Lemma target_default (t : tester) (parsed : frame) (tid : string) (rest : list string) :
  Frame.term_id parsed = None \/ Frame.term_id parsed = Some "" ->
  term_ids t = tid :: rest ->
  target t parsed = Return tid.
Proof. intros [Hid|Hid] Hids; unfold target; now rewrite Hid, Hids. Qed.

(** C1 (as amended). The base64 layer is exact: decoding the encoded
    payload gives back the bytes [b], whatever they are. What is added to
    the buffer of the (registered) session is not [b] but the text
    [b.decode("utf-8", errors="replace")]. Encoding that text gives [b]
    back exactly when [b] is the UTF-8 encoding of some text, and not
    otherwise. The payloads that [send_input] builds are such encodings:
    one of them, coming back in an output frame, adds exactly the text
    that was sent. *)
Theorem C1_payload_round_trip
    (b : list byte) (text : list N) (raw : list byte)
    (t : tester) (tid : string) (old : list N) (w : world) :
  tid <> "" ->
  outputs t !! tid = Some old ->
  Utf8.encode text = Return raw ->
  Base64.b64decode (Base64.b64encode b) = Return b
  /\ accumulate_output t (output_frame (Some tid) b)
     = Return (set_outputs (<[tid := old ++ Utf8.decode_replace b]> (outputs t)) t)
  /\ (Utf8.encode (Utf8.decode_replace b) = Return b
      <-> exists source, Utf8.encode source = Return b)
  /\ send_input tid text t w
     = (Return (), t, send (input tid (Base64.b64encode raw)) w)
  /\ accumulate_output t (output_frame (Some tid) raw)
     = Return (set_outputs (<[tid := old ++ text]> (outputs t)) t).
Proof.
  intros Hne Hold Henc.
  assert (Hadd : forall s, accumulate_output t (output_frame (Some tid) s)
     = Return (set_outputs (<[tid := old ++ Utf8.decode_replace s]> (outputs t)) t)).
  { intros s.
    apply (accumulate_output_known t _ tid (Base64.b64encode s) old s);
      auto using b64decode_b64encode.
    now apply target_carried. }
  split; [apply b64decode_b64encode|]. split; [apply Hadd|]. split; [|split].
  - split.
    + intros Hback. now exists (Utf8.decode_replace b).
    + intros [source Hsource].
      now rewrite (decode_encode source b Hsource).
  - unfold send_input. now rewrite Henc.
  - rewrite Hadd. now rewrite (decode_encode text raw Henc).
Qed.

Lemma C1_witness :
  Base64.b64decode (Base64.b64encode [xff; x00; x80]) = Return [xff; x00; x80]
  /\ accumulate_output smoke_tester (output_frame (Some "A") [xff; x00; x80])
     = Return (set_outputs
                 (<["A" := [] ++ Utf8.decode_replace [xff; x00; x80]]>
                    (outputs smoke_tester)) smoke_tester)
  /\ (Utf8.encode (Utf8.decode_replace [xff; x00; x80]) = Return [xff; x00; x80]
      <-> exists source, Utf8.encode source = Return [xff; x00; x80])
  /\ send_input "A" hello_text smoke_tester pong_world
     = (Return (), smoke_tester,
        send (input "A" (Base64.b64encode hello_bytes)) pong_world)
  /\ accumulate_output smoke_tester (output_frame (Some "A") hello_bytes)
     = Return (set_outputs (<["A" := [] ++ hello_text]> (outputs smoke_tester))
                 smoke_tester).
Proof.
  apply (C1_payload_round_trip [xff; x00; x80] hello_text hello_bytes
           smoke_tester "A" [] pong_world).
  - discriminate.
  - reflexivity.
  - vm_compute. reflexivity.
Defined.

(** C1 fails as stated: the byte [0xFF] and the byte [0xFE] are both
    added to the buffer as the one character U+FFFD, so the buffer does
    not hold the original bytes (and does not determine them). *)
Lemma C1_counterexample :
  exists t',
    accumulate_output smoke_tester (output_frame (Some "A") [xff]) = Return t'
    /\ accumulate_output smoke_tester (output_frame (Some "A") [xfe]) = Return t'
    /\ outputs t' !! "A" = Some [0xFFFD]
    /\ map Byte.to_N [xff] <> [0xFFFD]
    /\ Utf8.encode [0xFFFD] = Return [xef; xbf; xbd].
Proof.
  eexists. split; [vm_compute; reflexivity|].
  split; [vm_compute; reflexivity|].
  split; [vm_compute; reflexivity|].
  split; [discriminate | vm_compute; reflexivity].
Qed.

(** C2 (as amended). The decoded payload of an output frame is added to
    the buffer of its session only when that session is already a key of
    [self.outputs]. When it is not, nothing is created and the tester is
    left as it was: the output is dropped. No wait ever adds or removes a
    key. *)
Theorem C2_output_kept_only_for_registered_sessions
    (t : tester) (parsed : frame) (tid : string) :
  Frame.type parsed = "output" ->
  target t parsed = Return tid ->
  (outputs t !! tid = None -> accumulate_output t parsed = Return t)
  /\ (forall old data raw,
        outputs t !! tid = Some old ->
        Frame.data_b64 parsed = Some data ->
        Base64.b64decode data = Return raw ->
        accumulate_output t parsed
        = Return (set_outputs (<[tid := old ++ Utf8.decode_replace raw]> (outputs t)) t))
  /\ forall msg_type term_id timeout w k,
      outputs (recv_until msg_type term_id timeout t w).1.2 !! k = None
      <-> outputs t !! k = None.
Proof.
  intros Hty Htid. split; [|split].
  - now apply accumulate_output_unknown.
  - intros old data raw. now apply accumulate_output_known.
  - intros msg_type term_id timeout w k.
    destruct (recv_until msg_type term_id timeout t w) as [[r t'] w'] eqn:Hrec.
    apply recv_until_loop_tester in Hrec as (_ & _ & _ & _ & Hdom). apply Hdom.
Qed.

Lemma C2_witness :
  accumulate_output smoke_tester (output_frame (Some "C") hi) = Return smoke_tester
  /\ accumulate_output smoke_tester (output_frame (Some "A") hi)
     = Return (set_outputs (<["A" := [] ++ Utf8.decode_replace hi]>
                              (outputs smoke_tester)) smoke_tester).
Proof.
  split.
  - apply (C2_output_kept_only_for_registered_sessions smoke_tester
             (output_frame (Some "C") hi) "C" eq_refl eq_refl). reflexivity.
  - apply (C2_output_kept_only_for_registered_sessions smoke_tester
             (output_frame (Some "A") hi) "A" eq_refl eq_refl)
      with (data := Base64.b64encode hi).
    + reflexivity.
    + reflexivity.
    + apply b64decode_b64encode.
Defined.

(** C2 fails as stated: an output frame for the unknown session [C] is
    pulled and even returned by the wait, yet no buffer is created for
    [C] and the tester is unchanged, so its bytes are lost. *)
Lemma C2_counterexample :
  let w := {| clock := 0; inbox := [(10%Z, output_frame (Some "C") hi)];
              sent := []; pulls := [] |} in
  let run := recv_until "output" None 200 smoke_tester w in
  run.1.1 = Return (Some (output_frame (Some "C") hi))
  /\ run.1.2 = smoke_tester
  /\ outputs run.1.2 !! "C" = None
  /\ inbox run.2 = [].
Proof. vm_compute. repeat split. Qed.

(** C4 (as amended). An output frame is attributed to the session id it
    carries when that id is not the empty string, and otherwise (no id,
    or an empty one) to the first open session. Its decoded text is
    added at the end of that session's buffer if the session is
    registered, and every other buffer is left as it was. *)
Theorem C4_output_attribution
    (t : tester) (parsed : frame) (tid data : string) (raw : list byte) :
  Frame.type parsed = "output" ->
  (Frame.term_id parsed = Some tid /\ tid <> "")
  \/ ((Frame.term_id parsed = None \/ Frame.term_id parsed = Some "")
      /\ head (term_ids t) = Some tid) ->
  Frame.data_b64 parsed = Some data ->
  Base64.b64decode data = Return raw ->
  exists t',
    accumulate_output t parsed = Return t'
    /\ outputs t' !! tid
       = (fun old => old ++ Utf8.decode_replace raw) <$> outputs t !! tid
    /\ (forall k, k <> tid -> outputs t' !! k = outputs t !! k)
    /\ term_ids t' = term_ids t.
Proof.
  intros Hty Hwho Hdata Hraw.
  assert (Htid : target t parsed = Return tid).
  { destruct Hwho as [[Hid Hne]|[Hid Hhd]].
    - now apply target_carried.
    - destruct (term_ids t) as [|d rest] eqn:Hids; [discriminate|].
      injection Hhd as ->. now apply (target_default t parsed tid rest). }
  destruct (outputs t !! tid) as [old|] eqn:Hold.
  - eexists. split; [now apply (accumulate_output_known t parsed tid data old raw)|].
    cbn. repeat split.
    + apply lookup_insert_eq.
    + intros k Hk. now apply lookup_insert_ne.
  - exists t. split; [now apply (accumulate_output_unknown t parsed tid)|].
    cbn. now rewrite Hold.
Qed.

Lemma C4_witness :
  (exists t',
     accumulate_output smoke_tester (output_frame (Some "B") hi) = Return t'
     /\ outputs t' !! "B"
        = (fun old => old ++ Utf8.decode_replace hi) <$> outputs smoke_tester !! "B"
     /\ (forall k, k <> "B" -> outputs t' !! k = outputs smoke_tester !! k)
     /\ term_ids t' = term_ids smoke_tester)
  /\ (exists t',
        accumulate_output smoke_tester (output_frame None hi) = Return t'
        /\ outputs t' !! "A"
           = (fun old => old ++ Utf8.decode_replace hi) <$> outputs smoke_tester !! "A"
        /\ (forall k, k <> "A" -> outputs t' !! k = outputs smoke_tester !! k)
        /\ term_ids t' = term_ids smoke_tester).
Proof.
  split.
  - apply (C4_output_attribution smoke_tester (output_frame (Some "B") hi) "B"
             (Base64.b64encode hi) hi).
    + reflexivity.
    + left. split; [reflexivity | discriminate].
    + reflexivity.
    + apply b64decode_b64encode.
  - apply (C4_output_attribution smoke_tester (output_frame None hi) "A"
             (Base64.b64encode hi) hi).
    + reflexivity.
    + right. split; [now left | reflexivity].
    + reflexivity.
    + apply b64decode_b64encode.
Defined.

(** C4 fails as stated, in three ways. An output frame that carries the
    (registered) session id [""] is added to the buffer of the default
    session [A], not to its own. One that carries the unregistered id
    [C] is added to no buffer at all. And one that carries no id while no
    session is open raises [IndexError]. *)
Lemma C4_counterexample :
  (exists t',
     accumulate_output empty_id_tester (output_frame (Some "") hi) = Return t'
     /\ outputs t' !! "" = Some []
     /\ outputs t' !! "A" = Some (text_of_string "hi"))
  /\ accumulate_output smoke_tester (output_frame (Some "C") hi) = Return smoke_tester
  /\ accumulate_output (set_term_ids [] smoke_tester) (output_frame None hi)
     = Raise IndexError.
Proof.
  split; [|split].
  - eexists. split; [vm_compute; reflexivity|]. split; vm_compute; reflexivity.
  - vm_compute. reflexivity.
  - vm_compute. reflexivity.
Qed.

(** ** Termination of [wait_for_output] *)

(** A call of [recv_until] with time left either takes at least one
    frame, or takes none and returns at its deadline. *)
Lemma recv_until_progress (msg_type : string) (term_id : option string)
    (timeout : Z) (t t' : tester) (w w' : world) (r : outcome (option frame)) :
  (0 < timeout)%Z ->
  recv_until msg_type term_id timeout t w = (r, t', w') ->
  (clock w <= clock w')%Z
  /\ ((length (inbox w') < length (inbox w))%nat
      \/ (inbox w' = inbox w /\ clock w' = (clock w + timeout)%Z)).
Proof.
  intros Hpos. unfold recv_until. cbn [recv_until_loop].
  destruct (Z.ltb_spec (clock w) (clock w + timeout)); [|lia].
  destruct (wait_for_recv (clock w + timeout - clock w) w) as [o w1] eqn:Hpull.
  apply wait_for_recv_inv in Hpull as (_ & _ & Hclock & Hin).
  destruct o as [parsed|].
  - destruct Hin as (_ & _ & arrival & Hin).
    assert (Hstop : forall x y, (x, y, w1) = (r, t', w') ->
      (clock w <= clock w')%Z
      /\ ((length (inbox w') < length (inbox w))%nat
          \/ (inbox w' = inbox w /\ clock w' = (clock w + timeout)%Z))).
    { intros x y [= <- <- <-]. split; [lia|]. left. rewrite Hin. cbn. lia. }
    destruct (accumulate_output t parsed) as [t1|e|]; try apply Hstop.
    destruct (expected_frame msg_type term_id parsed); [apply Hstop|].
    intros Hrec. apply recv_until_loop_world in Hrec as (Hc & _ & [c Hsuf] & _).
    split; [lia|]. left. rewrite Hin, Hsuf. cbn. rewrite length_app. lia.
  - intros [= <- <- <-]. split; [lia|]. right.
    destruct Hin as [Hin Hc]. split; [exact Hin|].
    destruct (Z.leb_spec (clock w + timeout - clock w) 0); lia.
Qed.

Lemma wait_for_output_loop_fuel (fuel : nat) (term_id : string) (expected : list N)
    (deadline : Z) (t : tester) (w : world) :
  (turns_left deadline w < fuel)%nat ->
  (wait_for_output_loop fuel term_id expected deadline t w).1.1 <> OutOfFuel.
Proof.
  revert t w. induction fuel as [|fuel IH]; intros t w Hfuel; [lia|].
  cbn [wait_for_output_loop].
  destruct (Z.ltb_spec (clock w) deadline) as [Hlt|Hge]; [|discriminate].
  destruct (contains expected (default [] (outputs t !! term_id))); [discriminate|].
  pose proof (recv_until_terminates "output" (Some term_id) 500 t w) as Hterm.
  destruct (recv_until "output" (Some term_id) 500 t w) as [[r t'] w'] eqn:Hrec.
  apply recv_until_progress in Hrec as (Hclock & Hprog); [|lia].
  destruct r as [o|e|]; [|discriminate|now cbn in Hterm].
  apply IH. unfold turns_left in *.
  destruct Hprog as [Hless|[Hsame Hhalf]].
  - assert ((deadline - clock w' + 499) / 500 <= (deadline - clock w + 499) / 500)%Z
      by (apply Z.div_le_mono; lia).
    lia.
  - rewrite Hsame, Hhalf.
    replace (deadline - (clock w + 500) + 499)%Z
      with ((deadline - clock w + 499) - 1 * 500)%Z by lia.
    assert (1 <= (deadline - clock w + 499) / 500)%Z
      by (apply Z.div_le_lower_bound; lia).
    rewrite <- Z.add_opp_r, <- Z.mul_opp_l, Z.div_add by lia. lia.
Qed.

(** [wait_for_output] always comes back with an answer or an exception. *)
Lemma wait_for_output_terminates (term_id : string) (expected : list N)
    (timeout : Z) (t : tester) (w : world) :
  (wait_for_output term_id expected timeout t w).1.1 <> OutOfFuel.
Proof.
  apply wait_for_output_loop_fuel. unfold turns_left.
  replace (clock w + timeout - clock w + 499)%Z with (timeout + 499)%Z by lia.
  assert ((timeout + 499) / 500 <= timeout / 500 + 1)%Z.
  { replace (timeout / 500 + 1)%Z with ((timeout + 1 * 500) / 500)%Z
      by (rewrite Z.div_add by lia; lia).
    apply Z.div_le_mono; lia. }
  destruct (Z.le_gt_cases 0 ((timeout + 499) / 500)); lia.
Qed.

(** ** Well-formed traffic *)

(** With a session open, the accumulation block accepts every
    well-formed frame. *)
Lemma accumulate_output_well_formed (t : tester) (parsed : frame) :
  term_ids t <> [] -> well_formed parsed ->
  exists t', accumulate_output t parsed = Return t'.
Proof.
  intros Hopen Hwf. unfold accumulate_output.
  destruct (String.eqb_spec (Frame.type parsed) "output") as [Hty|_]; [|eauto].
  destruct (Hwf Hty) as (data & raw & Hdata & Hraw).
  assert (Htid : exists tid, target t parsed = Return tid).
  { unfold target. destruct (term_ids t) as [|d rest]; [contradiction|].
    destruct (Frame.term_id parsed) as [tid|]; [destruct (String.eqb tid "")|]; eauto. }
  destruct Htid as [tid ->]. cbn.
  destruct (outputs t !! tid); [|eauto].
  rewrite Hdata. cbn. rewrite Hraw. cbn. eauto.
Qed.

Lemma accumulate_all_well_formed (t : tester) (frames : list frame) :
  term_ids t <> [] -> Forall well_formed frames ->
  exists t', accumulate_all t frames = Return t'.
Proof.
  revert t. induction frames as [|parsed frames IH]; intros t Hopen Hwf; cbn.
  - eauto.
  - inversion Hwf as [|? ? Hhd Htl]; subst.
    destruct (accumulate_output_well_formed t parsed Hopen Hhd) as [t1 Hacc].
    rewrite Hacc. cbn. apply IH; [|assumption].
    apply accumulate_output_inv in Hacc as (Hids & _). now rewrite Hids.
Qed.

(** ** The isolation scenario of [main], steps 8 and 9 *)

Example isolation_scenario :
  let collected := collect_output 20 smoke_tester isolation_world in
  collected.1.1 = Return ()
  /\ clock collected.2 = 3690%Z
  /\ (verify_isolation "A" "B" collected.1.2 collected.2).1.1
     = Return ({| term1_has_A := true; term1_has_B := false;
                  term2_has_A := false; term2_has_B := true |}, true).
Proof. vm_compute. repeat split. Qed.

(** * More of the tester *)

(** ** What a wait returns *)

(** The loop, started with time left: a frame it returns is the first
    expected one of the inbox; [None] means that the clock has reached
    the deadline, that no frame taken was the expected one and that the
    next frame, if any, arrives at the deadline or later. *)
Lemma recv_until_loop_result (fuel : nat) (msg_type : string)
    (term_id : option string) (deadline : Z) (t t' : tester) (w w' : world)
    (o : option frame) :
  (clock w < deadline)%Z ->
  recv_until_loop fuel msg_type term_id deadline t w = (Return o, t', w') ->
  exists consumed,
    Forall (fun x => expected_frame msg_type term_id x.2 = false) consumed
    /\ match o with
       | Some msg =>
           expected_frame msg_type term_id msg = true
           /\ (clock w' < deadline)%Z
           /\ exists arrival, inbox w = consumed ++ (arrival, msg) :: inbox w'
       | None =>
           inbox w = consumed ++ inbox w'
           /\ clock w' = deadline
           /\ match inbox w' with
              | (arrival, _) :: _ => (deadline <= arrival)%Z
              | [] => True
              end
       end.
Proof.
  revert t w. induction fuel as [|fuel IH]; intros t w Hclock; cbn [recv_until_loop];
    [discriminate|].
  destruct (Z.ltb_spec (clock w) deadline); [|lia].
  unfold wait_for_recv.
  destruct (Z.leb_spec (deadline - clock w) 0); [lia|].
  destruct (inbox w) as [|[arrival parsed] rest] eqn:Hin.
  { intros [= <- <- <-]. exists []. cbn.
    repeat split; auto; lia. }
  destruct (Z.ltb_spec arrival (clock w + (deadline - clock w))) as [Harr|Harr].
  2:{ intros [= <- <- <-]. exists []. cbn.
      repeat split; auto; lia. }
  destruct (accumulate_output t parsed) as [t1|e|]; try discriminate.
  destruct (expected_frame msg_type term_id parsed) eqn:Hexp.
  - intros [= <- <- <-]. exists []. cbn. repeat split; eauto; lia.
  - intros Hrec. apply IH in Hrec as (consumed & Hnot & Hres); [|cbn; lia].
    exists ((arrival, parsed) :: consumed). split; [now constructor|].
    destruct o as [msg|]; cbn in Hres |- *.
    + destruct Hres as (Hok & Hc & a & Hrest). repeat split; auto.
      exists a. now rewrite Hrest.
    + destruct Hres as (Hrest & Hc & Hnext). repeat split; auto.
      now rewrite Hrest.
Qed.

(** X1. A frame returned by [recv_until] is the first frame of the inbox
    that has the expected type (and session, when one is asked for):
    every frame before it was taken and was not the expected one, the
    frames behind it are still in the inbox, and it arrived before the
    deadline. *)
Theorem recv_until_returns_first_expected
    (msg_type : string) (term_id : option string) (timeout : Z)
    (t t' : tester) (w w' : world) (msg : frame) :
  recv_until msg_type term_id timeout t w = (Return (Some msg), t', w') ->
  expected_frame msg_type term_id msg = true
  /\ (clock w' < clock w + timeout)%Z
  /\ exists consumed arrival,
      inbox w = consumed ++ (arrival, msg) :: inbox w'
      /\ Forall (fun x => expected_frame msg_type term_id x.2 = false) consumed.
Proof.
  unfold recv_until. intros Hrec.
  destruct (Z.lt_ge_cases (clock w) (clock w + timeout)) as [Hlt|Hge].
  - apply recv_until_loop_result in Hrec as (consumed & Hnot & Hok & Hc & a & Hin);
      [|exact Hlt].
    repeat split; eauto.
  - cbn [recv_until_loop] in Hrec.
    destruct (Z.ltb_spec (clock w) (clock w + timeout)); [lia|discriminate].
Qed.

Lemma recv_until_returns_first_expected_witness :
  expected_frame "pong" None pong_frame = true
  /\ (1950 < clock pong_world + 2000)%Z
  /\ exists consumed arrival,
      inbox pong_world = consumed ++ (arrival, pong_frame) :: []
      /\ Forall (fun x => expected_frame "pong" None x.2 = false) consumed.
Proof.
  apply (recv_until_returns_first_expected "pong" None 2000
           smoke_tester smoke_tester_hi pong_world
           {| clock := 1950; inbox := []; sent := [];
              pulls := [(0%Z, 2000%Z); (600%Z, 1400%Z); (1200%Z, 800%Z);
                        (1900%Z, 100%Z)] |} pong_frame).
  vm_compute. reflexivity.
Defined.

(** X2. When [recv_until], called with a positive timeout, returns
    [None], it has waited exactly its timeout, none of the frames it
    took was the expected one, and the next frame of the inbox, if there
    is one, arrives at the deadline or later. *)
Theorem recv_until_none_means_timed_out
    (msg_type : string) (term_id : option string) (timeout : Z)
    (t t' : tester) (w w' : world) :
  (0 < timeout)%Z ->
  recv_until msg_type term_id timeout t w = (Return None, t', w') ->
  clock w' = (clock w + timeout)%Z
  /\ (exists consumed,
        inbox w = consumed ++ inbox w'
        /\ Forall (fun x => expected_frame msg_type term_id x.2 = false) consumed)
  /\ match inbox w' with
     | (arrival, _) :: _ => (clock w + timeout <= arrival)%Z
     | [] => True
     end.
Proof.
  unfold recv_until. intros Hpos Hrec.
  apply recv_until_loop_result in Hrec as (consumed & Hnot & Hin & Hc & Hnext);
    [|lia].
  repeat split; eauto.
Qed.

Lemma recv_until_none_means_timed_out_witness :
  let w' := (recv_until "term_created" None 1000 smoke_tester pong_world).2 in
  clock w' = (clock pong_world + 1000)%Z
  /\ (exists consumed,
        inbox pong_world = consumed ++ inbox w'
        /\ Forall (fun x => expected_frame "term_created" None x.2 = false) consumed)
  /\ match inbox w' with
     | (arrival, _) :: _ => (clock pong_world + 1000 <= arrival)%Z
     | [] => True
     end.
Proof.
  apply (recv_until_none_means_timed_out "term_created" None 1000
           smoke_tester
           (recv_until "term_created" None 1000 smoke_tester pong_world).1.2
           pong_world).
  - lia.
  - vm_compute. reflexivity.
Defined.

(** ** When the accumulation block raises *)

(** X3. On a frame typed as the protocol types it (a string [type];
    [term_id] and [data_b64] a string when present), the accumulation
    block raises in three situations only, all on output frames: the
    frame names no session and no session is open ([IndexError]); its
    session is registered and it has no [data_b64] ([KeyError]); its
    session is registered and its payload is rejected by
    [base64.b64decode]. In particular such a frame of an unregistered
    session never raises, whatever its payload. *)
Theorem accumulate_output_raises_iff (t : tester) (parsed : frame) (e : exn) :
  accumulate_output t parsed = Raise e
  <-> Frame.type parsed = "output"
      /\ (((Frame.term_id parsed = None \/ Frame.term_id parsed = Some "")
           /\ term_ids t = [] /\ e = IndexError)
          \/ exists tid old,
              target t parsed = Return tid
              /\ outputs t !! tid = Some old
              /\ ((Frame.data_b64 parsed = None /\ e = KeyError "data_b64")
                  \/ exists data,
                      Frame.data_b64 parsed = Some data
                      /\ Base64.b64decode data = Raise e)).
Proof.
  unfold accumulate_output.
  destruct (String.eqb_spec (Frame.type parsed) "output") as [Hty|Hty].
  2:{ split; [discriminate|]. now intros [? _]. }
  split.
  - intros H. split; [exact Hty|].
    destruct (target t parsed) as [tid|e'|] eqn:Htid; cbn in H.
    + right. destruct (outputs t !! tid) as [old|] eqn:Hold; [|discriminate].
      exists tid, old. split; [reflexivity|]. split; [exact Hold|].
      destruct (Frame.data_b64 parsed) as [data|]; cbn in H.
      * right. exists data. split; [reflexivity|].
        destruct (Base64.b64decode data); cbn in H; congruence.
      * left. split; congruence.
    + left. injection H as <-. unfold target in Htid.
      destruct (Frame.term_id parsed) as [tid|] eqn:Hid.
      * destruct (String.eqb_spec tid "") as [->|]; [|discriminate].
        destruct (term_ids t); [|discriminate]. injection Htid as <-. auto.
      * destruct (term_ids t); [|discriminate]. injection Htid as <-. auto.
    + discriminate.
  - intros [_ [([Hid|Hid] & Hids & ->)|(tid & old & Htid & Hold & Hdata)]].
    + unfold target. now rewrite Hid, Hids.
    + unfold target. now rewrite Hid, Hids.
    + rewrite Htid. cbn. rewrite Hold.
      destruct Hdata as [[-> ->]|(data & -> & Hraw)]; cbn; [reflexivity|].
      now rewrite Hraw.
Qed.

Lemma accumulate_output_raises_iff_witness :
  accumulate_output smoke_tester
    {| Frame.type := "output"; Frame.term_id := Some "A";
       Frame.session_id := None; Frame.data_b64 := Some "aGk" |}
  = Raise BinasciiError.
Proof.
  apply accumulate_output_raises_iff. split; [reflexivity|].
  right. exists "A", []. split; [reflexivity|]. split; [reflexivity|].
  right. exists "aGk". split; reflexivity.
Defined.

(** X4. A frame on which the accumulation block raises ends the wait
    with that exception, whatever the wait is for: the frame has been
    taken from the inbox, the frames behind it have not, and the tester
    keeps what was accumulated from the frames before it. *)
Theorem recv_until_raises_on_rejected_frame
    (msg_type : string) (term_id : option string) (timeout : Z)
    (t t1 : tester) (w : world)
    (pre post : list (Z * frame)) (arrival : Z) (parsed : frame) (e : exn) :
  inbox w = pre ++ (arrival, parsed) :: post ->
  (0 < timeout)%Z ->
  Forall (fun x => (x.1 < clock w + timeout)%Z) pre ->
  (arrival < clock w + timeout)%Z ->
  Forall (fun x => expected_frame msg_type term_id x.2 = false) pre ->
  accumulate_all t pre.*2 = Return t1 ->
  accumulate_output t1 parsed = Raise e ->
  exists w',
    recv_until msg_type term_id timeout t w = (Raise e, t1, w')
    /\ inbox w' = post
    /\ (clock w' < clock w + timeout)%Z.
Proof.
  intros Hin Hpos Harr Ha Hexp Hacc Hbad.
  unfold recv_until. set (deadline := (clock w + timeout)%Z) in *.
  assert (Hclock : (clock w < deadline)%Z) by (unfold deadline; lia).
  replace (S (length (inbox w))) with (length pre + S (S (length post)))%nat
    by (rewrite Hin, length_app; cbn; lia).
  rewrite (recv_until_loop_prefix _ _ _ pre ((arrival, parsed) :: post) _ t t1)
    by assumption.
  destruct (pulled_all_spec deadline pre ((arrival, parsed) :: post) w Hin Harr Hclock)
    as (Hin1 & _ & Hc1 & _).
  set (w1 := pulled_all deadline pre.*1 w) in *.
  cbn [recv_until_loop].
  destruct (Z.ltb_spec (clock w1) deadline); [|lia].
  rewrite (wait_for_recv_deliver _ arrival parsed post) by (auto; lia).
  rewrite Hbad. eexists. split; [reflexivity|]. cbn. split; [reflexivity|lia].
Qed.

Lemma recv_until_raises_on_rejected_frame_witness :
  let bad := {| Frame.type := "output"; Frame.term_id := Some "B";
                Frame.session_id := None; Frame.data_b64 := None |} in
  let w := {| clock := 0;
              inbox := [(10%Z, output_frame (Some "A") hi); (20%Z, bad);
                        (30%Z, pong_frame)];
              sent := []; pulls := [] |} in
  exists w',
    recv_until "pong" None 2000 smoke_tester w
    = (Raise (KeyError "data_b64"),
       append_output "A" (text_of_string "hi") smoke_tester, w')
    /\ inbox w' = [(30%Z, pong_frame)]
    /\ (clock w' < clock w + 2000)%Z.
Proof.
  cbn zeta.
  apply (recv_until_raises_on_rejected_frame "pong" None 2000 smoke_tester _ _
           [(10%Z, output_frame (Some "A") hi)] [(30%Z, pong_frame)] 20%Z
           {| Frame.type := "output"; Frame.term_id := Some "B";
              Frame.session_id := None; Frame.data_b64 := None |}).
  - reflexivity.
  - lia.
  - repeat constructor; cbn; lia.
  - cbn; lia.
  - repeat constructor.
  - vm_compute. reflexivity.
  - vm_compute. reflexivity.
Defined.

(** ** Buffers only grow *)

Lemma grown_refl (o : gmap string (list N)) : grown o o.
Proof.
  intros k. destruct (o !! k) as [s|]; [|reflexivity].
  exists []. now rewrite app_nil_r.
Qed.

Lemma grown_trans (o1 o2 o3 : gmap string (list N)) :
  grown o1 o2 -> grown o2 o3 -> grown o1 o3.
Proof.
  intros H12 H23 k. specialize (H12 k). specialize (H23 k).
  destruct (o1 !! k) as [s|].
  - destruct H12 as [m1 H12]. rewrite H12 in H23. destruct H23 as [m2 H23].
    exists (m1 ++ m2). now rewrite app_assoc.
  - now rewrite H12 in H23.
Qed.

Lemma recv_until_grown (msg_type : string) (term_id : option string) (timeout : Z)
    (t : tester) (w : world) :
  grown (outputs t) (outputs (recv_until msg_type term_id timeout t w).1.2)
  /\ term_ids (recv_until msg_type term_id timeout t w).1.2 = term_ids t.
Proof.
  destruct (recv_until msg_type term_id timeout t w) as [[r t'] w'] eqn:Hrec.
  apply recv_until_loop_tester in Hrec as (Hids & _ & _ & Hgrow & Hdom).
  split; [|exact Hids]. intros k. cbn.
  destruct (outputs t !! k) as [s|] eqn:Hk; [now apply Hgrow | now apply Hdom].
Qed.

Lemma wait_for_output_loop_grown (fuel : nat) (term_id : string) (expected : list N)
    (deadline : Z) (t : tester) (w : world) :
  grown (outputs t)
        (outputs (wait_for_output_loop fuel term_id expected deadline t w).1.2)
  /\ term_ids (wait_for_output_loop fuel term_id expected deadline t w).1.2
     = term_ids t.
Proof.
  revert t w. induction fuel as [|fuel IH]; intros t w; cbn [wait_for_output_loop].
  { split; [apply grown_refl|reflexivity]. }
  destruct (clock w <? deadline)%Z; [|split; [apply grown_refl|reflexivity]].
  destruct (contains expected (default [] (outputs t !! term_id)));
    [split; [apply grown_refl|reflexivity]|].
  pose proof (recv_until_grown "output" (Some term_id) 500 t w) as [Hg Hids].
  destruct (recv_until "output" (Some term_id) 500 t w) as [[r t1] w1].
  cbn in Hg, Hids. destruct r as [o|e|]; cbn; auto.
  destruct (IH t1 w1) as [Hg' Hids']. split.
  - eapply grown_trans; eassumption.
  - congruence.
Qed.

Lemma collect_output_grown (n : nat) (t : tester) (w : world) :
  grown (outputs t) (outputs (collect_output n t w).1.2)
  /\ term_ids (collect_output n t w).1.2 = term_ids t.
Proof.
  revert t w. induction n as [|n IH]; intros t w; cbn [collect_output].
  { split; [apply grown_refl|reflexivity]. }
  pose proof (recv_until_grown "output" None 200 t w) as [Hg Hids].
  destruct (recv_until "output" None 200 t w) as [[r t1] w1].
  cbn in Hg, Hids. destruct r as [o|e|]; cbn; auto.
  destruct (IH t1 w1) as [Hg' Hids']. split.
  - eapply grown_trans; eassumption.
  - congruence.
Qed.

Lemma close_terminal_grown (term_id : string) (t : tester) (w : world) :
  grown (outputs t) (outputs (close_terminal term_id t w).1.2).
Proof.
  unfold close_terminal.
  pose proof (recv_until_grown "term_closed" None TIMEOUT t
                (send (term_close term_id) w)) as [Hg _].
  destruct (recv_until "term_closed" None TIMEOUT t (send (term_close term_id) w))
    as [[r t1] w1].
  cbn in Hg. destruct r as [[msg|]|e|]; cbn; auto.
  destruct (bool_decide (Frame.term_id msg = Some term_id)); cbn; auto.
  destruct (list_remove term_id (term_ids t1)); cbn; auto.
Qed.

Lemma startswith_app (s prefix more : list N) :
  startswith s prefix = true -> startswith (s ++ more) prefix = true.
Proof.
  revert s. induction prefix as [|p prefix IH]; intros s.
  { intros _. destruct s, more; reflexivity. }
  destruct s as [|c s]; cbn; [discriminate|].
  intros H. apply andb_prop in H as [-> H]. cbn. now apply IH.
Qed.

Lemma contains_app (expected s more : list N) :
  contains expected s = true -> contains expected (s ++ more) = true.
Proof.
  induction s as [|c s IH]; cbn.
  - rewrite orb_false_r. intros H. destruct expected; [|discriminate].
    destruct more; reflexivity.
  - intros H. apply orb_prop in H as [H|H].
    + change (startswith ((c :: s) ++ more) expected
              || contains expected (s ++ more) = true).
      now rewrite (startswith_app (c :: s) expected more H).
    + rewrite (IH H). apply orb_true_r.
Qed.

Lemma grown_contains (o o' : gmap string (list N)) (k : string) (expected : list N) :
  grown o o' ->
  contains expected (default [] (o !! k)) = true ->
  contains expected (default [] (o' !! k)) = true.
Proof.
  intros Hg. specialize (Hg k). destruct (o !! k) as [s|].
  - destruct Hg as [more ->]. cbn. apply contains_app.
  - now rewrite Hg.
Qed.

(** X5. No wait ever rewrites a buffer: [recv_until], [wait_for_output],
    the collecting loop of [main] and [close_terminal] leave every key
    of [self.outputs] in place and every buffer extended at its end (a
    closed session keeps its buffer). So a text that is found in a
    session's buffer before one of them is still found there after. *)
Theorem waits_only_append (t : tester) (w : world) :
  (forall msg_type term_id timeout,
      grown (outputs t) (outputs (recv_until msg_type term_id timeout t w).1.2))
  /\ (forall term_id expected timeout,
         grown (outputs t)
               (outputs (wait_for_output term_id expected timeout t w).1.2))
  /\ (forall n, grown (outputs t) (outputs (collect_output n t w).1.2))
  /\ (forall term_id, grown (outputs t) (outputs (close_terminal term_id t w).1.2))
  /\ forall o', grown (outputs t) o' ->
       forall k expected,
         contains expected (default [] (outputs t !! k)) = true ->
         contains expected (default [] (o' !! k)) = true.
Proof.
  split; [|split; [|split; [|split]]].
  - intros. apply recv_until_grown.
  - intros. apply wait_for_output_loop_grown.
  - intros. apply collect_output_grown.
  - intros. apply close_terminal_grown.
  - intros o' Hg k expected. now apply grown_contains.
Qed.

Lemma waits_only_append_witness :
  contains MARKER_A
    (default [] (outputs (collect_output 20 settled_tester pong_world).1.2 !! "A"))
  = true.
Proof.
  destruct (waits_only_append settled_tester pong_world)
    as (_ & _ & Hcollect & _ & Hkeep).
  apply (Hkeep _ (Hcollect 20%nat) "A" MARKER_A).
  vm_compute. reflexivity.
Defined.

(** ** [wait_for_output] *)

Lemma wait_for_output_loop_verdict (fuel : nat) (term_id : string)
    (expected : list N) (deadline : Z) (t t' : tester) (w w' : world) (found : bool) :
  wait_for_output_loop fuel term_id expected deadline t w = (Return found, t', w') ->
  if found
  then contains expected (default [] (outputs t' !! term_id)) = true
  else (deadline <= clock w')%Z.
Proof.
  revert t w. induction fuel as [|fuel IH]; intros t w; cbn [wait_for_output_loop];
    [discriminate|].
  destruct (Z.ltb_spec (clock w) deadline) as [Hlt|Hge].
  2:{ intros [= <- <- <-]. exact Hge. }
  destruct (contains expected (default [] (outputs t !! term_id))) eqn:Hin.
  { intros [= <- <- <-]. exact Hin. }
  destruct (recv_until "output" (Some term_id) 500 t w) as [[[o|e|] t1] w1];
    try discriminate.
  apply IH.
Qed.

Lemma wait_for_output_loop_clock (fuel : nat) (term_id : string)
    (expected : list N) (deadline : Z) (t : tester) (w : world) :
  let w' := (wait_for_output_loop fuel term_id expected deadline t w).2 in
  (clock w <= clock w' /\ clock w' < Z.max (clock w + 1) (deadline + 500))%Z.
Proof.
  revert t w. induction fuel as [|fuel IH]; intros t w; cbn [wait_for_output_loop];
    [cbn; lia|].
  destruct (Z.ltb_spec (clock w) deadline) as [Hlt|Hge]; [|cbn; lia].
  destruct (contains expected (default [] (outputs t !! term_id))); [cbn; lia|].
  destruct (recv_until "output" (Some term_id) 500 t w) as [[r t1] w1] eqn:Hrec.
  apply recv_until_loop_world in Hrec as (Hc & _).
  destruct r as [o|e|]; [|cbn; lia|cbn; lia].
  specialize (IH t1 w1). cbn zeta in IH. lia.
Qed.

(** X6. [wait_for_output] answers [True] only when the expected text is
    in the session's buffer at that moment, and [False] only once its
    deadline has passed. *)
Theorem wait_for_output_verdict
    (term_id : string) (expected : list N) (timeout : Z)
    (t t' : tester) (w w' : world) (found : bool) :
  wait_for_output term_id expected timeout t w = (Return found, t', w') ->
  if found
  then contains expected (default [] (outputs t' !! term_id)) = true
  else (clock w + timeout <= clock w')%Z.
Proof. apply wait_for_output_loop_verdict. Qed.

Lemma wait_for_output_verdict_witness :
  contains (text_of_string "hi")
    (default [] (outputs (wait_for_output "B" (text_of_string "hi") 5000
                            smoke_tester pong_world).1.2 !! "B")) = true.
Proof.
  apply (wait_for_output_verdict "B" (text_of_string "hi") 5000 smoke_tester _
           pong_world (wait_for_output "B" (text_of_string "hi") 5000
                         smoke_tester pong_world).2 true).
  vm_compute. reflexivity.
Defined.

(** X7. [wait_for_output] always comes back, and it overruns its timeout
    by less than the half second of its last inner wait: called with a
    positive timeout, it returns before [timeout + 0.5] seconds have
    passed. *)
Theorem wait_for_output_returns_in_time
    (term_id : string) (expected : list N) (timeout : Z) (t : tester) (w : world) :
  (0 < timeout)%Z ->
  let run := wait_for_output term_id expected timeout t w in
  run.1.1 <> OutOfFuel
  /\ (clock w <= clock run.2 < clock w + timeout + 500)%Z.
Proof.
  intros Hpos. cbn zeta. split; [apply wait_for_output_terminates|].
  pose proof (wait_for_output_loop_clock
                (S (length (inbox w) + Z.to_nat (timeout / 500 + 1)))
                term_id expected (clock w + timeout) t w) as H.
  cbn zeta in H. unfold wait_for_output. lia.
Qed.

Lemma wait_for_output_returns_in_time_witness :
  let run := wait_for_output "B" MARKER_B 1300 smoke_tester pong_world in
  run.1.1 <> OutOfFuel
  /\ (clock pong_world <= clock run.2 < clock pong_world + 1300 + 500)%Z.
Proof.
  apply (wait_for_output_returns_in_time "B" MARKER_B 1300 smoke_tester pong_world).
  lia.
Defined.

(** ** [close_terminal] *)

Lemma list_remove_present (x : string) (l : list string) :
  x ∈ l ->
  exists l1 l2,
    l = l1 ++ x :: l2 /\ (x ∉ l1) /\ list_remove x l = Return (l1 ++ l2).
Proof.
  induction l as [|y l IH]; intros Hin.
  - now apply elem_of_nil in Hin.
  - cbn [list_remove]. destruct (String.eqb_spec y x) as [->|Hne].
    + exists [], l. repeat split. apply not_elem_of_nil.
    + apply elem_of_cons in Hin as [->|Hin]; [contradiction|].
      destruct (IH Hin) as (l1 & l2 & -> & Hnot & ->).
      exists (y :: l1), l2. repeat split.
      intros H. apply elem_of_cons in H as [->|H]; [now apply Hne|contradiction].
Qed.

(** X8. When the close of an open session is acknowledged,
    [close_terminal] answers [True] and takes the first occurrence of
    the id out of [term_ids]; [self.outputs] is left alone, so the
    closed session keeps its buffer and stays registered. *)
Theorem close_terminal_acknowledged
    (term_id : string) (t t' : tester) (w w' : world) (msg : frame) :
  recv_until "term_closed" None TIMEOUT t (send (term_close term_id) w)
  = (Return (Some msg), t', w') ->
  Frame.term_id msg = Some term_id ->
  term_id ∈ term_ids t ->
  exists l1 l2,
    term_ids t = l1 ++ term_id :: l2 /\ (term_id ∉ l1)
    /\ close_terminal term_id t w = (Return true, set_term_ids (l1 ++ l2) t', w')
    /\ outputs (set_term_ids (l1 ++ l2) t') = outputs t'
    /\ grown (outputs t) (outputs t').
Proof.
  intros Hrecv Hid Hopen. unfold close_terminal. rewrite Hrecv.
  pose proof (recv_until_grown "term_closed" None TIMEOUT t
                (send (term_close term_id) w)) as [Hg Hids].
  rewrite Hrecv in Hg, Hids. cbn in Hg, Hids.
  rewrite bool_decide_eq_true_2 by assumption.
  destruct (list_remove_present term_id (term_ids t) Hopen)
    as (l1 & l2 & Hsplit & Hnot & Hrem).
  exists l1, l2. rewrite Hids, Hrem. repeat split; auto.
Qed.

Lemma close_terminal_acknowledged_witness :
  exists l1 l2,
    term_ids closing_tester = l1 ++ "S1" :: l2 /\ ("S1" ∉ l1)
    /\ close_terminal "S1" closing_tester closing_world
       = (Return true, set_term_ids (l1 ++ l2) closing_tester,
          {| clock := 20; inbox := [(50%Z, term_closed_frame "S1")];
             sent := [term_close "S1"]; pulls := [(0%Z, 10000%Z)] |})
    /\ outputs (set_term_ids (l1 ++ l2) closing_tester) = outputs closing_tester
    /\ grown (outputs closing_tester) (outputs closing_tester).
Proof.
  apply (close_terminal_acknowledged "S1" closing_tester closing_tester
           closing_world _ (term_closed_frame "S1")).
  - vm_compute. reflexivity.
  - reflexivity.
  - apply list_elem_of_here.
Defined.

(** X9. When no acknowledgment for this id comes back (nothing of type
    [term_closed] before the timeout, or the acknowledgment of another
    id, which is taken from the inbox all the same), [close_terminal]
    answers [False] without touching [term_ids]; it has sent its one
    request and waited no longer than [TIMEOUT]. *)
Theorem close_terminal_without_acknowledgment
    (term_id : string) (t t' : tester) (w w' : world) (r : option frame) :
  recv_until "term_closed" None TIMEOUT t (send (term_close term_id) w)
  = (Return r, t', w') ->
  (forall msg, r = Some msg -> Frame.term_id msg <> Some term_id) ->
  close_terminal term_id t w = (Return false, t', w')
  /\ term_ids t' = term_ids t
  /\ sent w' = sent w ++ [term_close term_id]
  /\ (clock w <= clock w' <= clock w + TIMEOUT)%Z.
Proof.
  intros Hrecv Hother.
  destruct (close_terminal_unacknowledged term_id t t' w w' r Hrecv Hother)
    as [Hclose Hids].
  apply recv_until_loop_world in Hrecv as (Hc & Hsent & _).
  cbn in Hc, Hsent. unfold TIMEOUT in *. repeat split; auto; lia.
Qed.

Lemma close_terminal_without_acknowledgment_witness :
  close_terminal "S2" closing_tester closing_world
  = (Return false, closing_tester,
     {| clock := 20; inbox := [(50%Z, term_closed_frame "S1")];
        sent := [term_close "S2"]; pulls := [(0%Z, 10000%Z)] |})
  /\ term_ids closing_tester = term_ids closing_tester
  /\ [term_close "S2"] = sent closing_world ++ [term_close "S2"]
  /\ (clock closing_world <= 20 <= clock closing_world + TIMEOUT)%Z.
Proof.
  apply (close_terminal_without_acknowledgment "S2" closing_tester closing_tester
           closing_world
           {| clock := 20; inbox := [(50%Z, term_closed_frame "S1")];
              sent := [term_close "S2"]; pulls := [(0%Z, 10000%Z)] |}
           (Some (term_closed_frame "S1"))).
  - vm_compute. reflexivity.
  - intros msg [= <-]. discriminate.
Defined.

(** ** The collecting loop of [main] *)

(** One wait takes at most one frame that it was waiting for. *)
Lemma recv_until_loop_takes_one (fuel : nat) (msg_type : string)
    (term_id : option string) (deadline : Z) (t t' : tester) (w w' : world)
    (r : outcome (option frame)) :
  recv_until_loop fuel msg_type term_id deadline t w = (r, t', w') ->
  exists consumed,
    inbox w = consumed ++ inbox w'
    /\ (length (filter (fun x => expected_frame msg_type term_id x.2 = true)
                  consumed) <= 1)%nat.
Proof.
  revert t w. induction fuel as [|fuel IH]; intros t w; cbn [recv_until_loop].
  { intros [= <- <- <-]. exists []. split; [reflexivity|cbn; lia]. }
  destruct (clock w <? deadline)%Z.
  2:{ intros [= <- <- <-]. exists []. split; [reflexivity|cbn; lia]. }
  destruct (wait_for_recv (deadline - clock w) w) as [[parsed|] w1] eqn:Hpull;
    apply wait_for_recv_inv in Hpull as (_ & _ & _ & Hin).
  2:{ intros [= <- <- <-]. exists []. split; [now rewrite (proj1 Hin)|cbn; lia]. }
  destruct Hin as (_ & _ & arrival & Hin).
  assert (Hone : forall x y, (x, y, w1) = (r, t', w') ->
    exists consumed,
      inbox w = consumed ++ inbox w'
      /\ (length (filter (fun x => expected_frame msg_type term_id x.2 = true)
                    consumed) <= 1)%nat).
  { intros x y [= <- <- <-]. exists [(arrival, parsed)]. split; [exact Hin|].
    cbn. case_decide; cbn; lia. }
  destruct (accumulate_output t parsed) as [t1|e|]; try apply Hone.
  destruct (expected_frame msg_type term_id parsed) eqn:Hexp; [apply Hone|].
  intros Hrec. apply IH in Hrec as (consumed & Hin' & Hcount).
  exists ((arrival, parsed) :: consumed). split.
  - rewrite Hin, Hin'. reflexivity.
  - rewrite filter_cons_False; [exact Hcount|]. cbn. now rewrite Hexp.
Qed.

(** X10. The collecting loop of [main] makes [n] waits of 0.2 seconds,
    each of which stops at the first output frame: whatever arrives, it
    takes at most [n] output frames from the inbox (the others stay
    unread and are not in any buffer), and it lasts at most [0.2 * n]
    seconds. *)
Theorem collect_output_is_bounded (n : nat) (t : tester) (w : world) :
  let run := collect_output n t w in
  run.1.1 <> OutOfFuel
  /\ (clock w <= clock run.2 <= clock w + 200 * Z.of_nat n)%Z
  /\ exists consumed,
      inbox w = consumed ++ inbox run.2
      /\ (length (filter (fun x => is_output x = true) consumed) <= n)%nat.
Proof.
  revert t w. induction n as [|n IH]; intros t w; cbn [collect_output].
  { cbn. split; [discriminate|]. split; [lia|]. exists []. split; [reflexivity|cbn; lia]. }
  pose proof (recv_until_terminates "output" None 200 t w) as Hterm.
  destruct (recv_until "output" None 200 t w) as [[r t1] w1] eqn:Hrec.
  pose proof (recv_until_loop_world _ _ _ _ _ _ _ _ _ Hrec) as (Hc & _).
  apply recv_until_loop_takes_one in Hrec as (c1 & Hin1 & Hcount1).
  assert (Hsame : forall c : list (Z * frame),
             filter (fun x => expected_frame "output" None x.2 = true) c
             = filter (fun x => is_output x = true) c).
  { intros c. apply list_filter_iff. intros x. unfold expected_frame, is_output.
    now rewrite andb_true_r. }
  rewrite Hsame in Hcount1.
  destruct r as [o|e|]; [|cbn|now cbn in Hterm].
  - specialize (IH t1 w1). cbn zeta in IH.
    destruct IH as (Hfuel & Hc' & c2 & Hin2 & Hcount2).
    split; [exact Hfuel|]. split; [lia|].
    exists (c1 ++ c2). split.
    + rewrite Hin1, Hin2. now rewrite app_assoc.
    + rewrite filter_app, length_app. lia.
  - split; [discriminate|]. split; [lia|].
    exists c1. split; [exact Hin1|lia].
Qed.

(** ** [connect] and [create_terminal] *)

(** X11. [connect] reads exactly one frame. If it is a [hello] with a
    session id, that id becomes an open session with an empty buffer,
    behind the sessions already there; the other buffers and the rest of
    the inbox are untouched. *)
Theorem connect_registers_default_session
    (t : tester) (w : world) (arrival : Z) (msg : frame) (sid : string)
    (rest : list (Z * frame)) :
  inbox w = (arrival, msg) :: rest ->
  (arrival < clock w + TIMEOUT)%Z ->
  Frame.type msg = "hello" ->
  Frame.session_id msg = Some sid ->
  exists t' w',
    connect t w = (Ok sid, t', w')
    /\ term_ids t' = term_ids t ++ [sid]
    /\ outputs t' !! sid = Some []
    /\ (forall k, k <> sid -> outputs t' !! k = outputs t !! k)
    /\ inbox w' = rest
    /\ clock w' = Z.max (clock w) arrival.
Proof.
  intros Hin Harr Hty Hsid. unfold connect, recv.
  rewrite (wait_for_recv_deliver TIMEOUT arrival msg rest w Hin) by (auto; reflexivity).
  rewrite Hty, Hsid. cbn. eexists _, _. split; [reflexivity|]. cbn.
  repeat split.
  - apply lookup_insert_eq.
  - intros k Hk. now apply lookup_insert_ne.
Qed.

Lemma connect_registers_default_session_witness :
  exists t' w',
    connect new_tester
      {| clock := 0; inbox := [(5%Z, hello_frame "S0"); (9%Z, pong_frame)];
         sent := []; pulls := [] |}
    = (Ok "S0", t', w')
    /\ term_ids t' = term_ids new_tester ++ ["S0"]
    /\ outputs t' !! "S0" = Some []
    /\ (forall k, k <> "S0" -> outputs t' !! k = outputs new_tester !! k)
    /\ inbox w' = [(9%Z, pong_frame)]
    /\ clock w' = Z.max 0 5.
Proof.
  apply (connect_registers_default_session new_tester
           {| clock := 0; inbox := [(5%Z, hello_frame "S0"); (9%Z, pong_frame)];
              sent := []; pulls := [] |} 5%Z (hello_frame "S0") "S0"
           [(9%Z, pong_frame)]); reflexivity.
Defined.

(** X12. [connect] does not look past the first frame. When that frame
    is not a [hello] it raises [AssertionError], even if the [hello] is
    the next frame; when it is a [hello] without session id it raises
    [KeyError]; in both cases the frame is gone from the inbox. When no
    frame arrives within [TIMEOUT] it raises [asyncio.TimeoutError]
    after exactly [TIMEOUT]. The tester is unchanged each time. *)
Theorem connect_fails_on_first_frame
    (t : tester) (w : world) :
  (forall arrival msg rest,
      inbox w = (arrival, msg) :: rest ->
      (arrival < clock w + TIMEOUT)%Z ->
      Frame.type msg <> "hello" ->
      exists w', connect t w = (Err AssertionError, t, w') /\ inbox w' = rest)
  /\ (forall arrival msg rest,
         inbox w = (arrival, msg) :: rest ->
         (arrival < clock w + TIMEOUT)%Z ->
         Frame.type msg = "hello" ->
         Frame.session_id msg = None ->
         exists w', connect t w = (Err (Exn (KeyError "session_id")), t, w')
                    /\ inbox w' = rest)
  /\ (match inbox w with
      | (arrival, _) :: _ => (clock w + TIMEOUT <= arrival)%Z
      | [] => True
      end ->
      exists w', connect t w = (Err TimeoutError, t, w')
                 /\ inbox w' = inbox w
                 /\ clock w' = (clock w + TIMEOUT)%Z).
Proof.
  split; [|split].
  - intros arrival msg rest Hin Harr Hty. unfold connect, recv.
    rewrite (wait_for_recv_deliver TIMEOUT arrival msg rest w Hin)
      by (auto; reflexivity).
    destruct (String.eqb_spec (Frame.type msg) "hello"); [contradiction|].
    eexists. split; reflexivity.
  - intros arrival msg rest Hin Harr Hty Hsid. unfold connect, recv.
    rewrite (wait_for_recv_deliver TIMEOUT arrival msg rest w Hin)
      by (auto; reflexivity).
    rewrite Hty, Hsid. cbn. eexists. split; reflexivity.
  - intros Hlate. unfold connect, recv, wait_for_recv.
    change (TIMEOUT <=? 0)%Z with false. cbn match.
    destruct (inbox w) as [|[arrival msg] rest] eqn:Hin.
    + eexists. split; [reflexivity|]. cbn. auto.
    + destruct (Z.ltb_spec arrival (clock w + TIMEOUT)); [lia|].
      eexists. split; [reflexivity|]. cbn. auto.
Qed.

Lemma connect_fails_on_first_frame_witness :
  let w := {| clock := 0; inbox := [(5%Z, pong_frame); (9%Z, hello_frame "S0")];
              sent := []; pulls := [] |} in
  exists w', connect new_tester w = (Err AssertionError, new_tester, w')
             /\ inbox w' = [(9%Z, hello_frame "S0")].
Proof.
  cbn zeta.
  apply (proj1 (connect_fails_on_first_frame new_tester
                  {| clock := 0;
                     inbox := [(5%Z, pong_frame); (9%Z, hello_frame "S0")];
                     sent := []; pulls := [] |}) 5%Z pong_frame
           [(9%Z, hello_frame "S0")]).
  - reflexivity.
  - reflexivity.
  - discriminate.
Defined.

(** X13. When [term_created] comes back with a session id,
    [create_terminal] puts the id at the end of [term_ids] and gives it
    an empty buffer (emptying the buffer the id may already have had)
    before it reads [msg['cwd']]: the session is registered also when
    that key is missing and the call raises [KeyError]. Other buffers
    are those the wait left. *)
Theorem create_terminal_registers
    (k : keys) (t t' : tester) (w w' : world) (msg : frame) (tid : string) :
  recv_until "term_created" None TIMEOUT t
    (send (term_create (project t) (workspace t)) w)
  = (Return (Some msg), t', w') ->
  Frame.term_id msg = Some tid ->
  exists t2,
    create_terminal k t w
    = (match cwd k msg with
       | Some _ => Ok (Some tid)
       | None => Err (Exn (KeyError "cwd"))
       end, t2, w')
    /\ term_ids t2 = term_ids t ++ [tid]
    /\ outputs t2 !! tid = Some []
    /\ (forall j, j <> tid -> outputs t2 !! j = outputs t' !! j).
Proof.
  intros Hrecv Hid. unfold create_terminal. rewrite Hrecv, Hid.
  apply recv_until_loop_tester in Hrecv as (Hids & _).
  exists (register tid t'). split; [now destruct (cwd k msg)|].
  cbn. rewrite Hids. repeat split.
  - apply lookup_insert_eq.
  - intros j Hj. now apply lookup_insert_ne.
Qed.

Lemma create_terminal_registers_witness :
  let k := {| cwd := fun _ => None; items := fun _ => [] |} in
  let w := {| clock := 0; inbox := [(7%Z, term_created_frame "A")];
              sent := []; pulls := [] |} in
  exists t2,
    create_terminal k settled_tester w
    = (Err (Exn (KeyError "cwd")), t2,
       {| clock := 7; inbox := [];
          sent := [term_create (Some "demo") (Some "main")];
          pulls := [(0%Z, 10000%Z)] |})
    /\ term_ids t2 = term_ids settled_tester ++ ["A"]
    /\ outputs t2 !! "A" = Some []
    /\ (forall j, j <> "A" -> outputs t2 !! j = outputs settled_tester !! j).
Proof.
  cbn zeta.
  apply (create_terminal_registers {| cwd := fun _ => None; items := fun _ => [] |}
           settled_tester settled_tester
           {| clock := 0; inbox := [(7%Z, term_created_frame "A")];
              sent := []; pulls := [] |} _ (term_created_frame "A") "A").
  - vm_compute. reflexivity.
  - reflexivity.
Defined.

(** ** Every open session has a buffer *)

Lemma registered_grown (t t' : tester) :
  registered t -> term_ids t' = term_ids t -> grown (outputs t) (outputs t') ->
  registered t'.
Proof.
  unfold registered. intros Hreg Hids Hg. rewrite Hids.
  eapply Forall_impl; [exact Hreg|]. cbn. intros tid [s Hs].
  specialize (Hg tid). rewrite Hs in Hg. destruct Hg as [more Hg]. eauto.
Qed.

Lemma registered_register (tid : string) (t : tester) :
  registered t -> registered (register tid t).
Proof.
  unfold registered, register. cbn. intros Hreg. apply Forall_app. split.
  - eapply Forall_impl; [exact Hreg|]. cbn. intros j Hj.
    destruct (decide (tid = j)) as [->|Hne].
    + rewrite lookup_insert_eq. eauto.
    + now rewrite lookup_insert_ne.
  - constructor; [|constructor]. rewrite lookup_insert_eq. eauto.
Qed.

Lemma registered_clear_output (term : string) (t : tester) :
  registered t -> registered (clear_output term t).
Proof.
  unfold registered, clear_output. cbn. intros Hreg.
  eapply Forall_impl; [exact Hreg|]. cbn. intros j Hj.
  destruct (decide (term = j)) as [->|Hne].
  - rewrite lookup_insert_eq. eauto.
  - now rewrite lookup_insert_ne.
Qed.

Lemma list_remove_sublist (x : string) (l l' : list string) :
  list_remove x l = Return l' -> forall y, y ∈ l' -> y ∈ l.
Proof.
  revert l'. induction l as [|z l IH]; intros l'; cbn; [discriminate|].
  destruct (String.eqb z x).
  - intros [= <-] y Hy. now right.
  - destruct (list_remove x l) as [l''| |]; cbn; try discriminate.
    intros [= <-] y Hy. apply elem_of_cons in Hy as [->|Hy]; [left|right].
    now apply (IH l'').
Qed.

Lemma registered_recv_until (msg_type : string) (term_id : option string)
    (timeout : Z) (t : tester) (w : world) :
  registered t -> registered (recv_until msg_type term_id timeout t w).1.2.
Proof.
  intros Hreg. destruct (recv_until_grown msg_type term_id timeout t w) as [Hg Hids].
  now apply (registered_grown t).
Qed.

Lemma registered_close_terminal (term_id : string) (t : tester) (w : world) :
  registered t -> registered (close_terminal term_id t w).1.2.
Proof.
  intros Hreg. unfold close_terminal.
  pose proof (registered_recv_until "term_closed" None TIMEOUT t
                (send (term_close term_id) w) Hreg) as Hreg1.
  destruct (recv_until "term_closed" None TIMEOUT t (send (term_close term_id) w))
    as [[r t1] w1].
  cbn in Hreg1. destruct r as [[msg|]|e|]; cbn; auto.
  destruct (bool_decide (Frame.term_id msg = Some term_id)); cbn; auto.
  destruct (list_remove term_id (term_ids t1)) as [l| |] eqn:Hrem; cbn; auto.
  unfold registered in *. cbn. apply Forall_forall. intros y Hy.
  rewrite Forall_forall in Hreg1. apply Hreg1.
  now apply (list_remove_sublist term_id (term_ids t1) l).
Qed.

Lemma registered_main_select_workspace (t : tester) (w : world) :
  registered t -> registered (main_select_workspace t w).1.2.
Proof.
  intros Hreg. unfold main_select_workspace.
  pose proof (registered_recv_until "selected_workspace" None TIMEOUT t
                (send (select_workspace (project t) (workspace t)) w) Hreg) as Hreg1.
  destruct (recv_until "selected_workspace" None TIMEOUT t
              (send (select_workspace (project t) (workspace t)) w)) as [[r t1] w1].
  cbn in Hreg1. destruct r as [[msg|]|e|]; cbn; auto.
  destruct (Frame.session_id msg) as [sid|]; cbn; auto.
  unfold registered. cbn. constructor; [|constructor].
  rewrite lookup_singleton_eq. eauto.
Qed.

Lemma registered_connect (t : tester) (w : world) :
  registered t -> registered (connect t w).1.2.
Proof.
  intros Hreg. unfold connect. destruct (recv w) as [[msg|e|] w1]; cbn; auto.
  destruct (String.eqb (Frame.type msg) "hello"); cbn; auto.
  destruct (Frame.session_id msg); cbn; auto. now apply registered_register.
Qed.

Lemma registered_create_terminal (k : keys) (t : tester) (w : world) :
  registered t -> registered (create_terminal k t w).1.2.
Proof.
  intros Hreg. unfold create_terminal.
  pose proof (registered_recv_until "term_created" None TIMEOUT t
                (send (term_create (project t) (workspace t)) w) Hreg) as Hreg1.
  destruct (recv_until "term_created" None TIMEOUT t
              (send (term_create (project t) (workspace t)) w)) as [[r t1] w1].
  cbn in Hreg1. destruct r as [[msg|]|e|]; cbn; auto.
  destruct (Frame.term_id msg) as [tid|]; cbn; auto.
  destruct (cwd k msg); cbn; now apply registered_register.
Qed.

Lemma registered_setup_workspace (k : keys) (t : tester) (w : world) :
  registered t -> registered (setup_workspace k t w).1.2.
Proof.
  intros Hreg. unfold setup_workspace.
  pose proof (registered_recv_until "projects" None TIMEOUT t
                (send list_projects w) Hreg) as Hreg1.
  destruct (recv_until "projects" None TIMEOUT t (send list_projects w))
    as [[r t1] w1].
  cbn in Hreg1. destruct r as [[msg|]|e|]; cbn -[recv_until]; auto.
  destruct (items k msg) as [|[p|] names]; cbn -[recv_until]; auto.
  assert (Hreg2 : registered (set_project p t1)) by exact Hreg1.
  pose proof (registered_recv_until "workspaces" None TIMEOUT (set_project p t1)
                (send (list_workspaces (Some p)) w1) Hreg2) as Hreg3.
  destruct (recv_until "workspaces" None TIMEOUT (set_project p t1)
              (send (list_workspaces (Some p)) w1)) as [[r2 t2] w2].
  cbn in Hreg3. destruct r2 as [[msg2|]|e|]; cbn; auto.
  destruct (items k msg2) as [|[ws|] names2]; cbn; auto.
Qed.

Lemma registered_wait_for_output (term_id : string) (expected : list N)
    (timeout : Z) (t : tester) (w : world) :
  registered t -> registered (wait_for_output term_id expected timeout t w).1.2.
Proof.
  intros Hreg.
  destruct (wait_for_output_loop_grown
              (S (length (inbox w) + Z.to_nat (timeout / 500 + 1)))
              term_id expected (clock w + timeout) t w) as [Hg Hids].
  now apply (registered_grown t).
Qed.

Lemma registered_collect_output (n : nat) (t : tester) (w : world) :
  registered t -> registered (collect_output n t w).1.2.
Proof.
  intros Hreg. destruct (collect_output_grown n t w) as [Hg Hids].
  now apply (registered_grown t).
Qed.

(** X14. As long as session ids are strings, as the protocol has them,
    "every open session has a buffer" holds of a fresh tester and is
    kept by every operation: [connect], [setup_workspace], the
    workspace selection of [main], [create_terminal], [recv_until],
    [wait_for_output], the collecting loop and [close_terminal],
    whichever such frames they receive and whether they return or
    raise. *)
Theorem every_open_session_has_a_buffer (k : keys) (t : tester) (w : world) :
  registered t ->
  registered new_tester
  /\ registered (connect t w).1.2
  /\ registered (setup_workspace k t w).1.2
  /\ registered (main_select_workspace t w).1.2
  /\ registered (create_terminal k t w).1.2
  /\ (forall msg_type term_id timeout,
         registered (recv_until msg_type term_id timeout t w).1.2)
  /\ (forall term_id expected timeout,
         registered (wait_for_output term_id expected timeout t w).1.2)
  /\ (forall n, registered (collect_output n t w).1.2)
  /\ (forall term_id, registered (close_terminal term_id t w).1.2).
Proof.
  intros Hreg. split; [constructor|].
  split; [now apply registered_connect|].
  split; [now apply registered_setup_workspace|].
  split; [now apply registered_main_select_workspace|].
  split; [now apply registered_create_terminal|].
  split; [intros; now apply registered_recv_until|].
  split; [intros; now apply registered_wait_for_output|].
  split; [intros; now apply registered_collect_output|].
  intros; now apply registered_close_terminal.
Qed.

Lemma every_open_session_has_a_buffer_witness :
  registered (close_terminal "S1" closing_tester closing_world).1.2.
Proof.
  apply (every_open_session_has_a_buffer
           {| cwd := fun _ => None; items := fun _ => [] |}
           closing_tester closing_world).
  repeat constructor; vm_compute; eauto.
Defined.

(** X15. While every open session has a buffer and one session is open,
    an output frame that names no session (or the empty one) and carries
    a payload [base64.b64decode] accepts is never dropped and never
    raises: its text goes to the end of the buffer of the first open
    session. *)
Theorem default_session_output_is_kept
    (t : tester) (parsed : frame) (tid data : string) (rest : list string)
    (raw : list byte) :
  registered t ->
  term_ids t = tid :: rest ->
  Frame.type parsed = "output" ->
  Frame.term_id parsed = None \/ Frame.term_id parsed = Some "" ->
  Frame.data_b64 parsed = Some data ->
  Base64.b64decode data = Return raw ->
  exists old,
    outputs t !! tid = Some old
    /\ accumulate_output t parsed
       = Return (set_outputs (<[tid := old ++ Utf8.decode_replace raw]> (outputs t)) t).
Proof.
  intros Hreg Hids Hty Hid Hdata Hraw.
  unfold registered in Hreg. rewrite Hids in Hreg.
  inversion Hreg as [|? ? [old Hold] _]; subst.
  exists old. split; [exact Hold|].
  apply (accumulate_output_known t parsed tid data old raw); auto.
  now apply (target_default t parsed tid rest).
Qed.

Lemma default_session_output_is_kept_witness :
  exists old,
    outputs smoke_tester !! "A" = Some old
    /\ accumulate_output smoke_tester (output_frame None hi)
       = Return (set_outputs (<["A" := old ++ Utf8.decode_replace hi]>
                                (outputs smoke_tester)) smoke_tester).
Proof.
  apply (default_session_output_is_kept smoke_tester (output_frame None hi)
           "A" (Base64.b64encode hi) ["B"] hi).
  - repeat constructor; vm_compute; eauto.
  - reflexivity.
  - reflexivity.
  - now left.
  - reflexivity.
  - apply b64decode_b64encode.
Defined.

(** ** [send_input] *)

Lemma encode_char_scalar (c : N) :
  (scalar c -> exists bs, Utf8.encode_char c = Return bs)
  /\ (~ scalar c -> Utf8.encode_char c = Raise UnicodeEncodeError).
Proof.
  unfold scalar, Utf8.encode_char.
  destruct (N.ltb_spec c 0x80); [split; [eauto|lia]|].
  destruct (N.ltb_spec c 0x800); [split; [eauto|lia]|].
  destruct (N.ltb_spec c 0x10000).
  - destruct (N.leb_spec 0xD800 c); destruct (N.leb_spec c 0xDFFF); cbn;
      split; eauto; lia.
  - destruct (N.ltb_spec c 0x110000); split; eauto; lia.
Qed.

Lemma encode_scalar (text : list N) :
  (Forall scalar text -> exists raw, Utf8.encode text = Return raw)
  /\ (~ Forall scalar text -> Utf8.encode text = Raise UnicodeEncodeError).
Proof.
  induction text as [|c text [IHok IHbad]]; cbn [Utf8.encode].
  - split; [eauto|]. intros H. destruct H. constructor.
  - destruct (encode_char_scalar c) as [Hok Hbad]. split.
    + intros H. inversion H as [|? ? Hc Htext]; subst.
      destruct (Hok Hc) as [bs ->]. destruct (IHok Htext) as [raw ->]. cbn. eauto.
    + intros H.
      assert (Hdec : scalar c \/ ~ scalar c) by (unfold scalar; lia).
      destruct Hdec as [Hc|Hc]; [|now rewrite (Hbad Hc)].
      destruct (Hok Hc) as [bs ->]. cbn.
      rewrite IHbad; [reflexivity|]. intros Htext. apply H. now constructor.
Qed.

(** X16. [send_input] succeeds exactly on texts made of Unicode scalar
    values: it then sends one [input] message whose payload decodes
    (base64, then UTF-8) to the text typed, and leaves the tester as it
    is. On a text with a surrogate it raises [UnicodeEncodeError] and
    sends nothing. *)
Theorem send_input_sends_or_raises
    (term_id : string) (text : list N) (t : tester) (w : world) :
  (Forall scalar text ->
   exists raw,
     send_input term_id text t w
     = (Return (), t, send (input term_id (Base64.b64encode raw)) w)
     /\ Base64.b64decode (Base64.b64encode raw) = Return raw
     /\ Utf8.decode_replace raw = text)
  /\ (~ Forall scalar text ->
      send_input term_id text t w = (Raise UnicodeEncodeError, t, w)).
Proof.
  destruct (encode_scalar text) as [Hok Hbad]. unfold send_input. split.
  - intros H. destruct (Hok H) as [raw Hraw]. exists raw. rewrite Hraw.
    split; [reflexivity|]. split; [apply b64decode_b64encode|].
    now apply decode_encode.
  - intros H. now rewrite (Hbad H).
Qed.

Lemma send_input_sends_or_raises_witness :
  (exists raw,
      send_input "A" echo_MARKER_A smoke_tester pong_world
      = (Return (), smoke_tester,
         send (input "A" (Base64.b64encode raw)) pong_world)
      /\ Base64.b64decode (Base64.b64encode raw) = Return raw
      /\ Utf8.decode_replace raw = echo_MARKER_A)
  /\ send_input "A" [0x41; 0xD800] smoke_tester pong_world
     = (Raise UnicodeEncodeError, smoke_tester, pong_world).
Proof.
  split.
  - apply (send_input_sends_or_raises "A" echo_MARKER_A smoke_tester pong_world).
    repeat constructor; unfold scalar; cbn; lia.
  - apply (send_input_sends_or_raises "A" [0x41; 0xD800] smoke_tester pong_world).
    intros H. inversion H as [|? ? _ H1]; subst.
    inversion H1 as [|? ? Hs _]; subst. unfold scalar in Hs. lia.
Defined.

(** ** [setup_workspace] *)

(** X17. [setup_workspace] answers [True] only with a project and a
    workspace chosen, after it has asked for the projects and then for
    the workspaces of the project it chose. When it answers [False] it
    has asked for the projects and, only if it found one, for its
    workspaces; the workspace is then as before. It never touches the
    open sessions, and buffers only grow. *)
Theorem setup_workspace_outcomes
    (k : keys) (t t' : tester) (w w' : world) (found : bool) :
  setup_workspace k t w = (Ok found, t', w') ->
  term_ids t' = term_ids t
  /\ grown (outputs t) (outputs t')
  /\ if found
     then exists p ws,
         project t' = Some p /\ workspace t' = Some ws
         /\ sent w' = sent w ++ [list_projects; list_workspaces (Some p)]
     else workspace t' = workspace t
          /\ ((project t' = project t /\ sent w' = sent w ++ [list_projects])
              \/ exists p,
                  project t' = Some p
                  /\ sent w' = sent w ++ [list_projects; list_workspaces (Some p)]).
Proof.
  unfold setup_workspace.
  pose proof (recv_until_grown "projects" None TIMEOUT t (send list_projects w))
    as [Hg1 Hids1].
  destruct (recv_until "projects" None TIMEOUT t (send list_projects w))
    as [[r t1] w1] eqn:Hrec1.
  cbn in Hg1, Hids1.
  pose proof (recv_until_loop_tester _ _ _ _ _ _ _ _ _ Hrec1) as (_ & Hp1 & Hw1 & _).
  apply recv_until_loop_world in Hrec1 as (_ & Hs1 & _). cbn in Hs1.
  destruct r as [[msg|]|e|]; try discriminate.
  2:{ intros [= <- <- <-]. repeat split; auto. }
  destruct (items k msg) as [|[p|] names]; cbn -[recv_until]; try discriminate.
  { intros [= <- <- <-]. repeat split; auto. }
  pose proof (recv_until_grown "workspaces" None TIMEOUT (set_project p t1)
                (send (list_workspaces (Some p)) w1)) as [Hg2 Hids2].
  destruct (recv_until "workspaces" None TIMEOUT (set_project p t1)
              (send (list_workspaces (Some p)) w1)) as [[r2 t2] w2] eqn:Hrec2.
  cbn in Hg2, Hids2.
  pose proof (recv_until_loop_tester _ _ _ _ _ _ _ _ _ Hrec2) as (_ & Hp2 & Hw2 & _).
  apply recv_until_loop_world in Hrec2 as (_ & Hs2 & _). cbn in Hs2, Hp2, Hw2.
  assert (Hsent : sent w2 = sent w ++ [list_projects; list_workspaces (Some p)]).
  { rewrite Hs2, Hs1, <- app_assoc. reflexivity. }
  assert (Hg : grown (outputs t) (outputs t2)) by (eapply grown_trans; eassumption).
  assert (Hids : term_ids t2 = term_ids t) by (cbn in Hids2; congruence).
  assert (Hw : workspace t2 = workspace t) by congruence.
  destruct r2 as [[msg2|]|e|]; try discriminate.
  2:{ intros [= <- <- <-]. split; [exact Hids|]. split; [exact Hg|].
      split; [exact Hw|]. right. eauto. }
  destruct (items k msg2) as [|[ws|] names2]; cbn; try discriminate.
  { intros [= <- <- <-]. split; [exact Hids|]. split; [exact Hg|].
    split; [exact Hw|]. right. eauto. }
  intros [= <- <- <-]. cbn. split; [exact Hids|]. split; [exact Hg|].
  exists p, ws. auto.
Qed.


Lemma setup_workspace_outcomes_witness :
  let w := set_clock 6 demo_session in
  let run := setup_workspace demo_keys connected_tester w in
  term_ids run.1.2 = term_ids connected_tester
  /\ grown (outputs connected_tester) (outputs run.1.2)
  /\ exists p ws,
      project run.1.2 = Some p /\ workspace run.1.2 = Some ws
      /\ sent run.2 = sent w ++ [list_projects; list_workspaces (Some p)].
Proof.
  apply (setup_workspace_outcomes demo_keys connected_tester _
           (set_clock 6 demo_session) _ true).
  vm_compute. reflexivity.
Defined.

(** ** [main] *)

Lemma send_input_tester (term_id : string) (text : list N) (t : tester) (w : world) :
  (send_input term_id text t w).1.2 = t
  /\ (send_input term_id text t w).1.1 <> OutOfFuel.
Proof.
  unfold send_input. pose proof (encode_scalar text) as [Hok Hbad].
  destruct (Utf8.encode text) as [raw|e|] eqn:Henc; cbn; split; auto; try discriminate.
  assert (Hdec : Forall scalar text \/ ~ Forall scalar text).
  { destruct (decide (Forall (fun c => c < 0xD800 \/ (0xDFFF < c /\ c < 0x110000)) text));
      [left|right]; assumption. }
  destruct Hdec as [H|H]; [destruct (Hok H) as [raw Hraw]; discriminate Hraw|].
  specialize (Hbad H). discriminate Hbad.
Qed.

Lemma verify_isolation_tester (term1 term2 : string) (t : tester) (w : world) :
  (verify_isolation term1 term2 t w).1.2 = t
  /\ (verify_isolation term1 term2 t w).1.1 <> OutOfFuel.
Proof.
  unfold verify_isolation, outputs_at. cbn. split; [reflexivity|].
  destruct (outputs t !! term1); cbn; [|discriminate].
  destruct (outputs t !! term2); cbn; discriminate.
Qed.

Lemma collect_output_total (n : nat) (t : tester) (w : world) :
  (collect_output n t w).1.1 <> OutOfFuel.
Proof.
  revert t w. induction n as [|n IH]; intros t w; cbn [collect_output];
    [discriminate|].
  pose proof (recv_until_terminates "output" None 200 t w) as Hterm.
  destruct (recv_until "output" None 200 t w) as [[r t1] w1]. cbn in Hterm.
  destruct r as [o|e|]; [apply IH|discriminate|contradiction].
Qed.

(** The tests of [main] keep the open sessions as they find them, every
    open session keeps a buffer, and they always end. *)
Lemma isolation_test_tester (term1 term2 : string) (t : tester) (w : world) :
  registered t ->
  let run := isolation_test term1 term2 t w in
  term_ids run.1.2 = term_ids t /\ registered run.1.2 /\ run.1.1 <> OutOfFuel.
Proof.
  intros Hreg. cbn zeta. unfold isolation_test.
  set (t0 := clear_output term2 (clear_output term1 t)).
  assert (Hreg0 : registered t0) by now do 2 apply registered_clear_output.
  destruct (send_input_tester term1 echo_MARKER_A t0 (sleep 1000 w)) as [Ht1 Hf1].
  destruct (send_input term1 echo_MARKER_A t0 (sleep 1000 w)) as [[r1 t1] w1].
  cbn in Ht1, Hf1. subst t1.
  destruct r1 as [u|e|]; [|cbn; split; [reflexivity|split; [exact Hreg0|discriminate]]
                         |contradiction].
  destruct (send_input_tester term2 echo_MARKER_B t0 (sleep 500 w1)) as [Ht2 Hf2].
  destruct (send_input term2 echo_MARKER_B t0 (sleep 500 w1)) as [[r2 t2] w2].
  cbn in Ht2, Hf2. subst t2.
  destruct r2 as [u2|e|]; [|cbn; split; [reflexivity|split; [exact Hreg0|discriminate]]
                          |contradiction].
  destruct (collect_output_grown 20 t0 (sleep 500 w2)) as [Hg Hids].
  pose proof (registered_collect_output 20 t0 (sleep 500 w2) Hreg0) as Hreg3.
  pose proof (collect_output_total 20 t0 (sleep 500 w2)) as Hf3.
  destruct (collect_output 20 t0 (sleep 500 w2)) as [[r3 t3] w3].
  cbn in Hg, Hids, Hreg3, Hf3.
  destruct r3 as [u3|e|]; [|cbn; split; [exact Hids|split; [exact Hreg3|discriminate]]
                          |contradiction].
  destruct (verify_isolation_tester term1 term2 t3 w3) as [Ht4 Hf4].
  rewrite Ht4. auto.
Qed.

Lemma pwd_test_tester (term1 term2 : string) (t : tester) (w : world) :
  registered t ->
  let run := pwd_test term1 term2 t w in
  term_ids run.1.2 = term_ids t /\ registered run.1.2 /\ run.1.1 <> OutOfFuel.
Proof.
  intros Hreg. cbn zeta. unfold pwd_test.
  set (t0 := clear_output term2 (clear_output term1 t)).
  assert (Hreg0 : registered t0) by now do 2 apply registered_clear_output.
  destruct (send_input_tester term1 pwd t0 w) as [Ht1 Hf1].
  destruct (send_input term1 pwd t0 w) as [[r1 t1] w1].
  cbn in Ht1, Hf1. subst t1.
  destruct r1 as [u|e|]; [|cbn; split; [reflexivity|split; [exact Hreg0|discriminate]]
                         |contradiction].
  destruct (send_input_tester term2 pwd t0 w1) as [Ht2 Hf2].
  destruct (send_input term2 pwd t0 w1) as [[r2 t2] w2].
  cbn in Ht2, Hf2. subst t2.
  destruct r2 as [u2|e|]; [|cbn; split; [reflexivity|split; [exact Hreg0|discriminate]]
                          |contradiction].
  destruct (collect_output_grown 20 t0 (sleep 500 w2)) as [Hg Hids].
  pose proof (registered_collect_output 20 t0 (sleep 500 w2) Hreg0) as Hreg3.
  pose proof (collect_output_total 20 t0 (sleep 500 w2)) as Hf3.
  destruct (collect_output 20 t0 (sleep 500 w2)) as [[r3 t3] w3].
  cbn in Hg, Hids, Hreg3, Hf3.
  destruct r3 as [u3|e|]; [|cbn; split; [exact Hids|split; [exact Hreg3|discriminate]]
                          |contradiction].
  cbn. split; [exact Hids|]. split; [exact Hreg3|].
  unfold outputs_at. destruct (outputs t3 !! term1); cbn; [|discriminate].
  destruct (outputs t3 !! term2); cbn; discriminate.
Qed.

Lemma close_terminal_total (term_id : string) (t : tester) (w : world) :
  (close_terminal term_id t w).1.1 <> OutOfFuel.
Proof.
  unfold close_terminal.
  pose proof (recv_until_terminates "term_closed" None TIMEOUT t
                (send (term_close term_id) w)) as Hterm.
  destruct (recv_until "term_closed" None TIMEOUT t (send (term_close term_id) w))
    as [[r t1] w1].
  cbn in Hterm. destruct r as [[msg|]|e|]; cbn; try discriminate; [|contradiction].
  destruct (bool_decide (Frame.term_id msg = Some term_id)); cbn; [|discriminate].
  assert (Hrem : forall l, list_remove term_id l <> OutOfFuel).
  { induction l as [|y l IH]; cbn; [discriminate|].
    destruct (String.eqb y term_id); [discriminate|].
    destruct (list_remove term_id l); cbn; congruence. }
  specialize (Hrem (term_ids t1)).
  destruct (list_remove term_id (term_ids t1)); cbn; congruence.
Qed.

Lemma close_both_total (term1 term2 : string) (t : tester) (w : world) :
  registered t ->
  (close_both term1 term2 t w).1.1 <> OutOfFuel
  /\ registered (close_both term1 term2 t w).1.2.
Proof.
  intros Hreg. unfold close_both.
  pose proof (close_terminal_total term2 t w) as Hf1.
  pose proof (registered_close_terminal term2 t w Hreg) as Hreg1.
  destruct (close_terminal term2 t w) as [[r1 t1] w1]. cbn in Hf1, Hreg1.
  destruct r1 as [b|e|]; [|cbn; split; [discriminate|assumption]|contradiction].
  pose proof (close_terminal_total term1 t1 w1) as Hf2.
  pose proof (registered_close_terminal term1 t1 w1 Hreg1) as Hreg2.
  destruct (close_terminal term1 t1 w1) as [[r2 t2] w2]. cbn in Hf2, Hreg2.
  destruct r2 as [b2|e|]; cbn; split; auto; discriminate.
Qed.

Lemma create_terminal_ids (k : keys) (t t' : tester) (w w' : world) (tid : string) :
  create_terminal k t w = (Ok (Some tid), t', w') ->
  term_ids t' = term_ids t ++ [tid].
Proof.
  unfold create_terminal.
  destruct (recv_until_grown "term_created" None TIMEOUT t
              (send (term_create (project t) (workspace t)) w)) as [_ Hids].
  destruct (recv_until "term_created" None TIMEOUT t
              (send (term_create (project t) (workspace t)) w)) as [[r t1] w1].
  cbn in Hids. destruct r as [[msg|]|e|]; try discriminate.
  destruct (Frame.term_id msg) as [tid'|]; try discriminate.
  destruct (cwd k msg); try discriminate.
  intros [= <- <- <-]. cbn. now rewrite Hids.
Qed.

Lemma setup_workspace_total (k : keys) (t : tester) (w : world) :
  (setup_workspace k t w).1.1 <> NoFuel.
Proof.
  unfold setup_workspace.
  pose proof (recv_until_terminates "projects" None TIMEOUT t (send list_projects w))
    as Hterm.
  destruct (recv_until "projects" None TIMEOUT t (send list_projects w))
    as [[r t1] w1].
  cbn in Hterm. destruct r as [[msg|]|e|]; cbn -[recv_until]; try discriminate;
    [|contradiction].
  destruct (items k msg) as [|[p|] names]; cbn -[recv_until]; try discriminate.
  pose proof (recv_until_terminates "workspaces" None TIMEOUT (set_project p t1)
                (send (list_workspaces (Some p)) w1)) as Hterm2.
  destruct (recv_until "workspaces" None TIMEOUT (set_project p t1)
              (send (list_workspaces (Some p)) w1)) as [[r2 t2] w2].
  cbn in Hterm2. destruct r2 as [[msg2|]|e|]; cbn; try discriminate; [|contradiction].
  destruct (items k msg2) as [|[ws|] names2]; cbn; discriminate.
Qed.

Lemma main_select_workspace_total (t : tester) (w : world) :
  (main_select_workspace t w).1.1 <> OutOfFuel.
Proof.
  unfold main_select_workspace.
  pose proof (recv_until_terminates "selected_workspace" None TIMEOUT t
                (send (select_workspace (project t) (workspace t)) w)) as Hterm.
  destruct (recv_until "selected_workspace" None TIMEOUT t
              (send (select_workspace (project t) (workspace t)) w)) as [[r t1] w1].
  cbn in Hterm. destruct r as [[msg|]|e|]; cbn; try discriminate; [|contradiction].
  destruct (Frame.session_id msg); discriminate.
Qed.

Lemma create_terminal_total (k : keys) (t : tester) (w : world) :
  (create_terminal k t w).1.1 <> NoFuel.
Proof.
  unfold create_terminal.
  pose proof (recv_until_terminates "term_created" None TIMEOUT t
                (send (term_create (project t) (workspace t)) w)) as Hterm.
  destruct (recv_until "term_created" None TIMEOUT t
              (send (term_create (project t) (workspace t)) w)) as [[r t1] w1].
  cbn in Hterm. destruct r as [[msg|]|e|]; cbn; try discriminate; [|contradiction].
  destruct (Frame.term_id msg); cbn; [|discriminate].
  destruct (cwd k msg); discriminate.
Qed.

Lemma connect_total (t : tester) (w : world) : (connect t w).1.1 <> NoFuel.
Proof.
  unfold connect, recv.
  destruct (wait_for_recv TIMEOUT w) as [[msg|] w1]; cbn; [|discriminate].
  destruct (String.eqb (Frame.type msg) "hello"); [|discriminate].
  destruct (Frame.session_id msg); discriminate.
Qed.

(** Steps 1 to 4 always end. When they hand over two terminals, the
    first is the first open session, the second is the last one and is
    not the empty string, and every open session has a buffer. *)
Lemma open_terminals_sessions (k : keys) (w : world) :
  let run := open_terminals k w in
  registered run.1.2
  /\ match run.1.1 with
     | Ok (inl (term1, term2)) =>
         term2 <> "" /\ exists mid, term_ids run.1.2 = term1 :: mid ++ [term2]
     | Ok (inr e) => e <> Passed
     | Err _ | NoFuel => False
     end.
Proof.
  cbn zeta. unfold open_terminals.
  assert (Hreg0 : registered new_tester) by constructor.
  pose proof (registered_connect new_tester w Hreg0) as Hreg1.
  pose proof (connect_total new_tester w) as Hf1.
  destruct (connect new_tester w) as [[r1 t1] w1]. cbn in Hreg1, Hf1.
  destruct r1 as [sid|e|]; [|now cbn|contradiction].
  pose proof (registered_setup_workspace k t1 w1 Hreg1) as Hreg2.
  pose proof (setup_workspace_total k t1 w1) as Hf2.
  destruct (setup_workspace k t1 w1) as [[r2 t2] w2]. cbn in Hreg2, Hf2.
  destruct r2 as [[|]|e|]; [|now cbn|now cbn|contradiction].
  pose proof (registered_main_select_workspace t2 w2 Hreg2) as Hreg3.
  pose proof (main_select_workspace_total t2 w2) as Hf3.
  destruct (main_select_workspace t2 w2) as [[r3 t3] w3]. cbn in Hreg3, Hf3.
  destruct r3 as [u|e|]; [|now cbn|contradiction].
  destruct (term_ids t3) as [|term1 rest] eqn:Hids3; [now cbn|].
  pose proof (registered_create_terminal k t3 w3 Hreg3) as Hreg4.
  pose proof (create_terminal_total k t3 w3) as Hf4.
  destruct (create_terminal k t3 w3) as [[r4 t4] w4] eqn:Hcreate.
  cbn in Hreg4, Hf4.
  destruct r4 as [[term2|]|e|]; [|now cbn|now cbn|contradiction].
  destruct (String.eqb_spec term2 "") as [->|Hne]; [now cbn|].
  cbn. split; [exact Hreg4|]. split; [exact Hne|].
  exists rest. apply create_terminal_ids in Hcreate. now rewrite Hcreate, Hids3.
Qed.

(** X18. A run of [main] always comes to one of its four ends (passed,
    skipped, failed, or an exception caught by [except Exception]): no
    traffic keeps it waiting for ever. The exit code is 0 for the first
    and 1 for the others. *)
Theorem main_always_ends (k : keys) (w : world) :
  exists e,
    (main k w).1.1 = Ok e
    /\ (exit_code e = 0%Z \/ exit_code e = 1%Z)
    /\ (exit_code e = 0%Z <-> e = Passed).
Proof.
  assert (Hcode : forall e, (exit_code e = 0%Z \/ exit_code e = 1%Z)
                            /\ (exit_code e = 0%Z <-> e = Passed)).
  { intros [| |f|e]; cbn; split; auto; split; congruence. }
  unfold main. pose proof (open_terminals_sessions k w) as [Hreg Hres].
  cbn zeta in Hreg, Hres.
  destruct (open_terminals k w) as [[r t0] w0]. cbn in Hreg, Hres.
  destruct r as [[[term1 term2]|e]|e|]; try contradiction.
  2:{ exists e. cbn. destruct (Hcode e). auto. }
  unfold run_tests.
  pose proof (isolation_test_tester term1 term2 t0 w0 Hreg) as (_ & Hreg1 & Hf1).
  cbn zeta in Hreg1, Hf1.
  destruct (isolation_test term1 term2 t0 w0) as [[r1 t1] w1]. cbn in Hreg1, Hf1.
  destruct r1 as [[facts [|]]|e|]; try contradiction.
  - pose proof (pwd_test_tester term1 term2 t1 w1 Hreg1) as (_ & Hreg2 & Hf2).
    cbn zeta in Hreg2, Hf2.
    destruct (pwd_test term1 term2 t1 w1) as [[r2 t2] w2]. cbn in Hreg2, Hf2.
    destruct r2 as [u|e|]; try contradiction.
    + pose proof (close_both_total term1 term2 t2 w2 Hreg2) as [Hf3 Hreg3].
      destruct (close_both term1 term2 t2 w2) as [[r3 t3] w3]. cbn in Hreg3, Hf3.
      destruct r3 as [u3|e|]; try contradiction.
      * exists Passed. cbn. destruct (Hcode Passed). auto.
      * exists (Crashed (Exn e)). cbn. destruct (Hcode (Crashed (Exn e))). auto.
    + exists (Crashed (Exn e)). cbn. destruct (Hcode (Crashed (Exn e))). auto.
  - exists (Failed (Some facts)). cbn. destruct (Hcode (Failed (Some facts))). auto.
  - exists (Crashed (Exn e)). cbn. destruct (Hcode (Crashed (Exn e))). auto.
Qed.

Lemma isolation_test_true (term1 term2 : string) (t t1 : tester) (w w1 : world)
    (facts : containment) :
  isolation_test term1 term2 t w = (Return (facts, true), t1, w1) ->
  exists out1 out2,
    outputs t1 !! term1 = Some out1 /\ outputs t1 !! term2 = Some out2
    /\ contains MARKER_A out1 = true /\ contains MARKER_B out1 = false
    /\ contains MARKER_B out2 = true /\ contains MARKER_A out2 = false.
Proof.
  unfold isolation_test.
  destruct (send_input term1 echo_MARKER_A _ _) as [[[u|e|] ta] wa]; try discriminate.
  destruct (send_input term2 echo_MARKER_B _ _) as [[[u2|e|] tb] wb]; try discriminate.
  destruct (collect_output 20 tb (sleep 500 wb)) as [[[u3|e|] tc] wc]; try discriminate.
  unfold verify_isolation, outputs_at.
  destruct (outputs tc !! term1) as [out1|] eqn:H1;
    cbn -[contains MARKER_A MARKER_B]; [|discriminate].
  destruct (outputs tc !! term2) as [out2|] eqn:H2;
    cbn -[contains MARKER_A MARKER_B]; [|discriminate].
  unfold isolation_ok. cbn -[contains MARKER_A MARKER_B].
  intros [= <- Hok <- <-].
  exists out1, out2. rewrite H1, H2.
  destruct (contains MARKER_A out1), (contains MARKER_B out1),
    (contains MARKER_B out2), (contains MARKER_A out2); cbn in Hok;
    try discriminate. repeat split.
Qed.

(** X19. [main] reports a pass only when, after the collecting loop, the
    buffer of the first terminal contained [MARKER_A] and not
    [MARKER_B] and the buffer of the second contained [MARKER_B] and not
    [MARKER_A]; the two terminals were then different sessions. *)
Theorem main_passes_only_when_isolated
    (k : keys) (w w' : world) (t' : tester) :
  main k w = (Ok Passed, t', w') ->
  exists term1 term2 t0 w0 facts t1 w1 out1 out2,
    open_terminals k w = (Ok (inl (term1, term2)), t0, w0)
    /\ isolation_test term1 term2 t0 w0 = (Return (facts, true), t1, w1)
    /\ term1 <> term2
    /\ outputs t1 !! term1 = Some out1 /\ outputs t1 !! term2 = Some out2
    /\ contains MARKER_A out1 = true /\ contains MARKER_B out1 = false
    /\ contains MARKER_B out2 = true /\ contains MARKER_A out2 = false.
Proof.
  unfold main. pose proof (open_terminals_sessions k w) as [_ Hres].
  cbn zeta in Hres.
  destruct (open_terminals k w) as [[[[[term1 term2]|e]|e|] t0] w0] eqn:Hopen;
    try discriminate.
  2:{ cbn in Hres. intros [= -> _ _]. contradiction. }
  clear Hres. unfold run_tests.
  destruct (isolation_test term1 term2 t0 w0) as [[[[facts [|]]|e|] t1] w1] eqn:Hiso;
    try discriminate.
  intros _.
  destruct (isolation_test_true _ _ _ _ _ _ _ Hiso)
    as (out1 & out2 & H1 & H2 & HA1 & HB1 & HB2 & HA2).
  exists term1, term2, t0, w0, facts, t1, w1, out1, out2.
  repeat split; auto.
  intros ->. rewrite H1 in H2. injection H2 as ->. congruence.
Qed.

Lemma main_passes_only_when_isolated_witness :
  exists term1 term2 t0 w0 facts t1 w1 out1 out2,
    open_terminals demo_keys demo_session = (Ok (inl (term1, term2)), t0, w0)
    /\ isolation_test term1 term2 t0 w0 = (Return (facts, true), t1, w1)
    /\ term1 <> term2
    /\ outputs t1 !! term1 = Some out1 /\ outputs t1 !! term2 = Some out2
    /\ contains MARKER_A out1 = true /\ contains MARKER_B out1 = false
    /\ contains MARKER_B out2 = true /\ contains MARKER_A out2 = false.
Proof.
  apply (main_passes_only_when_isolated demo_keys demo_session
           (main demo_keys demo_session).2 (main demo_keys demo_session).1.2).
  vm_compute. reflexivity.
Defined.

(** A wait for a type of message that is not in the inbox, over
    well-formed traffic and with a session open, returns [None]. *)
Lemma recv_until_loop_nothing_expected (fuel : nat) (msg_type : string)
    (term_id : option string) (deadline : Z) (t : tester) (w : world) :
  (length (inbox w) < fuel)%nat ->
  term_ids t <> [] ->
  Forall (fun x => Frame.type x.2 <> msg_type /\ well_formed x.2) (inbox w) ->
  exists t' w',
    recv_until_loop fuel msg_type term_id deadline t w = (Return None, t', w')
    /\ term_ids t' = term_ids t
    /\ sent w' = sent w
    /\ Forall (fun x => Frame.type x.2 <> msg_type /\ well_formed x.2) (inbox w').
Proof.
  revert t w. induction fuel as [|fuel IH]; intros t w Hlen Hopen Hall; [lia|].
  cbn [recv_until_loop].
  destruct (clock w <? deadline)%Z; [|eauto 10].
  destruct (wait_for_recv (deadline - clock w) w) as [[parsed|] w1] eqn:Hpull;
    apply wait_for_recv_inv in Hpull as (Hsent & _ & _ & Hin).
  2:{ exists t, w1. rewrite (proj1 Hin). auto. }
  destruct Hin as (_ & _ & arrival & Hin). rewrite Hin in Hall, Hlen.
  inversion Hall as [|? ? [Hty Hwf] Hrest]; subst. cbn in Hty, Hwf, Hlen.
  destruct (accumulate_output_well_formed t parsed Hopen Hwf) as [t1 Hacc].
  rewrite Hacc.
  apply accumulate_output_inv in Hacc as (Hids & _).
  unfold expected_frame.
  destruct (String.eqb_spec (Frame.type parsed) msg_type); [contradiction|].
  cbn [andb].
  destruct (IH t1 w1) as (t' & w' & -> & Hids' & Hsent' & Hall');
    [lia | now rewrite Hids | exact Hrest |].
  exists t', w'. repeat split; auto; congruence.
Qed.

Lemma close_terminal_nothing_expected (term_id : string) (t : tester) (w : world) :
  term_ids t <> [] ->
  Forall (fun x => Frame.type x.2 <> "term_closed" /\ well_formed x.2) (inbox w) ->
  exists t' w',
    close_terminal term_id t w = (Return false, t', w')
    /\ term_ids t' = term_ids t
    /\ sent w' = sent w ++ [term_close term_id]
    /\ Forall (fun x => Frame.type x.2 <> "term_closed" /\ well_formed x.2) (inbox w').
Proof.
  intros Hopen Hall. unfold close_terminal, recv_until.
  destruct (recv_until_loop_nothing_expected
              (S (length (inbox (send (term_close term_id) w)))) "term_closed" None
              (clock (send (term_close term_id) w) + TIMEOUT) t
              (send (term_close term_id) w))
    as (t' & w' & -> & Hids & Hsent & Hall'); auto.
  exists t', w'. auto.
Qed.

(** X20. The answers of the two [close_terminal] calls are not looked
    at: a run whose isolation check and [pwd] step went through passes
    although no close is ever acknowledged (the remaining traffic being
    well formed). Both terminals are then still in [term_ids] when
    [main] returns 0, after the two close requests were sent. *)
Theorem main_passes_without_close_acknowledgment
    (k : keys) (w w0 w1 w2 : world) (t0 t1 t2 : tester)
    (term1 term2 : string) (facts : containment) (u : unit) :
  open_terminals k w = (Ok (inl (term1, term2)), t0, w0) ->
  isolation_test term1 term2 t0 w0 = (Return (facts, true), t1, w1) ->
  pwd_test term1 term2 t1 w1 = (Return u, t2, w2) ->
  Forall (fun x => Frame.type x.2 <> "term_closed" /\ well_formed x.2) (inbox w2) ->
  exists t' w',
    main k w = (Ok Passed, t', w')
    /\ term_ids t' = term_ids t0
    /\ term1 ∈ term_ids t' /\ term2 ∈ term_ids t'
    /\ sent w' = sent w2 ++ [term_close term2; term_close term1].
Proof.
  intros Hopen Hiso Hpwd Hall.
  pose proof (open_terminals_sessions k w) as [Hreg Hres].
  cbn zeta in Hreg, Hres. rewrite Hopen in Hreg, Hres. cbn in Hreg, Hres.
  destruct Hres as (_ & mid & Hids0).
  pose proof (isolation_test_tester term1 term2 t0 w0 Hreg) as (Hids1 & Hreg1 & _).
  cbn zeta in Hids1, Hreg1. rewrite Hiso in Hids1, Hreg1. cbn in Hids1, Hreg1.
  pose proof (pwd_test_tester term1 term2 t1 w1 Hreg1) as (Hids2 & _).
  cbn zeta in Hids2. rewrite Hpwd in Hids2. cbn in Hids2.
  assert (Hopen2 : term_ids t2 <> []) by (rewrite Hids2, Hids1, Hids0; discriminate).
  destruct (close_terminal_nothing_expected term2 t2 w2 Hopen2 Hall)
    as (t3 & w3 & Hc2 & Hids3 & Hsent3 & Hall3).
  assert (Hopen3 : term_ids t3 <> []) by now rewrite Hids3.
  destruct (close_terminal_nothing_expected term1 t3 w3 Hopen3 Hall3)
    as (t4 & w4 & Hc1 & Hids4 & Hsent4 & _).
  exists t4, w4. unfold main, run_tests, close_both.
  rewrite Hopen, Hiso, Hpwd, Hc2, Hc1.
  assert (Hids : term_ids t4 = term_ids t0) by congruence.
  split; [reflexivity|]. split; [exact Hids|]. rewrite Hids, Hids0.
  split; [apply list_elem_of_here|]. split.
  - right. apply elem_of_app. right. apply list_elem_of_here.
  - rewrite Hsent4, Hsent3, <- app_assoc. reflexivity.
Qed.

Lemma main_passes_without_close_acknowledgment_witness :
  exists t' w',
    main demo_keys demo_session = (Ok Passed, t', w')
    /\ term_ids t' = ["T1"; "T2"]
    /\ "T1" ∈ term_ids t' /\ "T2" ∈ term_ids t'
    /\ sent w' = [list_projects; list_workspaces (Some "demo");
                  select_workspace (Some "demo") (Some "main");
                  term_create (Some "demo") (Some "main");
                  input "T1" "ZWNobyBNQVJLRVJfQQo=";
                  input "T2" "ZWNobyBNQVJLRVJfQgo=";
                  input "T1" "cHdkCg=="; input "T2" "cHdkCg=="]
                 ++ [term_close "T2"; term_close "T1"].
Proof.
  set (o := open_terminals demo_keys demo_session).
  set (i := isolation_test "T1" "T2" o.1.2 o.2).
  set (p := pwd_test "T1" "T2" i.1.2 i.2).
  apply (main_passes_without_close_acknowledgment demo_keys demo_session
           o.2 i.2 p.2 o.1.2 i.1.2 p.1.2 "T1" "T2"
           {| term1_has_A := true; term1_has_B := false;
              term2_has_A := false; term2_has_B := true |} ()).
  - vm_compute. reflexivity.
  - vm_compute. reflexivity.
  - vm_compute. reflexivity.
  - vm_compute. constructor.
Defined.

(** ** The codecs on arbitrary input *)

Lemma a2b_base64_skips (s1 s2 : string) (c : ascii)
    (quad_pos leftchar pads : N) (acc : list byte) :
  Base64.table_a2b_base64 c = None ->
  Ascii.eqb c Base64.BASE64_PAD = false ->
  Base64.a2b_base64 (s1 ++ String c s2) quad_pos leftchar pads acc
  = Base64.a2b_base64 (s1 ++ s2) quad_pos leftchar pads acc.
Proof.
  intros Htab Hpad. revert quad_pos leftchar pads acc.
  induction s1 as [|d s1 IH]; intros q l p acc.
  - change ("" ++ String c s2)%string with (String c s2).
    change ("" ++ s2)%string with s2.
    cbn [Base64.a2b_base64]. now rewrite Hpad, Htab.
  - change (String d s1 ++ String c s2)%string
      with (String d (s1 ++ String c s2)%string).
    change (String d s1 ++ s2)%string with (String d (s1 ++ s2)%string).
    cbn [Base64.a2b_base64].
    destruct (Ascii.eqb d Base64.BASE64_PAD).
    + destruct ((2 <=? q) && (4 <=? q + (p + 1))); [reflexivity|apply IH].
    + destruct (Base64.table_a2b_base64 d) as [v|]; [|apply IH].
      destruct (q =? 0); [apply IH|]. destruct (q =? 1); [apply IH|].
      destruct (q =? 2); apply IH.
Qed.

Lemma is_ascii_skips (s1 s2 : string) (c : ascii) :
  Base64.is_ascii c = true ->
  forallb Base64.is_ascii (list_ascii_of_string (s1 ++ String c s2))
  = forallb Base64.is_ascii (list_ascii_of_string (s1 ++ s2)).
Proof.
  intros Hc. induction s1 as [|d s1 IH].
  - change ("" ++ String c s2)%string with (String c s2).
    change ("" ++ s2)%string with s2.
    cbn [list_ascii_of_string forallb]. now rewrite Hc.
  - change (String d s1 ++ String c s2)%string
      with (String d (s1 ++ String c s2)%string).
    change (String d s1 ++ s2)%string with (String d (s1 ++ s2)%string).
    cbn [list_ascii_of_string forallb]. now rewrite IH.
Qed.

(** X21. [base64.b64decode] passes over every ASCII character that is
    neither in the alphabet nor the pad, wherever it stands: an output
    frame whose payload has line breaks or blanks in it is accumulated
    exactly as the same frame without them. *)
Theorem b64decode_skips_foreign_characters
    (s1 s2 : string) (c : ascii) (t : tester)
    (type : string) (term_id session_id : option string) :
  Base64.is_ascii c = true ->
  Base64.table_a2b_base64 c = None ->
  c <> Base64.BASE64_PAD ->
  Base64.b64decode (s1 ++ String c s2) = Base64.b64decode (s1 ++ s2)
  /\ accumulate_output t
       {| Frame.type := type; Frame.term_id := term_id;
          Frame.session_id := session_id;
          Frame.data_b64 := Some (s1 ++ String c s2)%string |}
     = accumulate_output t
         {| Frame.type := type; Frame.term_id := term_id;
            Frame.session_id := session_id;
            Frame.data_b64 := Some (s1 ++ s2)%string |}.
Proof.
  intros Hc Htab Hpad.
  assert (Heq : Base64.b64decode (s1 ++ String c s2) = Base64.b64decode (s1 ++ s2)).
  { unfold Base64.b64decode. rewrite (is_ascii_skips s1 s2 c Hc).
    destruct (forallb Base64.is_ascii (list_ascii_of_string (s1 ++ s2)));
      [|reflexivity].
    apply a2b_base64_skips; [exact Htab|]. now apply Ascii.eqb_neq. }
  split; [exact Heq|].
  unfold accumulate_output, target. cbn. now rewrite Heq.
Qed.

Lemma b64decode_skips_foreign_characters_witness :
  Base64.b64decode ("aG" ++ String "010"%char "k=") = Base64.b64decode ("aG" ++ "k=")
  /\ accumulate_output smoke_tester
       {| Frame.type := "output"; Frame.term_id := Some "A";
          Frame.session_id := None;
          Frame.data_b64 := Some ("aG" ++ String "010"%char "k=")%string |}
     = accumulate_output smoke_tester
         {| Frame.type := "output"; Frame.term_id := Some "A";
            Frame.session_id := None;
            Frame.data_b64 := Some ("aG" ++ "k=")%string |}.
Proof.
  apply (b64decode_skips_foreign_characters "aG" "k=" "010"%char smoke_tester
           "output" (Some "A") None).
  - reflexivity.
  - reflexivity.
  - discriminate.
Defined.

(** Every code point the decoder puts out is a scalar value, and it puts
    out at most one for each byte. *)
Lemma decode_replace_scalar_upto (n : nat) (s : list byte) :
  (length s <= n)%nat ->
  Forall scalar (Utf8.decode_replace s)
  /\ (length (Utf8.decode_replace s) <= length s)%nat.
Proof.
  revert s. induction n as [|n IH]; intros s Hlen.
  { destruct s; [|cbn in Hlen; lia]. cbn. split; [constructor|lia]. }
  assert (Hrep : scalar Utf8.REPLACEMENT) by (unfold scalar, Utf8.REPLACEMENT; lia).
  destruct s as [|b r]; [cbn; split; [constructor|lia]|].
  cbn in Hlen. pose proof (to_N_lt b) as Hb.
  assert (Hr : Forall scalar (Utf8.decode_replace r)
               /\ (length (Utf8.decode_replace r) <= length r)%nat)
    by (apply IH; lia).
  assert (Hstep : forall (c : N) (rest : list byte),
             scalar c -> (length rest <= n)%nat -> (length rest <= length r)%nat ->
             Forall scalar (c :: Utf8.decode_replace rest)
             /\ (length (c :: Utf8.decode_replace rest) <= length (b :: r))%nat).
  { intros c rest Hc Hn Hle. destruct (IH rest Hn) as [Hs Hl].
    split; [now constructor|]. cbn. lia. }
  assert (Hone : Forall scalar [Utf8.REPLACEMENT]
                 /\ (length [Utf8.REPLACEMENT] <= length (b :: r))%nat).
  { split; [now repeat constructor|cbn; lia]. }
  cbn [Utf8.decode_replace].
  destruct (N.ltb_spec (Byte.to_N b) 0x80).
  { apply Hstep; [unfold scalar; lia|lia|lia]. }
  destruct (N.ltb_spec (Byte.to_N b) 0xC2); [apply Hstep; [exact Hrep|lia|lia]|].
  destruct (N.ltb_spec (Byte.to_N b) 0xE0).
  { destruct r as [|b2 r2]; [exact Hone|]. cbn in Hlen.
    unfold Utf8.is_continuation.
    destruct (N.leb_spec 0x80 (Byte.to_N b2)); destruct (N.ltb_spec (Byte.to_N b2) 0xC0);
      cbn [andb]; try (apply Hstep; [exact Hrep|cbn; lia|cbn; lia]).
    apply Hstep; [|cbn in *; lia|cbn; lia].
    unfold scalar. rewrite !N.shiftl_mul_pow2. unmask. lia. }
  destruct (N.ltb_spec (Byte.to_N b) 0xF0).
  { destruct r as [|b2 r2]; [exact Hone|]. cbn in Hlen.
    destruct (Utf8.bad_second3 (Byte.to_N b) (Byte.to_N b2)) eqn:Hbad;
      [apply Hstep; [exact Hrep|cbn; lia|cbn; lia]|].
    destruct r2 as [|b3 r3]; [exact Hone|]. cbn in Hlen.
    unfold Utf8.is_continuation.
    destruct (N.leb_spec 0x80 (Byte.to_N b3)); destruct (N.ltb_spec (Byte.to_N b3) 0xC0);
      cbn [andb]; try (apply Hstep; [exact Hrep|cbn; lia|cbn; lia]).
    apply Hstep; [|cbn in *; lia|cbn; lia].
    unfold Utf8.bad_second3, Utf8.is_continuation in Hbad.
    apply orb_false_elim in Hbad as [Hc2 Hlim].
    apply negb_false_iff, andb_prop in Hc2 as [Hc2a Hc2b].
    apply N.leb_le in Hc2a. apply N.ltb_lt in Hc2b.
    unfold scalar. rewrite !N.shiftl_mul_pow2. unmask.
    destruct (N.ltb_spec (Byte.to_N b2) 0xA0);
      [apply N.eqb_neq in Hlim|apply N.eqb_neq in Hlim]; lia. }
  destruct (N.ltb_spec (Byte.to_N b) 0xF5); [|apply Hstep; [exact Hrep|lia|lia]].
  destruct r as [|b2 r2]; [exact Hone|]. cbn in Hlen.
  destruct (Utf8.bad_second4 (Byte.to_N b) (Byte.to_N b2)) eqn:Hbad;
    [apply Hstep; [exact Hrep|cbn; lia|cbn; lia]|].
  destruct r2 as [|b3 r3]; [exact Hone|]. cbn in Hlen.
  unfold Utf8.is_continuation.
  destruct (N.leb_spec 0x80 (Byte.to_N b3)); destruct (N.ltb_spec (Byte.to_N b3) 0xC0);
    cbn [andb negb]; try (apply Hstep; [exact Hrep|cbn; lia|cbn; lia]).
  destruct r3 as [|b4 r4]; [exact Hone|]. cbn in Hlen.
  unfold Utf8.is_continuation.
  destruct (N.leb_spec 0x80 (Byte.to_N b4)); destruct (N.ltb_spec (Byte.to_N b4) 0xC0);
    cbn [andb]; try (apply Hstep; [exact Hrep|cbn; lia|cbn; lia]).
  apply Hstep; [|cbn in *; lia|cbn; lia].
  unfold Utf8.bad_second4, Utf8.is_continuation in Hbad.
  apply orb_false_elim in Hbad as [Hc2 Hlim].
  apply negb_false_iff, andb_prop in Hc2 as [Hc2a Hc2b].
  apply N.leb_le in Hc2a. apply N.ltb_lt in Hc2b.
  unfold scalar. rewrite !N.shiftl_mul_pow2. unmask.
  destruct (N.ltb_spec (Byte.to_N b2) 0x90);
    [apply N.eqb_neq in Hlim|apply N.eqb_neq in Hlim]; lia.
Qed.

(** X22. Whatever bytes come in, [decode("utf-8", errors="replace")]
    yields Unicode scalar values only (no surrogate, nothing above
    U+10FFFF) and at most one character per byte. Hence a tester whose
    buffers hold scalar values only keeps that property through every
    accumulated frame: buffer text can always be encoded again. *)
Theorem buffers_hold_scalar_values (s : list byte) (t : tester) (parsed : frame) :
  Forall scalar (Utf8.decode_replace s)
  /\ (length (Utf8.decode_replace s) <= length s)%nat
  /\ (exists raw, Utf8.encode (Utf8.decode_replace s) = Return raw)
  /\ (clean t -> forall t', accumulate_output t parsed = Return t' -> clean t').
Proof.
  destruct (decode_replace_scalar_upto (length s) s (le_n _)) as [Hs Hl].
  split; [exact Hs|]. split; [exact Hl|].
  split; [now apply encode_scalar|].
  intros Hclean t'. unfold accumulate_output.
  destruct (String.eqb (Frame.type parsed) "output"); [|now intros [= <-]].
  destruct (target t parsed) as [tid| |]; cbn; try discriminate.
  destruct (outputs t !! tid) as [old|] eqn:Hold; [|now intros [= <-]].
  destruct (Frame.data_b64 parsed) as [data|]; cbn; try discriminate.
  destruct (Base64.b64decode data) as [raw| |]; cbn; try discriminate.
  intros [= <-] k txt. cbn.
  destruct (decide (tid = k)) as [->|Hne].
  - rewrite lookup_insert_eq. intros [= <-]. apply Forall_app. split.
    + now apply (Hclean k).
    + apply (decode_replace_scalar_upto (length raw) raw (le_n _)).
  - rewrite lookup_insert_ne by assumption. apply Hclean.
Qed.

Lemma buffers_hold_scalar_values_witness :
  clean (append_output "A" (Utf8.decode_replace [xed; xa0; x80; xf4; x90])
           smoke_tester).
Proof.
  destruct (buffers_hold_scalar_values [] smoke_tester
              (output_frame (Some "A") [xed; xa0; x80; xf4; x90]))
    as (_ & _ & _ & Hkeep).
  apply Hkeep.
  - intros k s. unfold smoke_tester. cbn [outputs].
    rewrite lookup_insert. case_decide; [intros [= <-]; constructor|].
    rewrite lookup_singleton. case_decide; [intros [= <-]; constructor|discriminate].
  - vm_compute. reflexivity.
Defined.

(** ** Edges of the tests *)

(** X23. With a timeout that is not positive, [wait_for_output] answers
    [False] at once, without looking at the buffer or the connection:
    also when the expected text is already there. *)
Theorem wait_for_output_without_time
    (term_id : string) (expected : list N) (timeout : Z) (t : tester) (w : world) :
  (timeout <= 0)%Z ->
  wait_for_output term_id expected timeout t w = (Return false, t, w).
Proof.
  intros Hle. unfold wait_for_output. cbn [wait_for_output_loop].
  destruct (Z.ltb_spec (clock w) (clock w + timeout)); [lia|reflexivity].
Qed.

Lemma wait_for_output_without_time_witness :
  contains MARKER_A (default [] (outputs settled_tester !! "A")) = true
  /\ wait_for_output "A" MARKER_A 0 settled_tester pong_world
     = (Return false, settled_tester, pong_world).
Proof.
  split; [vm_compute; reflexivity|].
  apply wait_for_output_without_time. lia.
Defined.

(** X24. The isolation test starts by emptying the buffers of its two
    terminals: what they held before (output of the shells' start, of
    earlier commands) has no part in the result. Only frames read from
    then on count. *)
Theorem isolation_test_forgets_earlier_output
    (term1 term2 : string) (old1 old2 : list N) (t : tester) (w : world) :
  isolation_test term1 term2 (with_output term2 old2 (with_output term1 old1 t)) w
  = isolation_test term1 term2 t w.
Proof.
  unfold isolation_test.
  assert (Heq : clear_output term2
                  (clear_output term1 (with_output term2 old2 (with_output term1 old1 t)))
                = clear_output term2 (clear_output term1 t)).
  { unfold clear_output, with_output, set_outputs. cbn. f_equal.
    apply map_eq. intros j. rewrite !lookup_insert.
    repeat case_decide; congruence. }
  now rewrite Heq.
Qed.
